(** * The task store of the to-do application (script.js)

    A shallow embedding of the store operations of [script.js]
    ([handleAddTask], [toggleTaskCompletion], [deleteTask],
    [handleClearCompleted], [saveTasksToStorage], [loadTasksFromStorage],
    [importTasks]) together with a model of the parts of the JavaScript
    runtime they call ([String.prototype.trim], [toLowerCase],
    [JSON.stringify], [JSON.parse], [localStorage]).

    Range of the runtime model.
    - A JavaScript string is a [string]: a sequence of code units, each in
      the range U+0000..U+00FF.
    - A JavaScript number is a [Z] of magnitude at most 2^53: the integers
      that a double holds exactly, which covers [Date.now()] and
      [Array.prototype.length].
    - [JSON.parse] throws a SyntaxError on a text that is not JSON.  On a
      text that is JSON and denotes a value outside this range (a number
      written with a fraction or an exponent, a larger integer, a [\u]
      escape above U+00FF, an object whose keys repeat or are array
      indices) it answers [Unmodelled]: the model says nothing about what
      the program does with such a value.
    - The view layer ([renderTasks], [updateStatistics], the DOM) is a
      parameter: it cannot write [tasks] or the storage, and the store only
      sees whether a call to it completes.

    The first part holds the definitions, the second part the proofs. *)

From Stdlib Require Import String Ascii List ZArith Lia Bool.
From Stdlib Require Import Decimal DecimalString DecimalFacts DecimalPos DecimalN DecimalZ.
Import ListNotations.

#[local] Open Scope string_scope.
#[local] Set Warnings "-register-all".

(** * Part I: definitions *)

(** ** Outcomes of a JavaScript computation *)

(** The exceptions the program meets: those the runtime throws and the
    [new Error(...)] of [importTasks]. *)
Inductive JSError : Type :=
| TypeError
| SyntaxError
| ReferenceError
| QuotaExceededError
| GenericError (msg : string).

(** A computation returns, throws, or leaves the range of the model. *)
Inductive Outcome (A : Type) : Type :=
| Ok (a : A)
| Throw (e : JSError)
| Unmodelled.

Arguments Ok {A} a.
Arguments Throw {A} e.
Arguments Unmodelled {A}.

(** Sequencing: the first abrupt completion is the result. *)
Definition obind {A B : Type} (o : Outcome A) (k : A -> Outcome B) : Outcome B :=
  match o with
  | Ok a => k a
  | Throw e => Throw e
  | Unmodelled => Unmodelled
  end.

Declare Scope outcome_scope.
Delimit Scope outcome_scope with outcome.
Notation "' p <- c ;; k" := (obind c (fun x => match x with p => k end))
  (at level 60, p pattern, c at next level, right associativity) : outcome_scope.
Notation "x <- c ;; k" := (obind c (fun x => k))
  (at level 60, c at next level, right associativity) : outcome_scope.

(** ** Characters and strings *)

Module JSString.

(** The double quote and the backslash, by code. *)
Definition dquote : ascii := "034"%char.

Definition backslash : ascii := "092"%char.

(** The code unit as a number. *)
Definition code (c : ascii) : nat := nat_of_ascii c.

(** WhiteSpace and LineTerminator code points below U+0100: TAB, LF, VT, FF,
    CR, SP and NBSP.  [trim] strips all of them. *)
Definition isWhiteSpace (c : ascii) : bool :=
  let n := code c in
  ((n =? 9) || (n =? 10) || (n =? 11) || (n =? 12) || (n =? 13) || (n =? 32)
   || (n =? 160))%nat.

(** [String.prototype.trimStart] and [trimEnd] *)
Fixpoint trimStart (s : string) : string :=
  match s with
  | String c r => if isWhiteSpace c then trimStart r else s
  | EmptyString => EmptyString
  end.

Fixpoint trimEnd (s : string) : string :=
  match s with
  | String c r =>
      let r' := trimEnd r in
      if isWhiteSpace c && (r' =? "") then "" else String c r'
  | EmptyString => EmptyString
  end.

(** [String.prototype.trim] *)
Definition trim (s : string) : string := trimEnd (trimStart s).

(** Simple lower-case mapping of a code unit below U+0100: A-Z and the
    capital letters U+00C0..U+00DE other than the multiplication sign. *)
Definition lower (c : ascii) : ascii :=
  let n := code c in
  if (((65 <=? n) && (n <=? 90))
      || ((192 <=? n) && (n <=? 222) && negb (n =? 215)))%nat
  then ascii_of_nat (n + 32) else c.

(** [String.prototype.toLowerCase] *)
Fixpoint toLowerCase (s : string) : string :=
  match s with
  | String c r => String (lower c) (toLowerCase r)
  | EmptyString => EmptyString
  end.

(** The decimal digits. *)
Definition isDigit (c : ascii) : bool :=
  let n := code c in ((48 <=? n) && (n <=? 57))%nat.

Fixpoint allDigits (s : string) : bool :=
  match s with
  | String c r => isDigit c && allDigits r
  | EmptyString => true
  end.

End JSString.

Import JSString.

(** ** Values *)

(** The values that [JSON.parse] builds and the program holds in [tasks].
    An object is the list of its own properties in creation order. *)
Inductive JSValue : Type :=
| JNull
| JBool (b : bool)
| JNum (n : Z)
| JStr (s : string)
| JArr (elems : list JSValue)
| JObj (props : list (string * JSValue)).

(** The result of reading a property: [None] is [undefined]. *)
Definition Lookup : Type := option JSValue.

(** The own property [k] of an object. *)
Fixpoint lookup (k : string) (props : list (string * JSValue)) : Lookup :=
  match props with
  | [] => None
  | (k', v) :: rest => if k' =? k then Some v else lookup k rest
  end.

(** [o[k] = v] on an ordinary object: an existing property keeps its place,
    a new one goes last. *)
Fixpoint assign (k : string) (v : JSValue) (props : list (string * JSValue))
  : list (string * JSValue) :=
  match props with
  | [] => [(k, v)]
  | (k', v') :: rest =>
      if k' =? k then (k', v) :: rest else (k', v') :: assign k v rest
  end.

(** [v.k] for a name [k] that no built-in prototype defines ([id], [text],
    [completed]): reading from [null] throws, a primitive or an array has no
    such property. *)
Definition getProp (v : JSValue) (k : string) : Outcome Lookup :=
  match v with
  | JNull => Throw TypeError
  | JObj props => Ok (lookup k props)
  | _ => Ok None
  end.

(** ToBoolean *)
Definition truthy (l : Lookup) : bool :=
  match l with
  | None => false
  | Some JNull => false
  | Some (JBool b) => b
  | Some (JNum n) => negb (n =? 0)%Z
  | Some (JStr s) => negb (s =? "")
  | Some (JArr _) => true
  | Some (JObj _) => true
  end.

(** ** JSON.stringify *)

Module JSON.

Definition hexDigit (n : nat) : ascii :=
  match n with
  | 0 => "0" | 1 => "1" | 2 => "2" | 3 => "3" | 4 => "4" | 5 => "5"
  | 6 => "6" | 7 => "7" | 8 => "8" | 9 => "9" | 10 => "a" | 11 => "b"
  | 12 => "c" | 13 => "d" | 14 => "e" | _ => "f"
  end%char.

(** QuoteJSONString, one code unit at a time. *)
Definition escapeChar (c : ascii) : string :=
  let n := code c in
  if (n =? 34)%nat then String backslash (String dquote "")
  else if (n =? 92)%nat then String backslash (String backslash "")
  else if (n =? 8)%nat then String backslash "b"
  else if (n =? 9)%nat then String backslash "t"
  else if (n =? 10)%nat then String backslash "n"
  else if (n =? 12)%nat then String backslash "f"
  else if (n =? 13)%nat then String backslash "r"
  else if (n <? 32)%nat then
    String backslash
      (String "u" (String "0" (String "0"
         (String (hexDigit (n / 16)) (String (hexDigit (n mod 16)) "")))))
  else String c "".

Fixpoint escape (s : string) : string :=
  match s with
  | String c r => escapeChar c ++ escape r
  | EmptyString => EmptyString
  end.

Definition quote (s : string) : string :=
  String dquote (escape s ++ String dquote "").

(** Number::toString on an integer. *)
Definition numberToString (n : Z) : string :=
  NilEmpty.string_of_int (Z.to_int n).

Fixpoint stringify (v : JSValue) : string :=
  match v with
  | JNull => "null"
  | JBool true => "true"
  | JBool false => "false"
  | JNum n => numberToString n
  | JStr s => quote s
  | JArr elems => "[" ++ String.concat "," (map stringify elems) ++ "]"
  | JObj props =>
      "{" ++ String.concat ","
               (map (fun kv => quote (fst kv) ++ ":" ++ stringify (snd kv)) props)
          ++ "}"
  end.

(** *** JSON.parse *)

#[local] Open Scope outcome_scope.

(** JSON white space: TAB, LF, CR and SP. *)
Definition isJSONSpace (c : ascii) : bool :=
  let n := code c in ((n =? 9) || (n =? 10) || (n =? 13) || (n =? 32))%nat.

Fixpoint skipSpace (s : string) : string :=
  match s with
  | String c r => if isJSONSpace c then skipSpace r else s
  | EmptyString => EmptyString
  end.

Fixpoint stripPrefix (p s : string) : option string :=
  match p, s with
  | EmptyString, _ => Some s
  | String a p', String b s' => if (a =? b)%char then stripPrefix p' s' else None
  | String _ _, EmptyString => None
  end.

(** The rest of a literal name ([null], [true], [false]) whose first letter
    has been read. *)
Definition literal (rest : string) (v : JSValue) (s : string)
  : Outcome (JSValue * string) :=
  match stripPrefix rest s with
  | Some s' => Ok (v, s')
  | None => Throw SyntaxError
  end.

Definition hexValue (c : ascii) : option nat :=
  let n := code c in
  if ((48 <=? n) && (n <=? 57))%nat then Some (n - 48)
  else if ((97 <=? n) && (n <=? 102))%nat then Some (n - 87)
  else if ((65 <=? n) && (n <=? 70))%nat then Some (n - 55)
  else None.

Definition consChar (c : ascii) (o : Outcome (string * string))
  : Outcome (string * string) :=
  '(str, r) <- o ;; Ok (String c str, r).

(** The characters of a string literal after its opening quote, up to and
    including the closing quote.  The parser runs in two ways: with [strict]
    unset it checks the grammar only and reads a placeholder wherever the
    text denotes something outside the model (here a question mark for a
    [\u] escape above U+00FF); with [strict] set it answers [Unmodelled]
    there. *)
Fixpoint parseChars (strict : bool) (s : string) : Outcome (string * string) :=
  match s with
  | EmptyString => Throw SyntaxError
  | String c r =>
      if (c =? dquote)%char then Ok ("", r)
      else if (c =? backslash)%char then
        match r with
        | EmptyString => Throw SyntaxError
        | String e r1 =>
            if (e =? dquote)%char then consChar dquote (parseChars strict r1)
            else if (e =? backslash)%char then consChar backslash (parseChars strict r1)
            else if (e =? "/")%char then consChar "/" (parseChars strict r1)
            else if (e =? "b")%char then consChar "008" (parseChars strict r1)
            else if (e =? "f")%char then consChar "012" (parseChars strict r1)
            else if (e =? "n")%char then consChar "010" (parseChars strict r1)
            else if (e =? "r")%char then consChar "013" (parseChars strict r1)
            else if (e =? "t")%char then consChar "009" (parseChars strict r1)
            else if (e =? "u")%char then
              match r1 with
              | String h1 (String h2 (String h3 (String h4 r2))) =>
                  match hexValue h1, hexValue h2, hexValue h3, hexValue h4 with
                  | Some a, Some b, Some c', Some d =>
                      if ((a =? 0) && (b =? 0))%nat
                      then consChar (ascii_of_nat (16 * c' + d)) (parseChars strict r2)
                      else if strict then Unmodelled
                      else consChar "?" (parseChars strict r2)
                  | _, _, _, _ => Throw SyntaxError
                  end
              | _ => Throw SyntaxError
              end
            else Throw SyntaxError
        end
      else if (code c <? 32)%nat then Throw SyntaxError
      else consChar c (parseChars strict r)
  end.

Definition digit (c : ascii) (d : uint) : uint :=
  match code c - 48 with
  | 0 => D0 d | 1 => D1 d | 2 => D2 d | 3 => D3 d | 4 => D4 d
  | 5 => D5 d | 6 => D6 d | 7 => D7 d | 8 => D8 d | _ => D9 d
  end.

(** The longest run of decimal digits at the head of [s]. *)
Fixpoint takeDigits (s : string) : uint * string :=
  match s with
  | String c r =>
      if isDigit c then let '(d, r') := takeDigits r in (digit c d, r')
      else (Nil, s)
  | EmptyString => (Nil, s)
  end.

Definition leadingZero (d : uint) : bool :=
  match d with
  | D0 Nil => false
  | D0 _ => true
  | _ => false
  end.

Definition startsFraction (s : string) : bool :=
  match s with
  | String c _ => ((c =? ".") || (c =? "e") || (c =? "E"))%char
  | EmptyString => false
  end.

Definition maxExact : Z := 2 ^ 53.

(** The fraction of a number token, a point and at least one digit:
    whether there is one, and the text after it. *)
Definition skipFraction (s : string) : Outcome (bool * string) :=
  match s with
  | String c r =>
      if (c =? ".")%char then
        match takeDigits r with
        | (Nil, _) => Throw SyntaxError
        | (_, r') => Ok (true, r')
        end
      else Ok (false, s)
  | EmptyString => Ok (false, s)
  end.

Definition skipSign (s : string) : string :=
  match s with
  | String c r => if ((c =? "+") || (c =? "-"))%char then r else s
  | EmptyString => s
  end.

(** The exponent of a number token: [e] or [E], an optional sign and at
    least one digit. *)
Definition skipExponent (s : string) : Outcome (bool * string) :=
  match s with
  | String c r =>
      if ((c =? "e") || (c =? "E"))%char then
        match takeDigits (skipSign r) with
        | (Nil, _) => Throw SyntaxError
        | (_, r') => Ok (true, r')
        end
      else Ok (false, s)
  | EmptyString => Ok (false, s)
  end.

(** A number token: an optional minus sign, an integer part without a
    leading zero, an optional fraction and an optional exponent.  A token
    with a fraction or an exponent, or whose integer is not exact in a
    double, is well formed and outside the model. *)
Definition parseNumber (strict : bool) (s : string)
  : Outcome (JSValue * string) :=
  let '(negative, s1) :=
    match s with
    | String c r => if (c =? "-")%char then (true, r) else (false, s)
    | EmptyString => (false, s)
    end in
  let '(d, r) := takeDigits s1 in
  match d with
  | Nil => Throw SyntaxError
  | _ =>
      if leadingZero d then Throw SyntaxError
      else
        '(fraction, r1) <- skipFraction r ;;
        '(exponent, r2) <- skipExponent r1 ;;
        let n := Z.of_uint d in
        if negb (fraction || exponent) && (n <=? maxExact)%Z
        then Ok (JNum (if negative then - n else n)%Z, r2)
        else if strict then Unmodelled
        else Ok (JNum 0, r2)
  end.

(** The elements of a non-empty array after its opening bracket, up to and
    including the closing bracket.  [pv] reads one value; [n] bounds the
    number of elements. *)
Fixpoint parseElements (pv : string -> Outcome (JSValue * string)) (n : nat)
  (s : string) : Outcome (list JSValue * string) :=
  match n with
  | O => Unmodelled
  | S n' =>
      '(v, r) <- pv s ;;
      match skipSpace r with
      | String c r1 =>
          if (c =? ",")%char then
            '(vs, r2) <- parseElements pv n' r1 ;; Ok (v :: vs, r2)
          else if (c =? "]")%char then Ok ([v], r1)
          else Throw SyntaxError
      | EmptyString => Throw SyntaxError
      end
  end.

(** The members of a non-empty object after its opening brace. *)
Fixpoint parseMembers (strict : bool)
  (pv : string -> Outcome (JSValue * string)) (n : nat)
  (s : string) : Outcome (list (string * JSValue) * string) :=
  match n with
  | O => Unmodelled
  | S n' =>
      match skipSpace s with
      | String q r =>
          if (q =? dquote)%char then
            '(k, r1) <- parseChars strict r ;;
            match skipSpace r1 with
            | String c r2 =>
                if (c =? ":")%char then
                  '(v, r3) <- pv r2 ;;
                  match skipSpace r3 with
                  | String c' r4 =>
                      if (c' =? ",")%char then
                        '(m, r5) <- parseMembers strict pv n' r4 ;;
                        Ok ((k, v) :: m, r5)
                      else if (c' =? "}")%char then Ok ([(k, v)], r4)
                      else Throw SyntaxError
                  | EmptyString => Throw SyntaxError
                  end
                else Throw SyntaxError
            | EmptyString => Throw SyntaxError
            end
          else Throw SyntaxError
      | EmptyString => Throw SyntaxError
      end
  end.

Fixpoint distinct (ks : list string) : bool :=
  match ks with
  | [] => true
  | k :: rest => negb (existsb (String.eqb k) rest) && distinct rest
  end.

(** An array index as a property name: a non-empty run of digits. *)
Definition indexLike (k : string) : bool :=
  negb (k =? "") && allDigits k.

(** Own property names that an ordinary object lists in creation order. *)
Definition plainKeys (ks : list string) : bool :=
  distinct ks && forallb (fun k => negb (indexLike k)) ks.

(** One JSON value at the head of [s], and the text after it.  [fuel]
    bounds the nesting depth.  With [strict] unset an object is read
    whatever its keys are. *)
Fixpoint parseValue (strict : bool) (fuel : nat) (s : string)
  : Outcome (JSValue * string) :=
  match fuel with
  | O => Unmodelled
  | S fuel' =>
      match skipSpace s with
      | EmptyString => Throw SyntaxError
      | String c r =>
          if (c =? "n")%char then literal "ull" JNull r
          else if (c =? "t")%char then literal "rue" (JBool true) r
          else if (c =? "f")%char then literal "alse" (JBool false) r
          else if (c =? dquote)%char then
            '(str, r1) <- parseChars strict r ;; Ok (JStr str, r1)
          else if (c =? "[")%char then
            match skipSpace r with
            | EmptyString => Throw SyntaxError
            | String c' r1 =>
                if (c' =? "]")%char then Ok (JArr [], r1)
                else
                  '(vs, r2) <-
                    parseElements (parseValue strict fuel') (String.length r) r ;;
                  Ok (JArr vs, r2)
            end
          else if (c =? "{")%char then
            match skipSpace r with
            | EmptyString => Throw SyntaxError
            | String c' r1 =>
                if (c' =? "}")%char then Ok (JObj [], r1)
                else
                  '(m, r2) <-
                    parseMembers strict (parseValue strict fuel')
                      (String.length r) r ;;
                  if plainKeys (map fst m) || negb strict
                  then Ok (JObj m, r2) else Unmodelled
            end
          else if (c =? "-")%char || isDigit c
          then parseNumber strict (String c r)
          else Throw SyntaxError
      end
  end.

(** One value, then nothing but white space. *)
Definition parseText (strict : bool) (text : string) : Outcome JSValue :=
  '(v, r) <- parseValue strict (S (String.length text)) text ;;
  match skipSpace r with
  | EmptyString => Ok v
  | String _ _ => Throw SyntaxError
  end.

(** [JSON.parse(text)].  The grammar of the whole text is checked first, so
    that a text that is not JSON is answered with a SyntaxError wherever
    its flaw lies; a text that is JSON is then read for its value, and
    answered with [Unmodelled] when that value lies outside the model. *)
Definition parse (text : string) : Outcome JSValue :=
  _ <- parseText false text ;; parseText true text.

(** An answer of a parser run on a text of [len] code units: the text it
    leaves is shorter, and with [strict] unset it is never [Unmodelled]. *)
Definition answers {A : Type} (strict : bool) (len : nat)
  (o : Outcome (A * string)) : Prop :=
  (strict = false -> o <> Unmodelled)
  /\ forall a r, o = Ok (a, r) -> String.length r < len.

(** *** What may follow a serialised value *)

(** A run of digits is read back until the first character that is not a
    digit. *)
Definition endsDigits (rest : string) : bool :=
  match rest with
  | String c _ => negb (isDigit c)
  | EmptyString => true
  end.

(** What may follow a number token in a JSON text that the model reads. *)
Definition endsNumber (rest : string) : bool :=
  endsDigits rest && negb (startsFraction rest).

(** The first character of a serialised value: never white space, never a
    closing bracket. *)
Definition opensValue (s : string) : Prop :=
  exists c t, s = String c t /\ isJSONSpace c = false
              /\ (c =? "]")%char = false.

(** The value parser [pv] reads back the serialisation of [v], whatever
    delimiter follows it. *)
Definition readsBack (pv : string -> Outcome (JSValue * string)) (v : JSValue)
  : Prop :=
  forall rest, endsNumber rest = true -> pv (stringify v ++ rest) = Ok (v, rest).

(** One member of a serialised object. *)
Definition member (kv : string * JSValue) : string :=
  quote (fst kv) ++ ":" ++ stringify (snd kv).

End JSON.

(** ** Induction on values *)

Section JSValueInduction.

Variable P : JSValue -> Prop.
Hypothesis Hnull : P JNull.
Hypothesis Hbool : forall b, P (JBool b).
Hypothesis Hnum : forall n, P (JNum n).
Hypothesis Hstr : forall s, P (JStr s).
Hypothesis Harr : forall elems, Forall P elems -> P (JArr elems).
Hypothesis Hobj :
  forall props, Forall (fun kv => P (snd kv)) props -> P (JObj props).

Fixpoint JSValue_nested_ind (v : JSValue) : P v :=
  match v with
  | JNull => Hnull
  | JBool b => Hbool b
  | JNum n => Hnum n
  | JStr s => Hstr s
  | JArr elems =>
      Harr elems
        ((fix all (l : list JSValue) : Forall P l :=
            match l with
            | [] => Forall_nil P
            | x :: r => Forall_cons x (JSValue_nested_ind x) (all r)
            end) elems)
  | JObj props =>
      Hobj props
        ((fix all (l : list (string * JSValue))
            : Forall (fun kv => P (snd kv)) l :=
            match l with
            | [] => Forall_nil _
            | kv :: r =>
                Forall_cons (P := fun kv => P (snd kv)) kv
                  (JSValue_nested_ind (snd kv)) (all r)
            end) props)
  end.

End JSValueInduction.

(** The values inside the model's range: every number is exact in a double
    and every object lists its properties in creation order. *)
Fixpoint jsonSafe (v : JSValue) : bool :=
  match v with
  | JNum n => (Z.abs n <=? JSON.maxExact)%Z
  | JArr elems => forallb jsonSafe elems
  | JObj props =>
      JSON.plainKeys (map fst props)
      && forallb (fun kv => jsonSafe (snd kv)) props
  | _ => true
  end.

(** ** The browser: storage, dialogs, console, deferred callbacks *)

(** [localStorage] as the program sees it: the value under the key
    ["pinkTodoTasks"], and the number of code units the browser will still
    accept for it (the origin quota less what other keys hold). *)
Record Storage : Type := mkStorage {
  slot : option string;
  capacity : nat
}.

(** What [console.log] and [console.error] are called with. *)
Inductive Message : Type :=
| TaskAdded (task : JSValue)
| TaskToggled (taskId : Z) (completed : bool)
| TaskDeleted (taskId : Z)
| ClearedCompleted (count : nat)
| TasksSaved
| TasksLoaded (length : Lookup)
| NoSavedTasks
| TasksImported (length : Lookup)
| SaveFailed (error : JSError)
| LoadFailed (error : JSError)
| ImportFailed (error : JSError).

(** The calls the program makes on the browser, in program order. *)
Inductive Event : Type :=
| Alert (msg : string)
| Confirm (msg : string) (answer : bool)
| SetItem (value : string)
| ConsoleLog (m : Message)
| ConsoleError (m : Message)
| EmptyInputFeedback
| RemovingAnimation (taskId : Z).

(** The module-level variable [tasks], the storage, the callbacks the
    program has handed to [setTimeout] and to a [FileReader] and that have not
    run yet, and the trace of browser calls. *)
Record State : Type := mkState {
  tasks : JSValue;
  localStorage : Storage;
  timers : list Z;
  readers : list string;
  trace : list Event
}.

(** Updates of one field of the state. *)
Definition withTasks (v : JSValue) (st : State) : State :=
  mkState v (localStorage st) (timers st) (readers st) (trace st).

Definition withStorage (s : Storage) (st : State) : State :=
  mkState (tasks st) s (timers st) (readers st) (trace st).

Definition withTimers (t : list Z) (st : State) : State :=
  mkState (tasks st) (localStorage st) t (readers st) (trace st).

Definition withReaders (r : list string) (st : State) : State :=
  mkState (tasks st) (localStorage st) (timers st) r (trace st).

(** The state after one more browser call. *)
Definition logged (e : Event) (st : State) : State :=
  mkState (tasks st) (localStorage st) (timers st) (readers st)
    (trace st ++ [e])%list.

(** A statement sequence: it reads and writes the state and completes
    normally or abruptly. *)
Definition M (A : Type) : Type := State -> Outcome A * State.

(** Normal completion, sequencing, [throw], and a pure computation inside
    a statement sequence. *)
Definition ret {A : Type} (a : A) : M A := fun st => (Ok a, st).

Definition bind {A B : Type} (m : M A) (k : A -> M B) : M B :=
  fun st =>
    match m st with
    | (Ok a, st') => k a st'
    | (Throw e, st') => (Throw e, st')
    | (Unmodelled, st') => (Unmodelled, st')
    end.

Definition throw {A : Type} (e : JSError) : M A := fun st => (Throw e, st).

Definition lift {A : Type} (o : Outcome A) : M A := fun st => (o, st).

(** [try { body } catch (error) { handler }] *)
Definition tryCatch {A : Type} (body : M A) (handler : JSError -> M A) : M A :=
  fun st =>
    match body st with
    | (Throw e, st') => handler e st'
    | r => r
    end.

Declare Scope js_scope.
Delimit Scope js_scope with js.
Notation "x <- c ;; k" := (bind c (fun x => k))
  (at level 60, c at next level, right associativity) : js_scope.
Notation "c ;;; k" := (bind c (fun _ => k))
  (at level 60, right associativity) : js_scope.

(** Reading and assigning the variable [tasks]; one browser call. *)
Definition getTasks : M JSValue := fun st => (Ok (tasks st), st).

Definition setTasks (v : JSValue) : M unit := fun st => (Ok tt, withTasks v st).

Definition emit (e : Event) : M unit := fun st => (Ok tt, logged e st).

(** ** Array methods and property reads *)

(** The receiver of [some], [find], [filter] and [push]: anything but an
    array has no such method. *)
Definition asArray (v : JSValue) : Outcome (list JSValue) :=
  match v with
  | JArr elems => Ok elems
  | _ => Throw TypeError
  end.

#[local] Open Scope outcome_scope.

(** [Array.prototype.some]: the callback runs on the elements in order,
    up to the first that passes; an exception in it ends the call. *)
Fixpoint arraySome (cb : JSValue -> Outcome bool) (l : list JSValue)
  : Outcome bool :=
  match l with
  | [] => Ok false
  | x :: r => b <- cb x ;; if b then Ok true else arraySome cb r
  end.

(** [find] answers the first element that passes; its index stands for the
    identity of the object found. *)
Fixpoint arrayFind (cb : JSValue -> Outcome bool) (i : nat) (l : list JSValue)
  : Outcome (option (nat * JSValue)) :=
  match l with
  | [] => Ok None
  | x :: r => b <- cb x ;; if b then Ok (Some (i, x)) else arrayFind cb (S i) r
  end.

(** [Array.prototype.filter] *)
Fixpoint arrayFilter (cb : JSValue -> Outcome bool) (l : list JSValue)
  : Outcome (list JSValue) :=
  match l with
  | [] => Ok []
  | x :: r =>
      b <- cb x ;; r' <- arrayFilter cb r ;; Ok (if b then x :: r' else r')
  end.

(** The array whose element at index [i] is [v]. *)
Fixpoint updateAt (i : nat) (v : JSValue) (l : list JSValue) : list JSValue :=
  match l, i with
  | [], _ => []
  | _ :: r, O => v :: r
  | x :: r, S i' => x :: updateAt i' v r
  end.

(** [l.toLowerCase()] for the result [l] of a property read. *)
Definition callToLowerCase (l : Lookup) : Outcome string :=
  match l with
  | Some (JStr s) => Ok (toLowerCase s)
  | _ => Throw TypeError
  end.

(** [l === n] for a number [n]. *)
Definition strictEquals (l : Lookup) (n : Z) : bool :=
  match l with
  | Some (JNum m) => (m =? n)%Z
  | _ => false
  end.

(** [v.length] *)
Definition getLength (v : JSValue) : Outcome Lookup :=
  match v with
  | JNull => Throw TypeError
  | JArr elems => Ok (Some (JNum (Z.of_nat (List.length elems))))
  | JStr s => Ok (Some (JNum (Z.of_nat (String.length s))))
  | JObj props => Ok (lookup "length" props)
  | _ => Ok None
  end.

(** ToString of a value of parsed JSON, as a template literal applies it.
    An object converts to a fixed text unless it has an own [toString]
    property, which in parsed JSON is never a function: then neither it nor
    [valueOf] yields a primitive and the conversion throws.  An array
    converts its elements, [null] apart. *)
Fixpoint stringable (v : JSValue) : bool :=
  match v with
  | JArr elems => forallb stringable elems
  | JObj props =>
      match lookup "toString" props with
      | Some _ => false
      | None => true
      end
  | _ => true
  end.

(** The result [l] of a property read inside a template literal: whether
    its conversion completes. *)
Definition interpolate (l : Lookup) : Outcome unit :=
  match l with
  | Some v => if stringable v then Ok tt else Throw TypeError
  | None => Ok tt
  end.

(** [task.completed = b] *)
Definition setCompleted (task : JSValue) (b : bool) : JSValue :=
  match task with
  | JObj props => JObj (assign "completed" (JBool b) props)
  | _ => task
  end.

(** [task.completed] on the object that [find] answered. *)
Definition lookupCompleted (task : JSValue) : Lookup :=
  match task with
  | JObj props => lookup "completed" props
  | _ => None
  end.

#[local] Close Scope outcome_scope.

(** ** script.js *)

(** The view layer is DOM code outside the store.  It reads the page and
    writes neither [tasks] nor the storage; what the store can observe of a
    call to it is whether the call completes. *)
Class View : Type := {
  renderTasks : State -> Outcome unit;
  updateStatistics : State -> Outcome unit
}.

Section Script.

Context {page : View}.

#[local] Open Scope js_scope.

(** A call into the view layer. *)
Definition callView (view : State -> Outcome unit) : M unit :=
  fun st => (view st, st).

(** [localStorage.getItem("pinkTodoTasks")]: [None] is [null]. *)
Definition getItem : M (option string) :=
  fun st => (Ok (slot (localStorage st)), st).

(** [localStorage.setItem("pinkTodoTasks", value)] *)
Definition setItem (value : string) : M unit :=
  fun st =>
    let st' := logged (SetItem value) st in
    if (String.length value <=? capacity (localStorage st))%nat
    then (Ok tt,
          withStorage (mkStorage (Some value) (capacity (localStorage st))) st')
    else (Throw QuotaExceededError, st').

(** [saveTasksToStorage()]: a failed write is caught and reported. *)
Definition saveTasksToStorage : M unit :=
  tryCatch
    (ts <- getTasks ;;
     let tasksJson := JSON.stringify ts in
     setItem tasksJson ;;;
     emit (ConsoleLog TasksSaved))
    (fun error => emit (ConsoleError (SaveFailed error))).

(** [loadTasksFromStorage()]: an empty or absent text counts as no saved
    tasks; any exception of the [try] block (of [JSON.parse], of the read of
    [tasks.length], of its conversion in the template literal) resets
    [tasks] to the empty array. *)
Definition loadTasksFromStorage : M unit :=
  tryCatch
    (tasksJson <- getItem ;;
     match tasksJson with
     | Some (String c s) =>
         parsed <- lift (JSON.parse (String c s)) ;;
         setTasks parsed ;;;
         len <- lift (getLength parsed) ;;
         lift (interpolate len) ;;;
         emit (ConsoleLog (TasksLoaded len))
     | _ => emit (ConsoleLog NoSavedTasks)
     end)
    (fun error =>
       emit (ConsoleError (LoadFailed error)) ;;;
       setTasks (JArr [])).

(** [initializeApp()]: load, then draw.  [setupEventListeners] only
    registers the handlers below with the DOM. *)
Definition initializeApp : M unit :=
  loadTasksFromStorage ;;;
  callView renderTasks ;;;
  callView updateStatistics.

(** [handleAddTask()], with [taskInput.value], [Date.now()] and
    [new Date().toISOString()] as read by this call. *)
Definition handleAddTask (value : string) (now : Z) (createdAt : string)
  : M unit :=
  let taskText := trim value in
  if (taskText =? "")%string then emit EmptyInputFeedback
  else
    ts <- getTasks ;;
    l <- lift (asArray ts) ;;
    isDuplicate <-
      lift (arraySome
              (fun task =>
                 obind (getProp task "text") (fun text =>
                 obind (callToLowerCase text) (fun lowered =>
                 Ok (lowered =? toLowerCase taskText)%string)))
              l) ;;
    if isDuplicate then emit (Alert "This task already exists!")
    else
      let newTask :=
        JObj [("id", JNum now); ("text", JStr taskText);
              ("completed", JBool false); ("createdAt", JStr createdAt)] in
      setTasks (JArr (l ++ [newTask])%list) ;;;
      saveTasksToStorage ;;;
      callView renderTasks ;;;
      callView updateStatistics ;;;
      emit (ConsoleLog (TaskAdded newTask)).

(** [toggleTaskCompletion(taskId)] *)
Definition toggleTaskCompletion (taskId : Z) : M unit :=
  ts <- getTasks ;;
  l <- lift (asArray ts) ;;
  found <-
    lift (arrayFind
            (fun task =>
               obind (getProp task "id") (fun id => Ok (strictEquals id taskId)))
            0 l) ;;
  match found with
  | Some (i, task) =>
      if truthy (Some task) then
        let completed := negb (truthy (lookupCompleted task)) in
        setTasks (JArr (updateAt i (setCompleted task completed) l)) ;;;
        saveTasksToStorage ;;;
        callView renderTasks ;;;
        callView updateStatistics ;;;
        emit (ConsoleLog (TaskToggled taskId completed))
      else ret tt
  | None => ret tt
  end.

(** [deleteTask(taskId)]; [taskElement] tells whether [querySelector] found
    the element of the task.  The removal is left to a timer. *)
Definition deleteTask (taskId : Z) (taskElement : bool) : M unit :=
  if taskElement then
    emit (RemovingAnimation taskId) ;;;
    (fun st => (Ok tt, withTimers (timers st ++ [taskId])%list st))
  else ret tt.

(** The callback that [deleteTask] hands to [setTimeout]. *)
Definition deleteTaskTimeout (taskId : Z) : M unit :=
  ts <- getTasks ;;
  l <- lift (asArray ts) ;;
  kept <-
    lift (arrayFilter
            (fun task =>
               obind (getProp task "id") (fun id =>
               Ok (negb (strictEquals id taskId))))
            l) ;;
  setTasks (JArr kept) ;;;
  saveTasksToStorage ;;;
  callView renderTasks ;;;
  callView updateStatistics ;;;
  emit (ConsoleLog (TaskDeleted taskId)).

(** A count inside a template literal. *)
Definition natToString (n : nat) : string := JSON.numberToString (Z.of_nat n).

(** [handleClearCompleted()]; [confirmed] is the answer to [confirm]. *)
Definition handleClearCompleted (confirmed : bool) : M unit :=
  ts <- getTasks ;;
  l <- lift (asArray ts) ;;
  completedTasks <-
    lift (arrayFilter
            (fun task =>
               obind (getProp task "completed") (fun c => Ok (truthy c)))
            l) ;;
  let completedCount := List.length completedTasks in
  if (completedCount =? 0)%nat then emit (Alert "No completed tasks to clear!")
  else
    emit (Confirm ("Are you sure you want to delete "
                   ++ natToString completedCount ++ " completed task(s)?")
            confirmed) ;;;
    if confirmed then
      kept <-
        lift (arrayFilter
                (fun task =>
                   obind (getProp task "completed") (fun c =>
                   Ok (negb (truthy c))))
                l) ;;
      setTasks (JArr kept) ;;;
      saveTasksToStorage ;;;
      callView renderTasks ;;;
      callView updateStatistics ;;;
      emit (ConsoleLog (ClearedCompleted completedCount))
    else ret tt.

(** [importTasks(file)] starts reading the file, whose text is [text]. *)
Definition importTasks (text : string) : M unit :=
  fun st => (Ok tt, withReaders (readers st ++ [text])%list st).

(** [reader.onload], with [e.target.result] and the answer to [confirm]. *)
Definition readerOnload (result : string) (confirmed : bool) : M unit :=
  tryCatch
    (importedTasks <- lift (JSON.parse result) ;;
     match importedTasks with
     | JArr elems =>
         emit (Confirm ("Import " ++ natToString (List.length elems)
                        ++ " tasks? This will replace your current tasks.")
                 confirmed) ;;;
         if confirmed then
           setTasks importedTasks ;;;
           saveTasksToStorage ;;;
           callView renderTasks ;;;
           callView updateStatistics ;;;
           len <- (ts <- getTasks ;; lift (getLength ts)) ;;
           emit (ConsoleLog (TasksImported len))
         else ret tt
     | _ => throw (GenericError "Invalid file format")
     end)
    (fun error =>
       emit (Alert "Error importing tasks. Please check the file format.") ;;;
       emit (ConsoleError (ImportFailed error))).

(** ** The event loop *)

(** One turn of the event loop: a user gesture or a callback that comes
    due. *)
Inductive Op : Type :=
| Add (value : string) (now : Z) (createdAt : string)
| Toggle (taskId : Z)
| Delete (taskId : Z) (taskElement : bool)
| Timeout
| ClearCompleted (confirmed : bool)
| Import (text : string)
| Loaded (confirmed : bool).

(** A timer or a file read that comes due runs the oldest callback of its
    queue; with an empty queue nothing happens. *)
Definition step (op : Op) : M unit :=
  match op with
  | Add value now createdAt => handleAddTask value now createdAt
  | Toggle taskId => toggleTaskCompletion taskId
  | Delete taskId taskElement => deleteTask taskId taskElement
  | Timeout =>
      fun st =>
        match timers st with
        | taskId :: rest => deleteTaskTimeout taskId (withTimers rest st)
        | [] => (Ok tt, st)
        end
  | ClearCompleted confirmed => handleClearCompleted confirmed
  | Import text => importTasks text
  | Loaded confirmed =>
      fun st =>
        match readers st with
        | text :: rest => readerOnload text confirmed (withReaders rest st)
        | [] => (Ok tt, st)
        end
  end.

(** An exception that leaves a handler ends that turn only. *)
Fixpoint run (ops : list Op) (st : State) : State :=
  match ops with
  | [] => st
  | op :: rest => run rest (snd (step op st))
  end.

End Script.

(** The page before [initializeApp] runs: [let tasks = []]. *)
Definition fresh (storage : Storage) : State :=
  mkState (JArr []) storage [] [] [].

(** ** Task-shaped records and collections *)

(** A record with an [id], a string [text] and a boolean [completed]. *)
Definition isTask (v : JSValue) : bool :=
  match v with
  | JObj props =>
      match lookup "id" props, lookup "text" props, lookup "completed" props with
      | Some _, Some (JStr _), Some (JBool _) => true
      | _, _, _ => false
      end
  | _ => false
  end.

(** An array of such records. *)
Definition isCollection (v : JSValue) : bool :=
  match v with
  | JArr elems => forallb isTask elems
  | _ => false
  end.

(** [task.text], when it is a string. *)
Definition textOf (v : JSValue) : option string :=
  match v with
  | JObj props =>
      match lookup "text" props with
      | Some (JStr s) => Some s
      | _ => None
      end
  | _ => None
  end.

(** [task.id === taskId] *)
Definition hasId (taskId : Z) (v : JSValue) : bool :=
  match v with
  | JObj props => strictEquals (lookup "id" props) taskId
  | _ => false
  end.

(** ToBoolean of [task.completed] *)
Definition isCompleted (v : JSValue) : bool := truthy (lookupCompleted v).

(** [task.id] *)
Definition idOf (v : JSValue) : Lookup :=
  match v with
  | JObj props => lookup "id" props
  | _ => None
  end.

(** The lower-cased [task.text] that [handleAddTask] compares. *)
Definition loweredText (v : JSValue) : option string :=
  option_map toLowerCase (textOf v).

(** No two tasks of the collection have the same [id]. *)
Definition uniqueIds (v : JSValue) : Prop :=
  match v with
  | JArr elems => NoDup (map idOf elems)
  | _ => False
  end.

(** No two tasks of the collection have the same text up to case. *)
Definition uniqueTexts (v : JSValue) : Prop :=
  match v with
  | JArr elems => NoDup (map loweredText elems)
  | _ => False
  end.

(** The record that [handleAddTask] builds. *)
Definition taskRecord (now : Z) (taskText createdAt : string) : JSValue :=
  JObj [("id", JNum now); ("text", JStr taskText);
        ("completed", JBool false); ("createdAt", JStr createdAt)].

(** The empty string and the strings of white space only. *)
Fixpoint allWhiteSpace (s : string) : bool :=
  match s with
  | String c r => isWhiteSpace c && allWhiteSpace r
  | EmptyString => true
  end.

(** ** Vocabulary of the statements *)

(** The storage accepts the serialisation of the current collection. *)
Definition fits (st : State) : bool :=
  (String.length (JSON.stringify (tasks st)) <=? capacity (localStorage st))%nat.

(** What follows every assignment to [tasks]: the write, then the view. *)
Definition persisted (before after : State) : Prop :=
  tasks after = tasks before
  /\ localStorage after = localStorage (snd (saveTasksToStorage before))
  /\ timers after = timers before
  /\ readers after = readers before
  /\ exists post,
       trace after
       = (trace before ++ SetItem (JSON.stringify (tasks before)) :: post)%list.

(** During the turn from [before] to [after] the program called [setItem]
    with the serialisation of the collection it ends with, and the storage is
    what [saveTasksToStorage] makes of that collection. *)
Definition written (before after : State) : Prop :=
  (exists pre post,
      trace after
      = (trace before ++ pre ++ SetItem (JSON.stringify (tasks after)) :: post)%list)
  /\ localStorage after
     = localStorage (snd (saveTasksToStorage (withTasks (tasks after) before))).

(** A turn either leaves [tasks] alone or writes what it leaves there. *)
Definition turn (before after : State) : Prop :=
  tasks after = tasks before \/ written before after.

(** The callbacks of [handleAddTask] and of [toggleTaskCompletion]. *)
Definition sameText (taskText : string) (task : JSValue) : Outcome bool :=
  obind (getProp task "text") (fun text =>
  obind (callToLowerCase text) (fun lowered =>
  Ok (lowered =? toLowerCase taskText)%string)).

Definition idIs (taskId : Z) (task : JSValue) : Outcome bool :=
  obind (getProp task "id") (fun id => Ok (strictEquals id taskId)).

(** The texts of the dialogs. *)
Definition clearPrompt (count : nat) : string :=
  "Are you sure you want to delete " ++ natToString count
  ++ " completed task(s)?".

Definition importPrompt (count : nat) : string :=
  "Import " ++ natToString count
  ++ " tasks? This will replace your current tasks.".

Definition importAlert : string :=
  "Error importing tasks. Please check the file format.".

(** *** Sequences of add, toggle and delete *)

(** The turns of add, toggle and delete. *)
Definition storeOp (op : Op) : bool :=
  match op with
  | Add _ _ _ | Toggle _ | Delete _ _ | Timeout => true
  | ClearCompleted _ | Import _ | Loaded _ => false
  end.

(** How one such turn changes a collection of tasks. *)
Inductive change : Op -> list JSValue -> list JSValue -> Prop :=
| change_none (op : Op) (l : list JSValue) : change op l l
| change_add (value : string) (now : Z) (createdAt : string)
    (l : list JSValue) :
    ~ In (Some (toLowerCase (trim value))) (map loweredText l) ->
    change (Add value now createdAt) l
      (l ++ [taskRecord now (trim value) createdAt])%list
| change_toggle (taskId : Z) (pre : list JSValue) (task : JSValue)
    (post : list JSValue) :
    change (Toggle taskId) (pre ++ task :: post)%list
      (pre ++ setCompleted task (negb (isCompleted task)) :: post)%list
| change_delete (keep : JSValue -> bool) (l : list JSValue) :
    change Timeout l (filter keep l).

(** A collection of task records with pairwise different lower-cased
    texts. *)
Definition distinctTexts (l : list JSValue) : Prop :=
  Forall (fun v => isTask v = true) l /\ NoDup (map loweredText l).

(** Every [Date.now()] read by an add is later than [t] and than the
    readings of the adds before it. *)
Fixpoint clockAdvances (t : Z) (ops : list Op) : Prop :=
  match ops with
  | [] => True
  | Add _ now _ :: rest => (t < now)%Z /\ clockAdvances now rest
  | _ :: rest => clockAdvances t rest
  end.

(** Task records whose ids are numbers up to [t], pairwise different. *)
Definition distinctIds (t : Z) (l : list JSValue) : Prop :=
  Forall (fun v => exists n, idOf v = Some (JNum n) /\ (n <= t)%Z) l
  /\ NoDup (map idOf l).

(** ** The rest of script.js *)

(** *** What the view functions compute from [tasks] *)

(** The callbacks [(task) => task.completed] and [(task) => !task.completed]. *)
Definition whenCompleted (task : JSValue) : Outcome bool :=
  obind (getProp task "completed") (fun c => Ok (truthy c)).

Definition whenPending (task : JSValue) : Outcome bool :=
  obind (getProp task "completed") (fun c => Ok (negb (truthy c))).

(** The [switch] of [renderTasks] on [currentFilter]: the list it goes on
    to draw. *)
Definition filteredTasks (currentFilter : string) (ts : JSValue)
  : Outcome JSValue :=
  if (currentFilter =? "completed")%string then
    obind (asArray ts) (fun l =>
    obind (arrayFilter whenCompleted l) (fun shown => Ok (JArr shown)))
  else if (currentFilter =? "pending")%string then
    obind (asArray ts) (fun l =>
    obind (arrayFilter whenPending l) (fun shown => Ok (JArr shown)))
  else Ok ts.

(** [filteredTasks.length === 0]: whether [renderTasks] shows the empty
    state. *)
Definition emptyStateShown (currentFilter : string) (ts : JSValue)
  : Outcome bool :=
  obind (filteredTasks currentFilter ts) (fun shown =>
  obind (getLength shown) (fun len => Ok (strictEquals len 0))).

(** The three numbers of [updateStatistics]. *)
Record Statistics : Type := mkStatistics {
  total : Z;
  completed : Z;
  pending : Z
}.

(** [updateStatistics()] up to its first call of [animateNumber]. *)
Definition statistics (ts : JSValue) : Outcome Statistics :=
  obind (getLength ts) (fun len =>
  obind (asArray ts) (fun l =>
  obind (arrayFilter whenCompleted l) (fun done =>
  match len with
  | Some (JNum n) =>
      let c := Z.of_nat (List.length done) in
      Ok (mkStatistics n c (n - c))
  | _ => Unmodelled
  end))).

(** [hasCompletedTasks] of [updateClearButtonVisibility]: the button is
    displayed when it is true. *)
Definition hasCompletedTasks (ts : JSValue) : Outcome bool :=
  obind (asArray ts) (fun l => arraySome whenCompleted l).

(** *** animateNumber *)

(** The interval that [animateNumber] starts: the closure variables
    [current], [increment] and [targetNumber], the text of the element, and
    whether [clearInterval] has been called. *)
Record Animation : Type := mkAnimation {
  current : Z;
  increment : Z;
  targetNumber : Z;
  textContent : Z;
  cleared : bool
}.

(** [animateNumber(element, targetNumber)] with [currentNumber] the number
    read off the element ([parseInt(element.textContent) || 0]): no interval
    when there is no step to take. *)
Definition animateNumber (currentNumber target : Z) : option Animation :=
  let inc := if (target >? currentNumber)%Z then 1%Z else (-1)%Z in
  let steps := Z.abs (target - currentNumber) in
  if (steps =? 0)%Z then None
  else Some (mkAnimation currentNumber inc target currentNumber false).

(** One run of the interval callback; a cleared interval does not run. *)
Definition animationTick (a : Animation) : Animation :=
  if cleared a then a
  else
    let c := (current a + increment a)%Z in
    mkAnimation c (increment a) (targetNumber a) c (c =? targetNumber a)%Z.

Fixpoint animationTicks (n : nat) (a : Animation) : Animation :=
  match n with
  | O => a
  | S n' => animationTicks n' (animationTick a)
  end.

(** *** JSON.stringify with an indentation of two spaces *)

Module JSONIndent.

Definition newline : ascii := "010"%char.

Definition gap : string := "  ".

(** [JSON.stringify(v, null, 2)] below the indentation [indent]. *)
Fixpoint stringify (indent : string) (v : JSValue) : string :=
  match v with
  | JArr [] => "[]"
  | JArr elems =>
      let inner := indent ++ gap in
      "[" ++ String newline inner
      ++ String.concat ("," ++ String newline inner)
           (map (stringify inner) elems)
      ++ String newline indent ++ "]"
  | JObj [] => "{}"
  | JObj props =>
      let inner := indent ++ gap in
      "{" ++ String newline inner
      ++ String.concat ("," ++ String newline inner)
           (map (fun kv => JSON.quote (fst kv) ++ ": " ++ stringify inner (snd kv))
              props)
      ++ String newline indent ++ "}"
  | _ => JSON.stringify v
  end.

(** A run of JSON white space. *)
Fixpoint blank (s : string) : bool :=
  match s with
  | String c r => JSON.isJSONSpace c && blank r
  | EmptyString => true
  end.

(** The value parser [pv] reads back the indented serialisation of [v],
    whatever white space precedes it. *)
Definition readsBack (pv : string -> Outcome (JSValue * string))
  (inner : string) (v : JSValue) : Prop :=
  forall ws rest,
    blank ws = true -> JSON.endsNumber rest = true ->
    pv (ws ++ stringify inner v ++ rest) = Ok (v, rest).

(** One member of an indented object. *)
Definition member (inner : string) (kv : string * JSValue) : string :=
  JSON.quote (fst kv) ++ ": " ++ stringify inner (snd kv).

End JSONIndent.

(** [dataStr] of [exportTasks]: the text of the file it offers for
    download. *)
Definition exportTasks (st : State) : string :=
  JSONIndent.stringify "" (tasks st).

Section ScriptRest.

Context {page : View}.

#[local] Open Scope js_scope.

(** [getTaskById(id)]: [None] is [undefined]. *)
Definition getTaskById (id : Z) : M Lookup :=
  ts <- getTasks ;;
  l <- lift (asArray ts) ;;
  found <-
    lift (arrayFind
            (fun task =>
               obind (getProp task "id") (fun i => Ok (strictEquals i id)))
            0 l) ;;
  ret (option_map snd found).

(** The calls [renderTasks(); updateStatistics();] that follow a write, in
    the state [st]. *)
Definition draw (st : State) : Outcome unit :=
  obind (renderTasks st) (fun _ => updateStatistics st).

(** [localStorage.removeItem("pinkTodoTasks")] *)
Definition removeItem : M unit :=
  fun st =>
    (Ok tt, withStorage (mkStorage None (capacity (localStorage st))) st).

(** [clearAllData()]; [confirmed] is the answer to [confirm].  Its prompt
    and its log line hold symbols outside the strings of the model and are
    not traced. *)
Definition clearAllData (confirmed : bool) : M unit :=
  if confirmed then
    removeItem ;;;
    setTasks (JArr []) ;;;
    callView renderTasks ;;;
    callView updateStatistics
  else ret tt.

End ScriptRest.

(** *** Vocabulary of the further statements *)

(** Either the turn left [tasks] and the storage alone, or it assigned an
    array to [tasks] and wrote it. *)
Definition effect (before after : State) : Prop :=
  (tasks after = tasks before /\ localStorage after = localStorage before)
  \/ (exists l, tasks after = JArr l /\ written before after).

(** A load in a fresh page over the storage of [st] yields the collection
    that [st] holds. *)
Definition reloads (st : State) : Prop :=
  tasks (snd (loadTasksFromStorage (fresh (localStorage st)))) = tasks st.

(** The view layer of the page throws whenever it is called; which
    exception it throws may depend on the state. *)
Definition viewThrows (page : View) : Prop :=
  forall st, exists e, draw st = Throw e.

(** The result [r] of a handler started in [st]: it left [tasks] as it was,
    or it threw what the view throws in the state it left. *)
Definition unchangedOrThrows {page : View} (st : State)
  (r : Outcome unit * State) : Prop :=
  tasks (snd r) = tasks st
  \/ exists e, fst r = Throw e /\ draw (snd r) = Throw e.

(** Every [Date.now()] read by an add is exact in a double. *)
Fixpoint exactClock (ops : list Op) : Prop :=
  match ops with
  | [] => True
  | Add _ now _ :: rest => (Z.abs now <= JSON.maxExact)%Z /\ exactClock rest
  | _ :: rest => exactClock rest
  end.

(** The first and the last code unit of a string. *)
Definition firstChar (s : string) : option ascii :=
  match s with
  | String c _ => Some c
  | EmptyString => None
  end.

Fixpoint lastChar (s : string) : option ascii :=
  match s with
  | EmptyString => None
  | String c EmptyString => Some c
  | String _ r => lastChar r
  end.

(** A text that neither starts nor ends with white space. *)
Definition trimmed (s : string) : Prop :=
  (forall c, firstChar s = Some c -> isWhiteSpace c = false)
  /\ (forall c, lastChar s = Some c -> isWhiteSpace c = false).

(** ** Pages used as examples *)

(** A view layer that completes normally. *)
Definition quietView : View :=
  {| renderTasks := fun _ => Ok tt; updateStatistics := fun _ => Ok tt |}.

(** An example of a view layer that throws: [renderTasks] completes and
    [updateStatistics] throws a ReferenceError in every state.  The
    [updateStatistics] of script.js refers to [completedTask], which the
    script does not declare, so on a collection of task records its view
    behaves like this one; on a value of [tasks] that is not an array or
    holds [null] the view of script.js throws a TypeError, which this
    example does not show. *)
Definition staleView : View :=
  {| renderTasks := fun _ => Ok tt;
     updateStatistics := fun _ => Throw ReferenceError |}.

(** A pending and a completed task. *)
Definition milk : JSValue :=
  taskRecord 1 "Buy milk" "2024-01-01T09:00:00.000Z".

Definition report : JSValue :=
  JObj [("id", JNum 2); ("text", JStr "Write report");
        ("completed", JBool true);
        ("createdAt", JStr "2024-01-01T09:05:00.000Z")].

(** A page that holds two tasks, the second one completed, over an empty
    storage with room for 4096 code units. *)
Definition twoTasks : State :=
  withTasks (JArr [milk; report]) (fresh (mkStorage None 4096)).

(** The same page over a storage that holds an older, empty collection and
    has room for 8 code units only. *)
Definition fullStorage : State :=
  withTasks (JArr [milk; report]) (fresh (mkStorage (Some "[]") 8)).

(** Two tasks added within one millisecond: they share the id. *)
Definition sameMillisecond : State :=
  withTasks
    (JArr [taskRecord 7 "Write report" "2024-01-01T09:00:00.007Z";
           taskRecord 7 "Call dentist" "2024-01-01T09:00:00.007Z"])
    (fresh (mkStorage None 4096)).

(** A page whose load found the text [5] in the storage. *)
Definition storedFive : State :=
  withTasks (JNum 5) (fresh (mkStorage (Some "5") 4096)).

(** Pages after a confirmed import of [[{"id":1,...},null]] and of
    [[{}]]. *)
Definition importedNull : State :=
  withTasks (JArr [milk; JNull]) (fresh (mkStorage None 4096)).

Definition importedBare : State :=
  withTasks (JArr [JObj []]) (fresh (mkStorage None 4096)).

(** * Part II: proofs *)

(** ** Facts about the runtime model *)

Lemma append_assoc (a b c : string) : (a ++ b) ++ c = a ++ (b ++ c).
Proof. induction a as [|x a IH]; simpl; [reflexivity | now rewrite IH]. Qed.

Lemma append_empty_r (a : string) : a ++ "" = a.
Proof. induction a as [|x a IH]; simpl; [reflexivity | now rewrite IH]. Qed.

Lemma length_append (a b : string) :
  String.length (a ++ b) = String.length a + String.length b.
Proof. induction a as [|x a IH]; simpl; [reflexivity | now rewrite IH]. Qed.

Module JSONFacts.

Import JSON.
#[local] Open Scope outcome_scope.

(** Reading back one escaped code unit. *)
Lemma parseChars_escapeChar (strict : bool) (c : ascii) (t : string) :
  parseChars strict (escapeChar c ++ t) = consChar c (parseChars strict t).
Proof.
  destruct c as [[] [] [] [] [] [] [] []]; reflexivity.
Qed.

Lemma parseChars_escape (strict : bool) (s rest : string) :
  parseChars strict (escape s ++ String dquote rest) = Ok (s, rest).
Proof.
  induction s as [|c s IH]; simpl.
  - reflexivity.
  - rewrite append_assoc, parseChars_escapeChar, IH. reflexivity.
Qed.

Lemma quote_append (s rest : string) :
  quote s ++ rest = String dquote (escape s ++ String dquote rest).
Proof.
  unfold quote. simpl. now rewrite append_assoc.
Qed.

Lemma takeDigits_stop (rest : string) :
  endsDigits rest = true -> takeDigits rest = (Nil, rest).
Proof.
  destruct rest as [|c r]; simpl; [reflexivity|].
  intros H. apply negb_true_iff in H. now rewrite H.
Qed.

Lemma takeDigits_string_of_uint (u : uint) (rest : string) :
  endsDigits rest = true ->
  takeDigits (NilEmpty.string_of_uint u ++ rest) = (u, rest).
Proof.
  intros H. induction u; simpl;
    try (rewrite IHu; reflexivity).
  now apply takeDigits_stop.
Qed.

Lemma to_uint_normal (p : positive) :
  leadingZero (Pos.to_uint p) = false /\ Pos.to_uint p <> Nil.
Proof.
  split; [|apply DecimalPos.Unsigned.to_uint_nonnil].
  assert (Hn : unorm (Pos.to_uint p) = Pos.to_uint p).
  { rewrite <- DecimalPos.Unsigned.to_of, DecimalPos.Unsigned.of_to.
    reflexivity. }
  destruct (Pos.to_uint p) as [|d| | | | | | | | | ]; try reflexivity.
  rewrite unorm_D0 in Hn.
  destruct (uint_eq_dec (nzhead d) Nil) as [Hz|Hz].
  - apply unorm_0 in Hz. rewrite Hz in Hn. injection Hn as <-. reflexivity.
  - rewrite (unorm_nzhead _ Hz) in Hn. exfalso. exact (nzhead_nonzero _ _ Hn).
Qed.

Lemma string_of_uint_head (u : uint) :
  u <> Nil ->
  exists c t, NilEmpty.string_of_uint u = String c t /\ isDigit c = true.
Proof.
  destruct u; intros H; try congruence; simpl; eauto.
Qed.

Lemma skipFraction_none (rest : string) :
  startsFraction rest = false ->
  skipFraction rest = Ok (false, rest) /\ skipExponent rest = Ok (false, rest).
Proof.
  unfold startsFraction, skipFraction, skipExponent.
  destruct rest as [|c r]; [auto|].
  intros H. apply orb_false_iff in H as [H He'].
  apply orb_false_iff in H as [Hp He]. now rewrite Hp, He, He'.
Qed.

Lemma parseNumber_unsigned (strict : bool) (u : uint) (rest : string) :
  u <> Nil -> leadingZero u = false -> endsNumber rest = true ->
  (Z.of_uint u <=? maxExact)%Z = true ->
  parseNumber strict (NilEmpty.string_of_uint u ++ rest)
  = Ok (JNum (Z.of_uint u), rest).
Proof.
  intros Hnil Hlz Hend Hmax.
  apply andb_true_iff in Hend as [Hd Hf]. apply negb_true_iff in Hf.
  destruct (string_of_uint_head u Hnil) as (c & t & Hs & Hc).
  unfold parseNumber.
  assert (Hminus : (c =? "-")%char = false).
  { destruct c as [[] [] [] [] [] [] [] []]; try discriminate Hc; reflexivity. }
  assert (Hsign :
    match NilEmpty.string_of_uint u ++ rest with
    | String c' r => if (c' =? "-")%char then (true, r)
                     else (false, NilEmpty.string_of_uint u ++ rest)
    | EmptyString => (false, NilEmpty.string_of_uint u ++ rest)
    end = (false, NilEmpty.string_of_uint u ++ rest)).
  { rewrite Hs at 1. simpl. now rewrite Hminus. }
  rewrite Hsign.
  rewrite (takeDigits_string_of_uint u rest Hd).
  destruct (skipFraction_none rest Hf) as [Hfr Hex].
  rewrite Hlz, Hfr. simpl. rewrite Hex. simpl. rewrite Hmax.
  destruct u; congruence.
Qed.

Lemma parseNumber_negative (strict : bool) (u : uint) (rest : string) :
  u <> Nil -> leadingZero u = false -> endsNumber rest = true ->
  (Z.of_uint u <=? maxExact)%Z = true ->
  parseNumber strict (String "-" (NilEmpty.string_of_uint u ++ rest))
  = Ok (JNum (- Z.of_uint u), rest).
Proof.
  intros Hnil Hlz Hend Hmax.
  apply andb_true_iff in Hend as [Hd Hf]. apply negb_true_iff in Hf.
  unfold parseNumber. simpl.
  rewrite (takeDigits_string_of_uint u rest Hd).
  destruct (skipFraction_none rest Hf) as [Hfr Hex].
  rewrite Hlz, Hfr. simpl. rewrite Hex. simpl. rewrite Hmax.
  destruct u; congruence.
Qed.

Lemma parseNumber_numberToString (strict : bool) (n : Z) (rest : string) :
  (Z.abs n <=? maxExact)%Z = true -> endsNumber rest = true ->
  parseNumber strict (numberToString n ++ rest) = Ok (JNum n, rest).
Proof.
  intros Hmax Hend. unfold numberToString.
  destruct n as [|p|p]; simpl Z.to_int.
  - apply (parseNumber_unsigned strict (D0 Nil) rest); try reflexivity;
      try easy.
  - destruct (to_uint_normal p) as [Hlz Hnil].
    assert (Hv : Z.of_uint (Pos.to_uint p) = Z.pos p).
    { unfold Z.of_uint. now rewrite DecimalPos.Unsigned.of_to. }
    simpl NilEmpty.string_of_int.
    rewrite (parseNumber_unsigned strict _ rest Hnil Hlz Hend); rewrite Hv;
      easy.
  - destruct (to_uint_normal p) as [Hlz Hnil].
    assert (Hv : Z.of_uint (Pos.to_uint p) = Z.pos p).
    { unfold Z.of_uint. now rewrite DecimalPos.Unsigned.of_to. }
    simpl NilEmpty.string_of_int. simpl append.
    rewrite (parseNumber_negative strict _ rest Hnil Hlz Hend); rewrite Hv;
      easy.
Qed.

Lemma parseValue_number (strict : bool) (fuel : nat) (c : ascii)
  (t : string) :
  c = "-"%char \/ isDigit c = true ->
  parseValue strict (S fuel) (String c t) = parseNumber strict (String c t).
Proof.
  intros [->|Hc]; [reflexivity|].
  destruct c as [[] [] [] [] [] [] [] []]; try discriminate Hc; reflexivity.
Qed.

Lemma numberToString_head (n : Z) :
  exists c t, numberToString n = String c t
              /\ (c = "-"%char \/ isDigit c = true).
Proof.
  unfold numberToString. destruct n as [|p|p]; simpl.
  - eauto.
  - destruct (string_of_uint_head (Pos.to_uint p)) as (c & t & -> & Hc);
      [apply DecimalPos.Unsigned.to_uint_nonnil | eauto].
  - eauto.
Qed.

Lemma stringify_opens (v : JSValue) (rest : string) :
  opensValue (stringify v ++ rest).
Proof.
  unfold opensValue. destruct v as [|[]|n|s|l|m]; simpl; eauto 6.
  destruct (numberToString_head n) as (c & t & -> & [->|Hc]); simpl; eauto 6.
  exists c, (t ++ rest). repeat split;
    destruct c as [[] [] [] [] [] [] [] []]; try discriminate Hc; reflexivity.
Qed.

Lemma stringify_length (v : JSValue) : 1 <= String.length (stringify v).
Proof.
  destruct (stringify_opens v "") as (c & t & H & _).
  rewrite append_empty_r in H. rewrite H. simpl. lia.
Qed.

Lemma concat_cons2 (sep a b : string) (l : list string) :
  String.concat sep (a :: b :: l) = a ++ sep ++ String.concat sep (b :: l).
Proof. reflexivity. Qed.

Lemma concat_length_count (l : list JSValue) :
  length l <= String.length (String.concat "," (map stringify l)).
Proof.
  induction l as [|x [|y l] IH]; simpl map in *; [simpl; lia| |].
  - simpl. pose proof (stringify_length x). lia.
  - rewrite concat_cons2, !length_append.
    pose proof (stringify_length x). simpl length in *. lia.
Qed.

Lemma concat_length_elem {A : Type} (f : A -> string) (l : list A) :
  Forall (fun x => String.length (f x)
                   <= String.length (String.concat "," (map f l))) l.
Proof.
  induction l as [|x [|y l] IH]; simpl map in *; constructor.
  - simpl. lia.
  - constructor.
  - rewrite concat_cons2, length_append. lia.
  - rewrite concat_cons2, !length_append.
    eapply Forall_impl; [|exact IH]. simpl. intros; lia.
Qed.

Lemma skipSpace_opens (s : string) : opensValue s -> skipSpace s = s.
Proof. intros (c & t & -> & Hc & _). simpl. now rewrite Hc. Qed.

Lemma parseElements_stringify pv (l : list JSValue) :
  Forall (readsBack pv) l -> l <> [] ->
  forall n rest, length l <= n ->
  parseElements pv n (String.concat "," (map stringify l) ++ String "]" rest)
  = Ok (l, rest).
Proof.
  induction 1 as [|x l Hx Hl IH]; [congruence|]. intros _ n rest Hn.
  destruct n as [|n]; [simpl in Hn; lia|].
  destruct l as [|y l'].
  - simpl. rewrite Hx by reflexivity. reflexivity.
  - simpl map. rewrite concat_cons2, append_assoc.
    simpl parseElements. rewrite Hx by reflexivity.
    simpl. simpl map in IH. rewrite IH; [reflexivity|congruence|].
    simpl in Hn |- *. lia.
Qed.

Lemma parseMembers_stringify (strict : bool) pv
  (m : list (string * JSValue)) :
  Forall (fun kv => readsBack pv (snd kv)) m -> m <> [] ->
  forall n rest, length m <= n ->
  parseMembers strict pv n
    (String.concat "," (map member m) ++ String "}" rest)
  = Ok (m, rest).
Proof.
  induction 1 as [|[k v] m Hx Hl IH]; [congruence|]. intros _ n rest Hn.
  destruct n as [|n]; [simpl in Hn; lia|].
  simpl in Hx.
  destruct m as [|y m'].
  - simpl map. simpl String.concat. unfold member. simpl fst. simpl snd.
    rewrite !append_assoc, quote_append.
    simpl. rewrite parseChars_escape. simpl.
    rewrite Hx by reflexivity. reflexivity.
  - simpl map. rewrite concat_cons2. unfold member at 1. simpl fst. simpl snd.
    rewrite !append_assoc, quote_append.
    simpl parseMembers. rewrite parseChars_escape. simpl.
    rewrite Hx by reflexivity. simpl.
    simpl map in IH. rewrite IH; [reflexivity|congruence|].
    simpl in Hn |- *. lia.
Qed.

Lemma stringify_members (props : list (string * JSValue)) :
  map (fun kv => quote (fst kv) ++ ":" ++ stringify (snd kv)) props
  = map member props.
Proof. reflexivity. Qed.

Lemma concat_members_count (m : list (string * JSValue)) :
  length m <= String.length (String.concat "," (map member m)).
Proof.
  assert (Hm : forall kv, 1 <= String.length (member kv)).
  { intros kv. unfold member, quote. simpl. lia. }
  induction m as [|x [|y m] IH]; simpl map in *; [simpl; lia| |].
  - simpl. apply Hm.
  - rewrite concat_cons2, !length_append.
    pose proof (Hm x). simpl length in *. lia.
Qed.

(** [parseValue] reads back what [stringify] wrote, whatever follows it. *)
Lemma parseValue_stringify (strict : bool) (v : JSValue) :
  jsonSafe v = true ->
  forall fuel rest,
    String.length (stringify v) <= fuel -> endsNumber rest = true ->
    parseValue strict fuel (stringify v ++ rest) = Ok (v, rest).
Proof.
  induction v as [|b|n|s|l IH|m IH] using JSValue_nested_ind;
    intros Hsafe fuel rest Hfuel Hend;
    (destruct fuel as [|fuel];
     [match type of Hfuel with
      | String.length (stringify ?w) <= 0 =>
          pose proof (stringify_length w); lia
      end|]).
  - reflexivity.
  - destruct b; reflexivity.
  - simpl stringify.
    destruct (numberToString_head n) as (c & t & Hs & Hc).
    rewrite Hs. simpl append. rewrite parseValue_number by exact Hc.
    change (String c (t ++ rest)) with (String c t ++ rest). rewrite <- Hs.
    apply parseNumber_numberToString; assumption.
  - simpl stringify. rewrite quote_append. simpl.
    rewrite parseChars_escape. reflexivity.
  - destruct l as [|x l']; [reflexivity|].
    remember (x :: l') as l eqn:El.
    assert (Hne : l <> []) by (subst l; congruence).
    change (stringify (JArr l))
      with ("[" ++ String.concat "," (map stringify l) ++ "]") in Hfuel |- *.
    simpl append. rewrite append_assoc. simpl append.
    assert (Hopen : opensValue
              (String.concat "," (map stringify l) ++ String "]" rest)).
    { subst l. destruct l' as [|y l'']; simpl map.
      - apply stringify_opens.
      - rewrite concat_cons2, append_assoc. apply stringify_opens. }
    pose proof (concat_length_count l) as Hcount.
    pose proof (concat_length_elem stringify l) as Helem.
    simpl String.length in Hfuel.
    rewrite length_append in Hfuel. simpl String.length in Hfuel.
    assert (Hread : Forall (readsBack (parseValue strict fuel)) l).
    { simpl in Hsafe. rewrite forallb_forall in Hsafe.
      rewrite Forall_forall in IH, Helem |- *.
      intros y Hy rest' Hrest'. apply IH; auto.
      specialize (Helem y Hy). lia. }
    remember (String.concat "," (map stringify l) ++ String "]" rest) as r eqn:Er.
    simpl parseValue. rewrite (skipSpace_opens r Hopen).
    destruct Hopen as (c & t & Hr & _ & Hc).
    rewrite Hr at 1. rewrite Hc. subst r.
    rewrite parseElements_stringify; auto.
    rewrite length_append. lia.
  - destruct m as [|x m']; [reflexivity|].
    remember (x :: m') as m eqn:Em.
    assert (Hne : m <> []) by (subst m; congruence).
    change (stringify (JObj m))
      with ("{" ++ String.concat "," (map member m) ++ "}") in Hfuel |- *.
    simpl append. rewrite append_assoc. simpl append.
    assert (Hopen : exists t,
              String.concat "," (map member m) ++ String "}" rest
              = String dquote t).
    { subst m. destruct m' as [|y m'']; simpl map.
      - simpl String.concat. unfold member. rewrite !append_assoc, quote_append.
        eauto.
      - rewrite concat_cons2. unfold member at 1.
        rewrite !append_assoc, quote_append. eauto. }
    pose proof (concat_members_count m) as Hcount.
    pose proof (concat_length_elem member m) as Helem.
    simpl String.length in Hfuel.
    rewrite length_append in Hfuel. simpl String.length in Hfuel.
    simpl in Hsafe. apply andb_true_iff in Hsafe as [Hkeys Hsafe].
    assert (Hread : Forall (fun kv => readsBack (parseValue strict fuel)
                                        (snd kv)) m).
    { rewrite forallb_forall in Hsafe.
      rewrite Forall_forall in IH, Helem |- *.
      intros y Hy rest' Hrest'. apply IH; auto.
      specialize (Helem y Hy). cbv beta in Helem.
      change (member y) with (quote (fst y) ++ ":" ++ stringify (snd y)) in Helem.
      rewrite !length_append in Helem. lia. }
    remember (String.concat "," (map member m) ++ String "}" rest) as r eqn:Er.
    simpl parseValue.
    destruct Hopen as (t & Hr).
    assert (Hskip : skipSpace r = r) by (rewrite Hr; reflexivity).
    rewrite Hskip. rewrite Hr at 1. simpl. subst r.
    rewrite parseMembers_stringify; auto.
    + simpl. now rewrite Hkeys.
    + rewrite length_append. lia.
Qed.

Lemma parseText_stringify (strict : bool) (v : JSValue) :
  jsonSafe v = true -> parseText strict (stringify v) = Ok v.
Proof.
  intros Hsafe. unfold parseText.
  rewrite <- (append_empty_r (stringify v)) at 2.
  rewrite parseValue_stringify by (auto; reflexivity).
  reflexivity.
Qed.

(** [JSON.parse (JSON.stringify v)] is [v] on the values of the model. *)
Lemma parse_stringify (v : JSValue) :
  jsonSafe v = true -> parse (stringify v) = Ok v.
Proof.
  intros Hsafe. unfold parse. now rewrite !parseText_stringify.
Qed.

(** *** The grammar check always answers *)

Lemma answers_throw {A : Type} (strict : bool) (len : nat) (e : JSError) :
  answers (A := A) strict len (Throw e).
Proof. split; intros; discriminate. Qed.

Lemma answers_ok {A : Type} (strict : bool) (len : nat) (a : A) (r : string) :
  String.length r < len -> answers strict len (Ok (a, r)).
Proof. intros H. split; [discriminate|]. now intros a' r' [= _ <-]. Qed.

Lemma answers_longer {A : Type} (strict : bool) (len len' : nat)
  (o : Outcome (A * string)) :
  answers strict len o -> len <= len' -> answers strict len' o.
Proof.
  intros [Hu Hs] Hle. split; [exact Hu|].
  intros a r H. specialize (Hs a r H). lia.
Qed.

Lemma answers_bind {A B : Type} (strict : bool) (len len' : nat)
  (o : Outcome (A * string)) (k : A * string -> Outcome (B * string)) :
  answers strict len o ->
  (forall a r, String.length r < len -> answers strict len' (k (a, r))) ->
  answers strict len' (obind o k).
Proof.
  intros [Hu Hs] Hk. destruct o as [[a r]|e|]; simpl.
  - apply Hk. now apply (Hs a r).
  - apply answers_throw.
  - split; [|discriminate]. intros Hb. now destruct (Hu Hb).
Qed.

Lemma answers_consChar (strict : bool) (len : nat) (c : ascii)
  (o : Outcome (string * string)) :
  answers strict len o -> answers strict len (consChar c o).
Proof.
  intros H. unfold consChar. apply (answers_bind strict len len o); [exact H|].
  intros a r Hr. now apply answers_ok.
Qed.

Lemma skipSpace_length (s : string) :
  String.length (skipSpace s) <= String.length s.
Proof.
  induction s as [|c s IH]; simpl; [lia|].
  destruct (isJSONSpace c); simpl; lia.
Qed.

Lemma skipSpace_tail (s : string) (c : ascii) (r : string) :
  skipSpace s = String c r -> String.length r < String.length s.
Proof.
  intros H. pose proof (skipSpace_length s) as Hl. rewrite H in Hl.
  simpl in Hl. lia.
Qed.

Lemma stripPrefix_length (p s s' : string) :
  stripPrefix p s = Some s' -> String.length s' <= String.length s.
Proof.
  revert s. induction p as [|a p IH]; intros s; simpl.
  - now intros [= ->].
  - destruct s as [|b s]; [discriminate|].
    destruct (a =? b)%char; [|discriminate].
    intros H. apply IH in H. simpl. lia.
Qed.

Lemma literal_answers (strict : bool) (rest : string) (v : JSValue)
  (s : string) :
  answers strict (S (String.length s)) (literal rest v s).
Proof.
  unfold literal. destruct (stripPrefix rest s) as [s'|] eqn:E.
  - apply answers_ok. apply stripPrefix_length in E. lia.
  - apply answers_throw.
Qed.

Lemma parseChars_answers (strict : bool) (n : nat) :
  forall s, String.length s <= n ->
            answers strict (String.length s) (parseChars strict s).
Proof.
  induction n as [|n IH]; intros s Hn.
  - destruct s; [apply answers_throw|simpl in Hn; lia].
  - destruct s as [|c r]; [apply answers_throw|].
    simpl in Hn. cbn [parseChars].
    destruct (c =? dquote)%char; [apply answers_ok; simpl; lia|].
    destruct (c =? backslash)%char.
    + destruct r as [|e r1]; [apply answers_throw|].
      simpl in Hn.
      assert (H1 : forall x, answers strict (String.length (String c (String e r1)))
                               (consChar x (parseChars strict r1))).
      { intros x. apply answers_consChar.
        apply (answers_longer strict (String.length r1)); [apply IH; lia|].
        simpl. lia. }
      repeat match goal with
             | |- answers _ _ (if ?b then consChar _ (parseChars _ r1) else _) =>
                 destruct b; [apply H1|]
             end.
      destruct (e =? "u")%char; [|apply answers_throw].
      destruct r1 as [|h1 [|h2 [|h3 [|h4 r2]]]]; try apply answers_throw.
      simpl in Hn.
      assert (H2 : forall x,
                 answers strict
                   (String.length
                      (String c (String e (String h1 (String h2
                         (String h3 (String h4 r2)))))))
                   (consChar x (parseChars strict r2))).
      { intros x. apply answers_consChar.
        apply (answers_longer strict (String.length r2)); [apply IH; lia|].
        simpl. lia. }
      destruct (hexValue h1), (hexValue h2), (hexValue h3), (hexValue h4);
        try apply answers_throw.
      destruct ((_ =? 0) && (_ =? 0))%nat; [apply H2|].
      destruct strict; [|apply H2].
      split; [discriminate|discriminate].
    + destruct (code c <? 32)%nat; [apply answers_throw|].
      apply answers_consChar.
      apply (answers_longer strict (String.length r)); [apply IH; lia|].
      simpl. lia.
Qed.

Lemma takeDigits_length (s : string) :
  String.length (snd (takeDigits s)) <= String.length s
  /\ (fst (takeDigits s) <> Nil ->
      String.length (snd (takeDigits s)) < String.length s).
Proof.
  induction s as [|c s [IH1 IH2]]; simpl; [split; [lia|congruence]|].
  destruct (isDigit c); [|simpl; split; [lia|congruence]].
  destruct (takeDigits s) as [d r]. simpl in *. split; lia.
Qed.

Lemma skipFraction_answers (s : string) :
  answers false (S (String.length s)) (skipFraction s).
Proof.
  unfold skipFraction. destruct s as [|c r]; [apply answers_ok; simpl; lia|].
  destruct (c =? ".")%char; [|apply answers_ok; simpl; lia].
  pose proof (takeDigits_length r) as [Hl _].
  destruct (takeDigits r) as [d r']. simpl in Hl.
  destruct d; try apply answers_throw; apply answers_ok; simpl; lia.
Qed.

Lemma skipExponent_answers (s : string) :
  answers false (S (String.length s)) (skipExponent s).
Proof.
  unfold skipExponent. destruct s as [|c r]; [apply answers_ok; simpl; lia|].
  destruct ((c =? "e") || (c =? "E"))%char; [|apply answers_ok; simpl; lia].
  assert (Hsign : String.length (skipSign r) <= String.length r).
  { unfold skipSign. destruct r as [|c' r']; [lia|].
    destruct ((c' =? "+") || (c' =? "-"))%char; simpl; lia. }
  pose proof (takeDigits_length (skipSign r)) as [Hl _].
  destruct (takeDigits (skipSign r)) as [d r']. simpl in Hl.
  destruct d; try apply answers_throw; apply answers_ok; simpl; lia.
Qed.

Lemma parseNumber_answers (strict : bool) (s : string) :
  answers strict (String.length s) (parseNumber strict s).
Proof.
  unfold parseNumber.
  set (signed := match s with
                 | String c r => if (c =? "-")%char then (true, r) else (false, s)
                 | EmptyString => (false, s)
                 end).
  assert (Hs : String.length (snd signed) <= String.length s).
  { subst signed. destruct s as [|c r]; simpl; [lia|].
    destruct (c =? "-")%char; simpl; lia. }
  destruct signed as [negative s1]. simpl in Hs.
  pose proof (takeDigits_length s1) as [_ Hd].
  destruct (takeDigits s1) as [d r]. simpl in Hd.
  assert (Hgo : d <> Nil ->
                answers strict (String.length s)
                  (if leadingZero d then Throw SyntaxError
                   else
                     obind (skipFraction r) (fun x =>
                     match x with
                     | (fraction, r1) =>
                         obind (skipExponent r1) (fun y =>
                         match y with
                         | (exponent, r2) =>
                             let n := Z.of_uint d in
                             if negb (fraction || exponent)
                                && (n <=? maxExact)%Z
                             then Ok (JNum (if negative then - n else n)%Z, r2)
                             else if strict then Unmodelled
                             else Ok (JNum 0, r2)
                         end)
                     end))).
  { intros Hnil. specialize (Hd Hnil).
    destruct (leadingZero d); [apply answers_throw|].
    destruct (skipFraction_answers r) as [Hfu Hfs].
    destruct (skipFraction r) as [[fraction r1]|e|]; simpl;
      [|apply answers_throw|now destruct (Hfu eq_refl)].
    specialize (Hfs _ _ eq_refl).
    destruct (skipExponent_answers r1) as [Heu Hes].
    destruct (skipExponent r1) as [[exponent r2]|e|]; simpl;
      [|apply answers_throw|now destruct (Heu eq_refl)].
    specialize (Hes _ _ eq_refl).
    destruct (negb (fraction || exponent) && _);
      [apply answers_ok; lia|].
    destruct strict; [split; discriminate|apply answers_ok; lia]. }
  destruct d; try (apply Hgo; discriminate). apply answers_throw.
Qed.

Lemma parseElements_answers (strict : bool)
  (pv : string -> Outcome (JSValue * string)) (bound : nat) :
  (forall x, String.length x <= bound ->
             answers strict (String.length x) (pv x)) ->
  forall n s,
    String.length s <= bound -> String.length s <= n -> 0 < n ->
    answers strict (String.length s) (parseElements pv n s).
Proof.
  intros Hpv. induction n as [|n IH]; intros s Hb Hn Hpos; [lia|].
  cbn [parseElements].
  apply (answers_bind strict (String.length s) _ (pv s)); [now apply Hpv|].
  intros v r Hr.
  destruct (skipSpace r) as [|c r1] eqn:E; [apply answers_throw|].
  apply skipSpace_tail in E.
  destruct (c =? ",")%char.
  - apply (answers_bind strict (String.length r1) _ (parseElements pv n r1)).
    + apply IH; lia.
    + intros vs r2 Hr2. apply answers_ok. lia.
  - destruct (c =? "]")%char; [apply answers_ok; lia|apply answers_throw].
Qed.

Lemma parseMembers_answers (strict : bool)
  (pv : string -> Outcome (JSValue * string)) (bound : nat) :
  (forall x, String.length x <= bound ->
             answers strict (String.length x) (pv x)) ->
  forall n s,
    String.length s <= bound -> String.length s <= n -> 0 < n ->
    answers strict (String.length s) (parseMembers strict pv n s).
Proof.
  intros Hpv. induction n as [|n IH]; intros s Hb Hn Hpos; [lia|].
  cbn [parseMembers].
  destruct (skipSpace s) as [|q r] eqn:Es; [apply answers_throw|].
  apply skipSpace_tail in Es.
  destruct (q =? dquote)%char; [|apply answers_throw].
  apply (answers_bind strict (String.length r) _ (parseChars strict r));
    [now apply (parseChars_answers strict (String.length r))|].
  intros k r1 Hr1.
  destruct (skipSpace r1) as [|c r2] eqn:E1; [apply answers_throw|].
  apply skipSpace_tail in E1.
  destruct (c =? ":")%char; [|apply answers_throw].
  apply (answers_bind strict (String.length r2) _ (pv r2));
    [apply Hpv; lia|].
  intros v r3 Hr3.
  destruct (skipSpace r3) as [|c' r4] eqn:E3; [apply answers_throw|].
  apply skipSpace_tail in E3.
  destruct (c' =? ",")%char.
  - apply (answers_bind strict (String.length r4) _
             (parseMembers strict pv n r4)).
    + apply IH; lia.
    + intros m r5 Hr5. apply answers_ok. lia.
  - destruct (c' =? "}")%char; [apply answers_ok; lia|apply answers_throw].
Qed.

Lemma parseValue_answers (strict : bool) (fuel : nat) :
  forall s, String.length s < fuel ->
            answers strict (String.length s) (parseValue strict fuel s).
Proof.
  induction fuel as [|fuel IH]; intros s Hfuel; [lia|].
  cbn [parseValue].
  destruct (skipSpace s) as [|c r] eqn:Es; [apply answers_throw|].
  pose proof (skipSpace_length s) as Hlen. rewrite Es in Hlen.
  simpl in Hlen.
  assert (Hlit : forall rest v,
             answers strict (String.length s) (literal rest v r)).
  { intros rest v.
    apply (answers_longer strict (S (String.length r)));
      [apply literal_answers|lia]. }
  destruct (c =? "n")%char; [apply Hlit|].
  destruct (c =? "t")%char; [apply Hlit|].
  destruct (c =? "f")%char; [apply Hlit|].
  destruct (c =? dquote)%char.
  { apply (answers_bind strict (String.length r) _ (parseChars strict r));
      [now apply (parseChars_answers strict (String.length r))|].
    intros str r1 Hr1. apply answers_ok. lia. }
  assert (Hpv : forall x, String.length x <= String.length r ->
                          answers strict (String.length x)
                            (parseValue strict fuel x)).
  { intros x Hx. apply IH. lia. }
  destruct (c =? "[")%char.
  { destruct (skipSpace r) as [|c' r1] eqn:Er; [apply answers_throw|].
    pose proof (skipSpace_tail _ _ _ Er) as Hr1.
    destruct (c' =? "]")%char; [apply answers_ok; lia|].
    apply (answers_bind strict (String.length r) _
             (parseElements (parseValue strict fuel) (String.length r) r)).
    - apply (parseElements_answers strict _ (String.length r)); auto; lia.
    - intros vs r2 Hr2. apply answers_ok. lia. }
  destruct (c =? "{")%char.
  { destruct (skipSpace r) as [|c' r1] eqn:Er; [apply answers_throw|].
    pose proof (skipSpace_tail _ _ _ Er) as Hr1.
    destruct (c' =? "}")%char; [apply answers_ok; lia|].
    apply (answers_bind strict (String.length r) _
             (parseMembers strict (parseValue strict fuel)
                (String.length r) r)).
    - apply (parseMembers_answers strict _ (String.length r)); auto; lia.
    - intros m r2 Hr2.
      destruct strict; simpl.
      + destruct (plainKeys (map fst m)); simpl;
          [apply answers_ok; lia|split; discriminate].
      + rewrite orb_true_r. apply answers_ok. lia. }
  destruct ((c =? "-")%char || isDigit c); [|apply answers_throw].
  apply (answers_longer strict (String.length (String c r)));
    [apply parseNumber_answers|simpl; lia].
Qed.

(** The grammar check never leaves the model: every text is JSON or is
    not. *)
Lemma parseText_answers (text : string) : parseText false text <> Unmodelled.
Proof.
  unfold parseText.
  destruct (parseValue_answers false (S (String.length text)) text) as [Hu _];
    [lia|].
  destruct (parseValue false (S (String.length text)) text) as [[v r]|e|];
    simpl; [|discriminate|now destruct (Hu eq_refl)].
  destruct (skipSpace r); discriminate.
Qed.

(** [JSON.parse] answers [Unmodelled] only on a text that passed the
    grammar check. *)
Lemma parse_unmodelled (text : string) :
  parse text = Unmodelled -> exists v, parseText false text = Ok v.
Proof.
  unfold parse. pose proof (parseText_answers text) as Hu.
  destruct (parseText false text) as [v|e|]; simpl; [eauto|discriminate|].
  now destruct Hu.
Qed.

Lemma stringify_nonempty (v : JSValue) : stringify v <> "".
Proof.
  pose proof (stringify_length v) as H. intros E. rewrite E in H.
  simpl in H. lia.
Qed.

End JSONFacts.

(** ** Facts about script.js *)

Section ScriptFacts.

Context {page : View}.

#[local] Open Scope js_scope.

(** ** Persistence *)

(** [saveTasksToStorage] never throws: it writes the serialised [tasks]
    when the storage accepts it and reports the failure otherwise. *)
Lemma saveTasksToStorage_eq (st : State) :
  saveTasksToStorage st =
  (Ok tt,
   let json := JSON.stringify (tasks st) in
   let st1 := logged (SetItem json) st in
   if fits st
   then logged (ConsoleLog TasksSaved)
          (withStorage (mkStorage (Some json) (capacity (localStorage st))) st1)
   else logged (ConsoleError (SaveFailed QuotaExceededError)) st1).
Proof.
  unfold saveTasksToStorage, tryCatch, bind, getTasks, setItem, emit, fits.
  destruct (String.length (JSON.stringify (tasks st))
            <=? capacity (localStorage st))%nat; reflexivity.
Qed.

Lemma saveTasksToStorage_tasks (st : State) :
  tasks (snd (saveTasksToStorage st)) = tasks st.
Proof.
  rewrite saveTasksToStorage_eq. simpl. destruct (fits st); reflexivity.
Qed.

Lemma saveTasksToStorage_storage (st : State) :
  localStorage (snd (saveTasksToStorage st)) =
  if fits st
  then mkStorage (Some (JSON.stringify (tasks st))) (capacity (localStorage st))
  else localStorage st.
Proof.
  rewrite saveTasksToStorage_eq. simpl. destruct (fits st); reflexivity.
Qed.

Lemma saveTasksToStorage_trace (st : State) :
  exists post,
    trace (snd (saveTasksToStorage st))
    = (trace st ++ SetItem (JSON.stringify (tasks st)) :: post)%list.
Proof.
  rewrite saveTasksToStorage_eq. simpl. destruct (fits st); simpl;
    rewrite <- List.app_assoc; simpl; eauto.
Qed.

Lemma saveTasksToStorage_returns (st : State) :
  fst (saveTasksToStorage st) = Ok tt.
Proof. now rewrite saveTasksToStorage_eq. Qed.

Lemma saveTasksToStorage_queues (st : State) :
  timers (snd (saveTasksToStorage st)) = timers st
  /\ readers (snd (saveTasksToStorage st)) = readers st.
Proof.
  rewrite saveTasksToStorage_eq. simpl. destruct (fits st); auto.
Qed.

Lemma save_then_view (m : Message) (st : State) :
  persisted st
    (snd ((saveTasksToStorage ;;; callView renderTasks ;;;
           callView updateStatistics ;;; emit (ConsoleLog m)) st)).
Proof.
  unfold persisted.
  destruct (saveTasksToStorage_trace st) as (post & Htrace).
  pose proof (saveTasksToStorage_tasks st) as Htasks.
  pose proof (saveTasksToStorage_returns st) as Hret.
  destruct (saveTasksToStorage_queues st) as [Ht Hr].
  unfold bind, callView, emit.
  destruct (saveTasksToStorage st) as [o st1]. simpl in *. subst o.
  destruct (renderTasks st1) as [[]|e|];
    [destruct (updateStatistics st1) as [[]|e|]|..]; simpl;
    repeat split; eauto.
  exists (post ++ [ConsoleLog m])%list. rewrite Htrace, <- List.app_assoc. reflexivity.
Qed.

(** Start-up leaves in [tasks] what [loadTasksFromStorage] left there. *)
Lemma initializeApp_tasks (st : State) :
  tasks (snd (initializeApp st)) = tasks (snd (loadTasksFromStorage st)).
Proof.
  unfold initializeApp, bind, callView.
  destruct (loadTasksFromStorage st) as [[[]|e|] st1]; simpl; try reflexivity.
  destruct (renderTasks st1) as [[]|e|]; reflexivity.
Qed.

(** ** Adding a task *)

Lemma trimEnd_allWhiteSpace (s : string) :
  allWhiteSpace s = true -> trimEnd s = "".
Proof.
  induction s as [|c s IH]; simpl; [reflexivity|].
  intros H. apply andb_true_iff in H as [Hc Hs].
  rewrite Hc, (IH Hs). reflexivity.
Qed.

Lemma trimStart_allWhiteSpace (s : string) :
  allWhiteSpace s = true -> trimStart s = "".
Proof.
  induction s as [|c s IH]; simpl; [reflexivity|].
  intros H. apply andb_true_iff in H as [Hc Hs].
  rewrite Hc. exact (IH Hs).
Qed.

Lemma trim_allWhiteSpace (s : string) : allWhiteSpace s = true -> trim s = "".
Proof.
  intros H. unfold trim. now rewrite (trimStart_allWhiteSpace s H).
Qed.

(** C7. [handleAddTask] on the empty string or on a string of white space
    only rejects the input (the empty-input feedback) and leaves [tasks] and
    the storage as they were, in every state. *)
Theorem handleAddTask_rejects_blank (value : string) (now : Z)
  (createdAt : string) (st : State) :
  allWhiteSpace value = true ->
  handleAddTask value now createdAt st = (Ok tt, logged EmptyInputFeedback st)
  /\ tasks (snd (handleAddTask value now createdAt st)) = tasks st
  /\ localStorage (snd (handleAddTask value now createdAt st)) = localStorage st.
Proof.
  intros H. unfold handleAddTask. rewrite (trim_allWhiteSpace value H).
  simpl. auto.
Qed.

Lemma sameText_textOf (taskText : string) (task : JSValue) (s : string) :
  textOf task = Some s ->
  sameText taskText task = Ok (toLowerCase s =? toLowerCase taskText)%string.
Proof.
  unfold textOf, sameText. destruct task as [| | | | |props]; try discriminate.
  simpl. destruct (lookup "text" props) as [[| | |t| |]|]; try discriminate.
  now intros [= ->].
Qed.

Lemma arraySome_sameText_found (taskText : string) (l : list JSValue)
  (task : JSValue) (s : string) :
  Forall (fun v => textOf v <> None) l ->
  In task l -> textOf task = Some s ->
  toLowerCase s = toLowerCase taskText ->
  arraySome (sameText taskText) l = Ok true.
Proof.
  intros Hall Hin Hs Heq. induction Hall as [|x l Hx Hl IH]; [contradiction|].
  simpl. destruct (textOf x) as [t|] eqn:Ht; [|congruence].
  rewrite (sameText_textOf _ _ _ Ht). simpl.
  destruct (toLowerCase t =? toLowerCase taskText)%string eqn:E; [reflexivity|].
  destruct Hin as [->|Hin]; [|auto].
  rewrite Hs in Ht. injection Ht as <-. rewrite Heq, String.eqb_refl in E.
  discriminate.
Qed.

Lemma handleAddTask_duplicate (value : string) (now : Z) (createdAt : string)
  (st : State) (l : list JSValue) (task : JSValue) (text : string) :
  tasks st = JArr l ->
  Forall (fun v => textOf v <> None) l ->
  trim value <> "" ->
  In task l -> textOf task = Some text ->
  toLowerCase text = toLowerCase (trim value) ->
  handleAddTask value now createdAt st
  = (Ok tt, logged (Alert "This task already exists!") st).
Proof.
  intros Htasks Hall Hne Hin Htext Heq. unfold handleAddTask.
  apply String.eqb_neq in Hne. rewrite Hne.
  unfold bind at 1, getTasks. rewrite Htasks. unfold bind at 1, lift, asArray.
  unfold bind.
  change (fun task0 : JSValue => _) with (sameText (trim value)).
  rewrite (arraySome_sameText_found _ _ _ _ Hall Hin Htext Heq).
  reflexivity.
Qed.

(** What a successful [handleAddTask] leaves in [tasks]. *)
Lemma handleAddTask_appends (value : string) (now : Z) (createdAt : string)
  (st : State) (l : list JSValue) :
  tasks st = JArr l -> trim value <> "" ->
  arraySome (sameText (trim value)) l = Ok false ->
  persisted
    (withTasks (JArr (l ++ [taskRecord now (trim value) createdAt])%list) st)
    (snd (handleAddTask value now createdAt st)).
Proof.
  intros Htasks Hne Hsome. unfold handleAddTask.
  apply String.eqb_neq in Hne. rewrite Hne.
  unfold bind at 1, getTasks. rewrite Htasks. unfold bind at 1, lift, asArray.
  unfold bind at 1.
  change (fun task0 : JSValue => _) with (sameText (trim value)).
  rewrite Hsome. unfold bind at 1, setTasks.
  apply save_then_view.
Qed.

(** C8. [handleAddTask] rejects a text that equals, after trimming and
    ignoring case, the text of a task in the collection: it alerts and leaves
    the state as it was.  In particular, adding [Buy milk] and then
    [buy milk] to the empty collection rejects the second. *)
Theorem handleAddTask_rejects_duplicate :
  (forall value now createdAt st l task text,
      tasks st = JArr l ->
      Forall (fun v => textOf v <> None) l ->
      trim value <> "" ->
      In task l -> textOf task = Some text ->
      toLowerCase text = toLowerCase (trim value) ->
      handleAddTask value now createdAt st
      = (Ok tt, logged (Alert "This task already exists!") st))
  /\ (forall storage now1 created1 now2 created2,
        let st1 := snd (handleAddTask "Buy milk" now1 created1 (fresh storage)) in
        tasks st1 = JArr [taskRecord now1 "Buy milk" created1]
        /\ handleAddTask "buy milk" now2 created2 st1
           = (Ok tt, logged (Alert "This task already exists!") st1)).
Proof.
  split; [exact handleAddTask_duplicate|].
  intros storage now1 created1 now2 created2 st1.
  assert (Hst1 : tasks st1 = JArr [taskRecord now1 "Buy milk" created1]).
  { destruct (handleAddTask_appends "Buy milk" now1 created1 (fresh storage) [])
      as (H & _); [reflexivity|discriminate|reflexivity|exact H]. }
  split; [exact Hst1|].
  eapply handleAddTask_duplicate;
    [exact Hst1| |discriminate|left; reflexivity|reflexivity|reflexivity].
  constructor; [discriminate|constructor].
Qed.

(** ** Toggling a task *)

Lemma idIs_hasId (taskId : Z) (task : JSValue) :
  task <> JNull -> idIs taskId task = Ok (hasId taskId task).
Proof. destruct task; intros H; try reflexivity. congruence. Qed.

Lemma arrayFind_none (taskId : Z) (l : list JSValue) (i : nat) :
  Forall (fun v => v <> JNull) l ->
  forallb (fun v => negb (hasId taskId v)) l = true ->
  arrayFind (idIs taskId) i l = Ok None.
Proof.
  intros Hall. revert i. induction Hall as [|x l Hx Hl IH]; intros i H.
  - reflexivity.
  - simpl in H. apply andb_true_iff in H as [Hn H].
    apply negb_true_iff in Hn.
    simpl. rewrite (idIs_hasId _ _ Hx), Hn. simpl. auto.
Qed.

Lemma arrayFind_first (taskId : Z) (pre : list JSValue) (task : JSValue)
  (post : list JSValue) (i : nat) :
  Forall (fun v => v <> JNull) (pre ++ task :: post) ->
  forallb (fun v => negb (hasId taskId v)) pre = true ->
  hasId taskId task = true ->
  arrayFind (idIs taskId) i (pre ++ task :: post)
  = Ok (Some (i + List.length pre, task)).
Proof.
  revert i. induction pre as [|x pre IH]; intros i Hall Hpre Htask.
  - simpl. inversion Hall as [|? ? Hx _]; subst.
    rewrite (idIs_hasId _ _ Hx), Htask. simpl. now rewrite Nat.add_0_r.
  - simpl in Hpre. apply andb_true_iff in Hpre as [Hn Hpre].
    apply negb_true_iff in Hn.
    inversion Hall as [|? ? Hx Hrest]; subst.
    simpl. rewrite (idIs_hasId _ _ Hx), Hn. simpl.
    rewrite (IH (S i) Hrest Hpre Htask). simpl. now rewrite Nat.add_succ_r.
Qed.

Lemma updateAt_middle (pre : list JSValue) (x v : JSValue)
  (post : list JSValue) :
  updateAt (List.length pre) v (pre ++ x :: post) = (pre ++ v :: post)%list.
Proof. induction pre as [|y pre IH]; simpl; [reflexivity|now rewrite IH]. Qed.

Lemma lookup_assign_same (k : string) (v : JSValue)
  (props : list (string * JSValue)) :
  lookup k (assign k v props) = Some v.
Proof.
  induction props as [|[k' v'] props IH]; simpl.
  - now rewrite String.eqb_refl.
  - destruct (k' =? k)%string eqn:E; simpl; now rewrite E.
Qed.

Lemma lookup_assign_other (k k0 : string) (v : JSValue)
  (props : list (string * JSValue)) :
  k0 <> k -> lookup k0 (assign k v props) = lookup k0 props.
Proof.
  intros Hne. induction props as [|[k' v'] props IH]; simpl.
  - destruct (k =? k0)%string eqn:E; [|reflexivity].
    apply String.eqb_eq in E. congruence.
  - destruct (k' =? k)%string eqn:E; simpl.
    + apply String.eqb_eq in E. subst k'.
      destruct (k =? k0)%string eqn:E'; [|reflexivity].
      apply String.eqb_eq in E'. congruence.
    + now rewrite IH.
Qed.

(** C9. [toggleTaskCompletion] flips [completed] on the first task whose
    [id] is the one given and keeps every other task and every other
    property: a stored [false] becomes [true] and a stored [true] becomes
    [false] (and a value that is not a boolean is replaced by the negation
    of its truth value).  When no task has that id it returns without an
    error and without touching the state. *)
Theorem toggleTaskCompletion_flips (taskId : Z) (st : State)
  (l : list JSValue) :
  tasks st = JArr l ->
  Forall (fun v => v <> JNull) l ->
  (forallb (fun v => negb (hasId taskId v)) l = true ->
   toggleTaskCompletion taskId st = (Ok tt, st))
  /\ (forall pre task post,
        l = (pre ++ task :: post)%list ->
        forallb (fun v => negb (hasId taskId v)) pre = true ->
        hasId taskId task = true ->
        let toggled := setCompleted task (negb (isCompleted task)) in
        tasks (snd (toggleTaskCompletion taskId st))
        = JArr (pre ++ toggled :: post)
        /\ lookupCompleted toggled = Some (JBool (negb (isCompleted task)))
        /\ (forall k, k <> "completed" -> getProp toggled k = getProp task k)
        /\ (forall b,
              getProp task "completed" = Ok (Some (JBool b)) ->
              getProp toggled "completed" = Ok (Some (JBool (negb b))))
        /\ (getProp task "completed" = Ok (Some (JBool false)) ->
            getProp toggled "completed" = Ok (Some (JBool true)))
        /\ (getProp task "completed" = Ok (Some (JBool true)) ->
            getProp toggled "completed" = Ok (Some (JBool false)))).
Proof.
  intros Htasks Hall. split.
  - intros Hnone. unfold toggleTaskCompletion.
    unfold bind at 1, getTasks. rewrite Htasks. unfold bind at 1, lift, asArray.
    unfold bind at 1. change (fun task : JSValue => _) with (idIs taskId).
    now rewrite (arrayFind_none _ _ _ Hall Hnone).
  - intros pre task post -> Hpre Htask toggled.
    assert (Hflip : forall b,
               getProp task "completed" = Ok (Some (JBool b)) ->
               getProp toggled "completed" = Ok (Some (JBool (negb b)))).
    { intros b. subst toggled.
      destruct task as [| | | | |props]; try discriminate Htask.
      unfold isCompleted. simpl. intros [= ->]. simpl.
      now rewrite lookup_assign_same. }
    split; [|split; [|split; [|split; [exact Hflip|split]]]];
      [| | |exact (Hflip false)|exact (Hflip true)].
    + unfold toggleTaskCompletion.
      unfold bind at 1, getTasks. rewrite Htasks. unfold bind at 1, lift, asArray.
      unfold bind at 1. change (fun task : JSValue => _) with (idIs taskId).
      rewrite (arrayFind_first _ _ _ _ _ Hall Hpre Htask).
      change (0 + List.length pre) with (List.length pre).
      assert (Htruthy : truthy (Some task) = true)
        by (destruct task; try discriminate Htask; reflexivity).
      rewrite Htruthy. unfold bind at 1, setTasks.
      rewrite updateAt_middle.
      destruct (save_then_view
                  (TaskToggled taskId (negb (truthy (lookupCompleted task))))
                  (withTasks (JArr (pre ++ toggled :: post)%list) st))
        as (H & _).
      exact H.
    + subst toggled. destruct task as [| | | | |props]; try discriminate Htask.
      simpl. apply lookup_assign_same.
    + intros k Hk. subst toggled.
      destruct task as [| | | | |props]; try discriminate Htask.
      simpl. f_equal. now apply lookup_assign_other.
Qed.

(** ** Clearing the completed tasks *)

Lemma arrayFilter_pure (cb : JSValue -> Outcome bool) (f : JSValue -> bool)
  (l : list JSValue) :
  Forall (fun v => cb v = Ok (f v)) l -> arrayFilter cb l = Ok (filter f l).
Proof.
  induction 1 as [|x l Hx Hl IH]; simpl; [reflexivity|].
  rewrite Hx, IH. simpl. destruct (f x); reflexivity.
Qed.

Lemma getProp_completed (task : JSValue) :
  task <> JNull -> getProp task "completed" = Ok (lookupCompleted task).
Proof. destruct task; intros H; try reflexivity. congruence. Qed.

Lemma filter_length_split (f : JSValue -> bool) (l : list JSValue) :
  List.length (filter f l) + List.length (filter (fun v => negb (f v)) l)
  = List.length l.
Proof.
  induction l as [|x l IH]; simpl; [reflexivity|].
  destruct (f x); simpl; lia.
Qed.

(** C4, as the code has it.  With no completed task [handleClearCompleted]
    alerts that there is nothing to clear and leaves the state as it was.
    With [n > 0] completed tasks it asks for confirmation, naming [n]; when
    the user declines nothing changes; when the user confirms exactly the [n]
    completed tasks are removed, the others stay in order, and the new
    collection is written to the storage.  The function returns no value.
    After the write it calls the view; when [renderTasks] and
    [updateStatistics] complete, it logs [n] to the console and returns;
    when one of them throws, the exception leaves the function and [n] is
    not logged. *)
Theorem handleClearCompleted_removes_on_confirm (confirmed : bool)
  (st : State) (l : list JSValue) :
  tasks st = JArr l ->
  Forall (fun v => v <> JNull) l ->
  let n := List.length (filter isCompleted l) in
  (n = 0 ->
   handleClearCompleted confirmed st
   = (Ok tt, logged (Alert "No completed tasks to clear!") st))
  /\ (0 < n -> confirmed = false ->
      handleClearCompleted confirmed st
      = (Ok tt, logged (Confirm (clearPrompt n) false) st))
  /\ (0 < n -> confirmed = true ->
      let kept := filter (fun v => negb (isCompleted v)) l in
      persisted (withTasks (JArr kept) (logged (Confirm (clearPrompt n) true) st))
        (snd (handleClearCompleted confirmed st))
      /\ List.length kept + n = List.length l)
  /\ (n = 0 ->
      fst (handleClearCompleted confirmed st) = Ok tt
      /\ tasks (snd (handleClearCompleted confirmed st)) = JArr l
      /\ localStorage (snd (handleClearCompleted confirmed st))
         = localStorage st
      /\ trace (snd (handleClearCompleted confirmed st))
         = (trace st ++ [Alert "No completed tasks to clear!"])%list)
  /\ (0 < n -> confirmed = false ->
      fst (handleClearCompleted confirmed st) = Ok tt
      /\ tasks (snd (handleClearCompleted confirmed st)) = JArr l
      /\ localStorage (snd (handleClearCompleted confirmed st))
         = localStorage st
      /\ trace (snd (handleClearCompleted confirmed st))
         = (trace st ++ [Confirm (clearPrompt n) false])%list)
  /\ (0 < n -> confirmed = true ->
      let kept := filter (fun v => negb (isCompleted v)) l in
      let saved :=
        snd (saveTasksToStorage
               (withTasks (JArr kept)
                  (logged (Confirm (clearPrompt n) true) st))) in
      let after := snd (handleClearCompleted confirmed st) in
      tasks after = JArr kept
      /\ (exists report,
            trace saved
            = (trace st
               ++ [Confirm (clearPrompt n) true;
                   SetItem (JSON.stringify (JArr kept)); report])%list)
      /\ (renderTasks saved = Ok tt -> updateStatistics saved = Ok tt ->
          fst (handleClearCompleted confirmed st) = Ok tt
          /\ trace after
             = (trace saved ++ [ConsoleLog (ClearedCompleted n)])%list)
      /\ (forall e,
            renderTasks saved = Throw e
            \/ (renderTasks saved = Ok tt /\ updateStatistics saved = Throw e) ->
            fst (handleClearCompleted confirmed st) = Throw e
            /\ trace after = trace saved)).
Proof.
  intros Htasks Hall n.
  assert (Hdone : arrayFilter
                    (fun task =>
                       obind (getProp task "completed") (fun c => Ok (truthy c)))
                    l = Ok (filter isCompleted l)).
  { apply arrayFilter_pure. eapply Forall_impl; [|exact Hall].
    intros v Hv. simpl. now rewrite (getProp_completed v Hv). }
  assert (Hkept : arrayFilter
                    (fun task =>
                       obind (getProp task "completed") (fun c =>
                       Ok (negb (truthy c))))
                    l = Ok (filter (fun v => negb (isCompleted v)) l)).
  { apply arrayFilter_pure. eapply Forall_impl; [|exact Hall].
    intros v Hv. simpl. now rewrite (getProp_completed v Hv). }
  assert (Hnone : n = 0 ->
                  handleClearCompleted confirmed st
                  = (Ok tt, logged (Alert "No completed tasks to clear!") st)).
  { intros Hn. unfold handleClearCompleted.
    unfold bind at 1, getTasks. rewrite Htasks. unfold bind at 1, lift, asArray.
    unfold bind at 1. rewrite Hdone. fold n. rewrite Hn. reflexivity. }
  assert (Hno : 0 < n -> confirmed = false ->
                handleClearCompleted confirmed st
                = (Ok tt, logged (Confirm (clearPrompt n) false) st)).
  { intros Hn ->. unfold handleClearCompleted.
    unfold bind at 1, getTasks. rewrite Htasks. unfold bind at 1, lift, asArray.
    unfold bind at 1. rewrite Hdone. fold n.
    destruct n as [|n']; [lia|]. reflexivity. }
  assert (Hyes : 0 < n -> confirmed = true ->
                 handleClearCompleted confirmed st
                 = (saveTasksToStorage ;;; callView renderTasks ;;;
                    callView updateStatistics ;;;
                    emit (ConsoleLog (ClearedCompleted n)))%js
                     (withTasks
                        (JArr (filter (fun v => negb (isCompleted v)) l))
                        (logged (Confirm (clearPrompt n) true) st))).
  { intros Hn ->. unfold handleClearCompleted.
    unfold bind at 1, getTasks. rewrite Htasks. unfold bind at 1, lift, asArray.
    unfold bind at 1. rewrite Hdone. fold n.
    destruct n as [|n'] eqn:En; [lia|]. simpl Nat.eqb. cbv iota.
    unfold bind at 1, emit. unfold bind at 1. rewrite Hkept.
    unfold bind at 1, setTasks. reflexivity. }
  split; [exact Hnone|]. split; [exact Hno|]. split; [|split; [|split]].
  - intros Hn Hc kept. split.
    + rewrite (Hyes Hn Hc). apply save_then_view.
    + subst n kept. pose proof (filter_length_split isCompleted l). lia.
  - intros Hn. rewrite (Hnone Hn). simpl. auto.
  - intros Hn Hc. rewrite (Hno Hn Hc). simpl. auto.
  - intros Hn Hc kept saved after. subst after. rewrite (Hyes Hn Hc).
    fold kept.
    set (st0 := withTasks (JArr kept) (logged (Confirm (clearPrompt n) true) st))
      in *.
    pose proof (saveTasksToStorage_returns st0) as Hret.
    pose proof (saveTasksToStorage_tasks st0) as Hsame.
    assert (Htrace : exists report,
               trace saved
               = (trace st
                  ++ [Confirm (clearPrompt n) true;
                      SetItem (JSON.stringify (JArr kept)); report])%list).
    { subst saved. rewrite saveTasksToStorage_eq. simpl.
      destruct (fits st0); simpl; rewrite <- !List.app_assoc; simpl; eauto. }
    fold saved in Hsame.
    unfold bind, callView, emit.
    destruct (saveTasksToStorage st0) as [o st1] eqn:Esave.
    simpl in Hret, saved. subst o. subst saved.
    split; [|split; [exact Htrace|split]].
    + destruct (renderTasks st1) as [[]|e|];
        [destruct (updateStatistics st1) as [[]|e|]|..]; exact Hsame.
    + intros Hr Hu. rewrite Hr, Hu. split; reflexivity.
    + intros e [Hr|[Hr Hu]]; rewrite Hr; [|rewrite Hu]; split; reflexivity.
Qed.

(** ** Loading at start-up *)

Lemma loadTasksFromStorage_parsed (st : State) (text : string) (v : JSValue)
  (len : Lookup) :
  slot (localStorage st) = Some text -> text <> "" ->
  JSON.parse text = Ok v -> getLength v = Ok len ->
  interpolate len = Ok tt ->
  loadTasksFromStorage st
  = (Ok tt, logged (ConsoleLog (TasksLoaded len)) (withTasks v st)).
Proof.
  intros Hslot Hne Hparse Hlen Hstr.
  unfold loadTasksFromStorage, tryCatch, bind, getItem. rewrite Hslot.
  destruct text as [|c s]; [congruence|].
  unfold lift. rewrite Hparse. unfold setTasks. rewrite Hlen, Hstr.
  reflexivity.
Qed.

Lemma loadTasksFromStorage_empty (st : State) :
  slot (localStorage st) = None \/ slot (localStorage st) = Some "" ->
  loadTasksFromStorage st = (Ok tt, logged (ConsoleLog NoSavedTasks) st).
Proof.
  intros [H|H]; unfold loadTasksFromStorage, tryCatch, bind, getItem;
    rewrite H; reflexivity.
Qed.

Lemma loadTasksFromStorage_failed (st : State) (text : string) (e : JSError) :
  slot (localStorage st) = Some text -> text <> "" ->
  JSON.parse text = Throw e ->
  loadTasksFromStorage st
  = (Ok tt, withTasks (JArr []) (logged (ConsoleError (LoadFailed e)) st)).
Proof.
  intros Hslot Hne Hparse.
  unfold loadTasksFromStorage, tryCatch, bind, getItem. rewrite Hslot.
  destruct text as [|c s]; [congruence|].
  unfold lift. now rewrite Hparse.
Qed.

(** Whatever the slot holds, the load returns normally unless the stored
    text denotes a value outside the model. *)
Lemma loadTasksFromStorage_returns (st : State) :
  (forall e, fst (loadTasksFromStorage st) <> Throw e)
  /\ ((forall text, slot (localStorage st) = Some text ->
                    JSON.parse text <> Unmodelled) ->
      fst (loadTasksFromStorage st) = Ok tt).
Proof.
  unfold loadTasksFromStorage, tryCatch, bind, getItem, lift, setTasks, emit.
  destruct (slot (localStorage st)) as [[|c s]|];
    try (split; [discriminate|reflexivity]).
  split.
  - intros e. destruct (JSON.parse (String c s)) as [v|e'|]; try discriminate.
    destruct (getLength v) as [len|e'|]; try discriminate.
    destruct (interpolate len); discriminate.
  - intros Hin. specialize (Hin _ eq_refl).
    destruct (JSON.parse (String c s)) as [v|e'|];
      [|reflexivity|now destruct Hin].
    destruct (getLength v) as [len|e'|] eqn:Hlen; try reflexivity.
    + unfold interpolate.
      destruct len as [w|]; [destruct (stringable w)|]; reflexivity.
    + destruct v; discriminate.
Qed.

(** C6. [loadTasksFromStorage] returns normally in both cases.  When the
    slot is absent (or holds the empty text) the collection stays as it
    was, empty in a fresh page, and the only browser call is the
    [console.log] that no saved tasks were found.  When the stored text
    does not parse, the collection is set to the empty array, the one
    browser call is the [console.error] with the exception of
    [JSON.parse], and the storage is left as it was.  No exception leaves
    the function, whatever the slot holds. *)
Theorem loadTasksFromStorage_absent_or_malformed :
  (forall storage,
      slot storage = None ->
      loadTasksFromStorage (fresh storage)
      = (Ok tt, logged (ConsoleLog NoSavedTasks) (fresh storage))
      /\ tasks (snd (loadTasksFromStorage (fresh storage))) = JArr []
      /\ trace (snd (loadTasksFromStorage (fresh storage)))
         = [ConsoleLog NoSavedTasks]
      /\ localStorage (snd (loadTasksFromStorage (fresh storage))) = storage)
  /\ (forall st,
        slot (localStorage st) = None \/ slot (localStorage st) = Some "" ->
        fst (loadTasksFromStorage st) = Ok tt
        /\ tasks (snd (loadTasksFromStorage st)) = tasks st
        /\ trace (snd (loadTasksFromStorage st))
           = (trace st ++ [ConsoleLog NoSavedTasks])%list
        /\ localStorage (snd (loadTasksFromStorage st)) = localStorage st)
  /\ (forall st text e,
        slot (localStorage st) = Some text -> text <> "" ->
        JSON.parse text = Throw e ->
        loadTasksFromStorage st
        = (Ok tt, withTasks (JArr []) (logged (ConsoleError (LoadFailed e)) st))
        /\ fst (loadTasksFromStorage st) = Ok tt
        /\ tasks (snd (loadTasksFromStorage st)) = JArr []
        /\ trace (snd (loadTasksFromStorage st))
           = (trace st ++ [ConsoleError (LoadFailed e)])%list
        /\ localStorage (snd (loadTasksFromStorage st)) = localStorage st)
  /\ (forall st e, fst (loadTasksFromStorage st) <> Throw e)
  /\ (forall st,
        (forall text, slot (localStorage st) = Some text ->
                      JSON.parse text <> Unmodelled) ->
        fst (loadTasksFromStorage st) = Ok tt).
Proof.
  split; [|split; [|split; [|split]]].
  - intros storage Hslot.
    rewrite (loadTasksFromStorage_empty (fresh storage)) by now left.
    repeat split.
  - intros st Hslot. rewrite (loadTasksFromStorage_empty st Hslot).
    repeat split.
  - intros st text e Hslot Hne Hparse.
    rewrite (loadTasksFromStorage_failed st text e Hslot Hne Hparse).
    repeat split.
  - intros st. apply loadTasksFromStorage_returns.
  - intros st. apply loadTasksFromStorage_returns.
Qed.

(** C10. [loadTasksFromStorage] installs whatever the stored text parses
    to: with the text [5] in the slot [tasks] becomes the number 5, with
    [[{}]] it becomes an array holding an object that has no [id], [text] or
    [completed].  Neither is a collection of tasks, and neither load reports
    an error: each returns normally and its one browser call is the
    [console.log] of the number of tasks loaded.  The same holds of every
    stored text that parses to a value other than [null] whose [length] can
    be put into that log line. *)
Theorem loadTasksFromStorage_installs_unvalidated (room : nat) (st : State) :
  (loadTasksFromStorage (withStorage (mkStorage (Some "5") room) st)
   = (Ok tt,
      logged (ConsoleLog (TasksLoaded None))
        (withTasks (JNum 5) (withStorage (mkStorage (Some "5") room) st)))
   /\ isCollection (JNum 5) = false)
  /\ (loadTasksFromStorage (withStorage (mkStorage (Some "[{}]") room) st)
      = (Ok tt,
         logged (ConsoleLog (TasksLoaded (Some (JNum 1))))
           (withTasks (JArr [JObj []])
              (withStorage (mkStorage (Some "[{}]") room) st)))
      /\ isCollection (JArr [JObj []]) = false)
  /\ (fst (loadTasksFromStorage (withStorage (mkStorage (Some "5") room) st))
      = Ok tt
      /\ tasks (snd (loadTasksFromStorage
                       (withStorage (mkStorage (Some "5") room) st)))
         = JNum 5
      /\ trace (snd (loadTasksFromStorage
                       (withStorage (mkStorage (Some "5") room) st)))
         = (trace st ++ [ConsoleLog (TasksLoaded None)])%list
      /\ isCollection
           (tasks (snd (loadTasksFromStorage
                          (withStorage (mkStorage (Some "5") room) st))))
         = false)
  /\ (fst (loadTasksFromStorage
             (withStorage (mkStorage (Some "[{}]") room) st))
      = Ok tt
      /\ tasks (snd (loadTasksFromStorage
                       (withStorage (mkStorage (Some "[{}]") room) st)))
         = JArr [JObj []]
      /\ trace (snd (loadTasksFromStorage
                       (withStorage (mkStorage (Some "[{}]") room) st)))
         = (trace st ++ [ConsoleLog (TasksLoaded (Some (JNum 1)))])%list
      /\ isCollection
           (tasks (snd (loadTasksFromStorage
                          (withStorage (mkStorage (Some "[{}]") room) st))))
         = false
      /\ isTask (JObj []) = false)
  /\ (forall text v len,
        slot (localStorage st) = Some text -> text <> "" ->
        JSON.parse text = Ok v -> getLength v = Ok len ->
        interpolate len = Ok tt ->
        fst (loadTasksFromStorage st) = Ok tt
        /\ tasks (snd (loadTasksFromStorage st)) = v
        /\ trace (snd (loadTasksFromStorage st))
           = (trace st ++ [ConsoleLog (TasksLoaded len)])%list
        /\ localStorage (snd (loadTasksFromStorage st)) = localStorage st).
Proof.
  assert (Hfive : loadTasksFromStorage
                    (withStorage (mkStorage (Some "5") room) st)
                  = (Ok tt,
                     logged (ConsoleLog (TasksLoaded None))
                       (withTasks (JNum 5)
                          (withStorage (mkStorage (Some "5") room) st)))).
  { apply (loadTasksFromStorage_parsed _ "5"); try reflexivity.
    discriminate. }
  assert (Hbare : loadTasksFromStorage
                    (withStorage (mkStorage (Some "[{}]") room) st)
                  = (Ok tt,
                     logged (ConsoleLog (TasksLoaded (Some (JNum 1))))
                       (withTasks (JArr [JObj []])
                          (withStorage (mkStorage (Some "[{}]") room) st)))).
  { apply (loadTasksFromStorage_parsed _ "[{}]"); try reflexivity.
    discriminate. }
  split; [|split; [|split; [|split]]].
  - split; [exact Hfive|reflexivity].
  - split; [exact Hbare|reflexivity].
  - rewrite Hfive. repeat split.
  - rewrite Hbare. repeat split.
  - intros text v len Hslot Hne Hparse Hlen Hstr.
    rewrite (loadTasksFromStorage_parsed st text v len Hslot Hne Hparse Hlen
               Hstr).
    repeat split.
Qed.

(** ** Saving, then loading *)

(** C5, as the code has it.  For a collection inside the range of the
    model: when the write of [saveTasksToStorage] is accepted by the
    storage, [loadTasksFromStorage] on that storage, in the same page or in
    a fresh one, returns normally and leaves in [tasks] a collection equal
    to the saved one, element by element and in the same order.  For every
    value of [tasks]: when the storage rejects the write,
    [saveTasksToStorage] reports the failure with [console.error], returns
    normally and leaves [tasks] and the storage as they were, so that a load
    reads back what the slot held before. *)
Theorem load_after_accepted_save :
  (forall st l,
      tasks st = JArr l ->
      jsonSafe (JArr l) = true ->
      fits st = true ->
      forall st2,
        localStorage st2 = localStorage (snd (saveTasksToStorage st)) ->
        fst (loadTasksFromStorage st2) = Ok tt
        /\ tasks (snd (loadTasksFromStorage st2)) = JArr l)
  /\ (forall st,
        fits st = false ->
        fst (saveTasksToStorage st) = Ok tt
        /\ tasks (snd (saveTasksToStorage st)) = tasks st
        /\ localStorage (snd (saveTasksToStorage st)) = localStorage st
        /\ trace (snd (saveTasksToStorage st))
           = (trace st
              ++ [SetItem (JSON.stringify (tasks st));
                  ConsoleError (SaveFailed QuotaExceededError)])%list
        /\ tasks (snd (loadTasksFromStorage
                         (fresh (localStorage (snd (saveTasksToStorage st))))))
           = tasks (snd (loadTasksFromStorage (fresh (localStorage st))))).
Proof.
  split.
  - intros st l Htasks Hsafe Hfits st2 Hst2.
    rewrite saveTasksToStorage_storage, Hfits, Htasks in Hst2.
    rewrite (loadTasksFromStorage_parsed st2 (JSON.stringify (JArr l)) (JArr l)
               (Some (JNum (Z.of_nat (List.length l))))).
    + split; reflexivity.
    + now rewrite Hst2.
    + apply JSONFacts.stringify_nonempty.
    + now apply JSONFacts.parse_stringify.
    + reflexivity.
    + reflexivity.
  - intros st Hfits.
    rewrite saveTasksToStorage_eq. simpl. rewrite Hfits. simpl.
    rewrite <- List.app_assoc. repeat split.
Qed.

(** ** Importing *)

Lemma readerOnload_failed (text : string) (confirmed : bool) (st : State)
  (e : JSError) :
  JSON.parse text = Throw e ->
  readerOnload text confirmed st
  = (Ok tt, logged (ConsoleError (ImportFailed e)) (logged (Alert importAlert) st)).
Proof.
  intros H. unfold readerOnload, tryCatch, bind, lift. rewrite H. reflexivity.
Qed.

Lemma readerOnload_not_array (text : string) (confirmed : bool) (st : State)
  (v : JSValue) :
  JSON.parse text = Ok v -> (forall elems, v <> JArr elems) ->
  readerOnload text confirmed st
  = (Ok tt,
     logged (ConsoleError (ImportFailed (GenericError "Invalid file format")))
       (logged (Alert importAlert) st)).
Proof.
  intros H Hv. unfold readerOnload, tryCatch, bind, lift. rewrite H.
  destruct v; try reflexivity. now destruct (Hv elems).
Qed.

Lemma readerOnload_declined (text : string) (st : State)
  (elems : list JSValue) :
  JSON.parse text = Ok (JArr elems) ->
  readerOnload text false st
  = (Ok tt, logged (Confirm (importPrompt (List.length elems)) false) st).
Proof.
  intros H. unfold readerOnload, tryCatch, bind, lift. rewrite H. reflexivity.
Qed.

Lemma readerOnload_confirmed (text : string) (st : State)
  (elems : list JSValue) :
  JSON.parse text = Ok (JArr elems) ->
  persisted
    (withTasks (JArr elems)
       (logged (Confirm (importPrompt (List.length elems)) true) st))
    (snd (readerOnload text true st)).
Proof.
  intros H. unfold readerOnload, tryCatch.
  unfold bind at 1, lift. rewrite H.
  unfold bind at 1, emit. unfold bind at 1, setTasks.
  set (st0 := withTasks (JArr elems) (logged _ st)).
  unfold persisted.
  destruct (saveTasksToStorage_trace st0) as (post & Htrace).
  pose proof (saveTasksToStorage_tasks st0) as Htasks.
  pose proof (saveTasksToStorage_returns st0) as Hret.
  destruct (saveTasksToStorage_queues st0) as [Ht Hr].
  unfold bind, callView, emit, getTasks, lift.
  destruct (saveTasksToStorage st0) as [o st1]. simpl in *. subst o.
  destruct (renderTasks st1) as [[]|e|];
    [destruct (updateStatistics st1) as [[]|e|]|..]; simpl;
    rewrite ?Htasks; simpl;
    repeat split; eauto; rewrite Htrace;
    eexists; rewrite <- !List.app_assoc; simpl; reflexivity.
Qed.

(** C1, as the code has it.  The import checks that the text parses and that
    the parsed value is an array, and nothing about its elements.  A text
    that does not parse, or that parses to something else than an array, is
    answered with the import alert and leaves [tasks] and the storage as they
    were.  An array is put to the user; when the user declines nothing
    changes, and when the user confirms [tasks] becomes that array, whatever
    its elements, and is written to the storage. *)
Theorem readerOnload_checks_array_only (text : string) (confirmed : bool)
  (st : State) :
  (forall e,
      JSON.parse text = Throw e ->
      readerOnload text confirmed st
      = (Ok tt,
         logged (ConsoleError (ImportFailed e)) (logged (Alert importAlert) st)))
  /\ (forall v,
        JSON.parse text = Ok v -> (forall elems, v <> JArr elems) ->
        readerOnload text confirmed st
        = (Ok tt,
           logged (ConsoleError (ImportFailed (GenericError "Invalid file format")))
             (logged (Alert importAlert) st)))
  /\ (forall elems,
        JSON.parse text = Ok (JArr elems) -> confirmed = false ->
        readerOnload text confirmed st
        = (Ok tt, logged (Confirm (importPrompt (List.length elems)) false) st))
  /\ (forall elems,
        JSON.parse text = Ok (JArr elems) -> confirmed = true ->
        persisted
          (withTasks (JArr elems)
             (logged (Confirm (importPrompt (List.length elems)) true) st))
          (snd (readerOnload text confirmed st))).
Proof.
  split; [|split; [|split]].
  - intros e H. now apply readerOnload_failed.
  - intros v H Hv. now apply readerOnload_not_array with v.
  - intros elems H ->. now apply readerOnload_declined.
  - intros elems H ->. now apply readerOnload_confirmed.
Qed.

(** ** Every assignment to [tasks] is followed by a write *)

Lemma persisted_written (st mid st' : State) (pre : list Event) :
  persisted mid st' ->
  localStorage mid = localStorage st ->
  trace mid = (trace st ++ pre)%list ->
  written st st'.
Proof.
  intros (Htasks & Hstore & _ & _ & post & Htrace) Hmid Hpre. split.
  - exists pre, post. rewrite Htrace, Hpre, Htasks, <- List.app_assoc. reflexivity.
  - rewrite Hstore, !saveTasksToStorage_storage. unfold fits. simpl.
    now rewrite Htasks, Hmid.
Qed.

Lemma asArray_inv (v : JSValue) (l : list JSValue) :
  asArray v = Ok l -> v = JArr l.
Proof. destruct v; simpl; congruence. Qed.

Lemma handleAddTask_turn (value : string) (now : Z) (createdAt : string)
  (st : State) :
  turn st (snd (handleAddTask value now createdAt st)).
Proof.
  destruct (String.eqb_spec (trim value) "") as [Hblank|Hne].
  { left. unfold handleAddTask. rewrite Hblank. reflexivity. }
  destruct (asArray (tasks st)) as [l|e|] eqn:Harr.
  - apply asArray_inv in Harr.
    destruct (arraySome (sameText (trim value)) l) as [[|]|e|] eqn:Hsome.
    + left. unfold handleAddTask. apply String.eqb_neq in Hne. rewrite Hne.
      unfold bind, getTasks, lift. rewrite Harr. simpl.
      change (fun task : JSValue => _) with (sameText (trim value)).
      now rewrite Hsome.
    + right. eapply persisted_written with (pre := []).
      * now apply (handleAddTask_appends value now createdAt st l).
      * reflexivity.
      * simpl. now rewrite List.app_nil_r.
    + left. unfold handleAddTask. apply String.eqb_neq in Hne. rewrite Hne.
      unfold bind, getTasks, lift. rewrite Harr. simpl.
      change (fun task : JSValue => _) with (sameText (trim value)).
      now rewrite Hsome.
    + left. unfold handleAddTask. apply String.eqb_neq in Hne. rewrite Hne.
      unfold bind, getTasks, lift. rewrite Harr. simpl.
      change (fun task : JSValue => _) with (sameText (trim value)).
      now rewrite Hsome.
  - left. unfold handleAddTask. apply String.eqb_neq in Hne. rewrite Hne.
    unfold bind, getTasks, lift. now rewrite Harr.
  - left. unfold handleAddTask. apply String.eqb_neq in Hne. rewrite Hne.
    unfold bind, getTasks, lift. now rewrite Harr.
Qed.

Lemma toggleTaskCompletion_turn (taskId : Z) (st : State) :
  turn st (snd (toggleTaskCompletion taskId st)).
Proof.
  unfold toggleTaskCompletion.
  unfold bind at 1, getTasks. unfold bind at 1, lift.
  destruct (asArray (tasks st)) as [l|e|]; [|now left..].
  unfold bind at 1.
  destruct (arrayFind _ 0 l) as [[[i task]|]|e|]; [|now left..].
  destruct (truthy (Some task)); [|now left].
  right. unfold bind at 1, setTasks.
  eapply persisted_written with (pre := []).
  - apply save_then_view.
  - reflexivity.
  - simpl. now rewrite List.app_nil_r.
Qed.

Lemma deleteTaskTimeout_turn (taskId : Z) (st : State) :
  turn st (snd (deleteTaskTimeout taskId st)).
Proof.
  unfold deleteTaskTimeout.
  unfold bind at 1, getTasks. unfold bind at 1, lift.
  destruct (asArray (tasks st)) as [l|e|]; [|now left..].
  unfold bind at 1.
  destruct (arrayFilter _ l) as [kept|e|]; [|now left..].
  right. unfold bind at 1, setTasks.
  eapply persisted_written with (pre := []).
  - apply save_then_view.
  - reflexivity.
  - simpl. now rewrite List.app_nil_r.
Qed.

Lemma handleClearCompleted_turn (confirmed : bool) (st : State) :
  turn st (snd (handleClearCompleted confirmed st)).
Proof.
  unfold handleClearCompleted.
  unfold bind at 1, getTasks. unfold bind at 1, lift.
  destruct (asArray (tasks st)) as [l|e|]; [|now left..].
  unfold bind at 1.
  destruct (arrayFilter _ l) as [done|e|]; [|now left..].
  destruct (List.length done =? 0)%nat; [now left|].
  unfold bind at 1, emit.
  destruct confirmed; [|now left].
  unfold bind at 1.
  destruct (arrayFilter _ l) as [kept|e|]; [|now left..].
  right. unfold bind at 1, setTasks.
  eapply persisted_written with (pre := [_]).
  - apply save_then_view.
  - reflexivity.
  - reflexivity.
Qed.

Lemma readerOnload_turn (text : string) (confirmed : bool) (st : State) :
  turn st (snd (readerOnload text confirmed st)).
Proof.
  destruct (JSON.parse text) as [v|e|] eqn:Hparse.
  - destruct v as [| | | |elems|];
      try (left; rewrite (readerOnload_not_array _ _ _ _ Hparse);
           [reflexivity|discriminate]).
    destruct confirmed.
    + right. eapply persisted_written with (pre := [_]).
      * exact (readerOnload_confirmed _ _ _ Hparse).
      * reflexivity.
      * reflexivity.
    + left. now rewrite (readerOnload_declined _ _ _ Hparse).
  - left. now rewrite (readerOnload_failed _ _ _ _ Hparse).
  - left. unfold readerOnload, tryCatch, bind, lift. now rewrite Hparse.
Qed.

Lemma turn_from (st st0 st' : State) :
  tasks st0 = tasks st -> localStorage st0 = localStorage st ->
  trace st0 = trace st ->
  turn st0 st' -> turn st st'.
Proof.
  intros Htasks Hstore Htrace [Hsame|[(pre & post & Hw) Hs]].
  - left. congruence.
  - right. split.
    + exists pre, post. now rewrite <- Htrace.
    + rewrite Hs, !saveTasksToStorage_storage. unfold fits. simpl.
      now rewrite Hstore.
Qed.

Lemma step_turn (op : Op) (st : State) : turn st (snd (step op st)).
Proof.
  destruct op as [value now createdAt|taskId|taskId found| |confirmed|text
                 |confirmed]; simpl.
  - apply handleAddTask_turn.
  - apply toggleTaskCompletion_turn.
  - left. destruct found; reflexivity.
  - destruct (timers st) as [|taskId rest]; [now left|].
    apply (turn_from st (withTimers rest st)); try reflexivity.
    apply deleteTaskTimeout_turn.
  - apply handleClearCompleted_turn.
  - now left.
  - destruct (readers st) as [|text rest]; [now left|].
    apply (turn_from st (withReaders rest st)); try reflexivity.
    apply readerOnload_turn.
Qed.

(** C3, as the code has it.  In every turn of add, toggle, delete, clear
    completed and import that changes [tasks] (the turns of [step]),
    [setItem] is called with the new collection before the turn ends.
    [handleAddTask], [toggleTaskCompletion] and [handleClearCompleted] do so
    before they return.  [deleteTask] and [importTasks] return without
    changing [tasks] or the storage: they only queue a callback, and the
    collection is changed and written when that callback runs.  The load at
    start-up and [clearAllData] are not among these operations. *)
Theorem mutation_written_in_its_turn (op : Op) (st : State) :
  (tasks (snd (step op st)) <> tasks st -> written st (snd (step op st)))
  /\ (forall taskId found,
        op = Delete taskId found ->
        tasks (snd (step op st)) = tasks st
        /\ localStorage (snd (step op st)) = localStorage st
        /\ timers (snd (step op st))
           = if found then (timers st ++ [taskId])%list else timers st)
  /\ (forall text,
        op = Import text ->
        tasks (snd (step op st)) = tasks st
        /\ localStorage (snd (step op st)) = localStorage st
        /\ trace (snd (step op st)) = trace st
        /\ readers (snd (step op st)) = (readers st ++ [text])%list).
Proof.
  split; [|split].
  - intros Hchanged. destruct (step_turn op st) as [Hsame|Hw]; [|exact Hw].
    contradiction.
  - intros taskId found ->. simpl. destruct found; auto.
  - intros text ->. simpl. auto.
Qed.

(** ** Identifiers *)

(** C2 at two calls that read the same [Date.now()].  [handleAddTask]
    takes the clock reading as the id and compares it with nothing, so two
    tasks added within one millisecond both succeed and carry the same id. *)
Theorem same_millisecond_adds_share_id (storage : Storage) (now : Z)
  (created1 created2 : string) :
  tasks (run [Add "Write report" now created1; Add "Call dentist" now created2]
           (fresh storage))
  = JArr [taskRecord now "Write report" created1;
          taskRecord now "Call dentist" created2]
  /\ ~ uniqueIds
         (tasks (run [Add "Write report" now created1;
                      Add "Call dentist" now created2] (fresh storage))).
Proof.
  assert (H1 : tasks (snd (handleAddTask "Write report" now created1
                             (fresh storage)))
               = JArr [taskRecord now "Write report" created1]).
  { destruct (handleAddTask_appends "Write report" now created1
                (fresh storage) []) as (H & _);
      [reflexivity|discriminate|reflexivity|exact H]. }
  assert (H2 : tasks (run [Add "Write report" now created1;
                           Add "Call dentist" now created2] (fresh storage))
               = JArr [taskRecord now "Write report" created1;
                       taskRecord now "Call dentist" created2]).
  { simpl run.
    destruct (handleAddTask_appends "Call dentist" now created2
                (snd (handleAddTask "Write report" now created1 (fresh storage)))
                [taskRecord now "Write report" created1]) as (H & _);
      [exact H1|discriminate|reflexivity|exact H]. }
  split; [exact H2|].
  rewrite H2. simpl. intros Hnodup. inversion Hnodup as [|? ? Hin _]; subst.
  apply Hin. left. reflexivity.
Qed.

(** ** What add, toggle and delete keep true *)

Lemma isTask_shape (v : JSValue) :
  isTask v = true -> v <> JNull /\ exists s, textOf v = Some s.
Proof.
  destruct v as [| | | | |props]; try discriminate. simpl. intros H.
  split; [discriminate|].
  destruct (lookup "id" props); [|discriminate].
  destruct (lookup "text" props) as [[| | |s| |]|]; try discriminate. eauto.
Qed.

Lemma arraySome_false_notin (taskText : string) (l : list JSValue) :
  Forall (fun v => isTask v = true) l ->
  arraySome (sameText taskText) l = Ok false ->
  ~ In (Some (toLowerCase taskText)) (map loweredText l).
Proof.
  induction 1 as [|x l Hx Hl IH]; simpl; [tauto|].
  destruct (isTask_shape x Hx) as [_ [s Hs]].
  rewrite (sameText_textOf _ _ _ Hs). simpl.
  destruct (toLowerCase s =? toLowerCase taskText)%string eqn:E;
    [discriminate|].
  intros Hrest [Hhead|Hin]; [|exact (IH Hrest Hin)].
  unfold loweredText in Hhead. rewrite Hs in Hhead. simpl in Hhead.
  injection Hhead as Hhead. rewrite Hhead, String.eqb_refl in E. discriminate.
Qed.

Lemma arrayFind_split (cb : JSValue -> Outcome bool) (l : list JSValue)
  (k i : nat) (task : JSValue) :
  arrayFind cb k l = Ok (Some (i, task)) ->
  exists pre post,
    l = (pre ++ task :: post)%list /\ i = k + List.length pre.
Proof.
  revert k. induction l as [|x l IH]; intros k; simpl; [discriminate|].
  destruct (cb x) as [[|]|e|]; simpl; try discriminate.
  - intros [= <- <-]. exists [], l. simpl. split; [reflexivity|lia].
  - intros H. destruct (IH _ H) as (pre & post & -> & ->).
    exists (x :: pre), post. simpl. split; [reflexivity|lia].
Qed.

Lemma arrayFilter_keeps (cb : JSValue -> Outcome bool) (l kept : list JSValue) :
  arrayFilter cb l = Ok kept ->
  kept = filter (fun v => match cb v with Ok b => b | _ => false end) l.
Proof.
  revert kept. induction l as [|x l IH]; intros kept; simpl.
  - now intros [= <-].
  - destruct (cb x) as [b|e|]; simpl; try discriminate.
    destruct (arrayFilter cb l) as [kept'|e|]; simpl; try discriminate.
    intros [= <-]. rewrite <- (IH kept' eq_refl). reflexivity.
Qed.

(** Each turn of add, toggle or delete changes a collection of tasks in one
    of the ways of [change]. *)
Lemma step_change (op : Op) (st : State) (l : list JSValue) :
  storeOp op = true -> tasks st = JArr l ->
  Forall (fun v => isTask v = true) l ->
  exists l', tasks (snd (step op st)) = JArr l' /\ change op l l'.
Proof.
  intros Hop Htasks Hall.
  destruct op as [value now createdAt|taskId|taskId found| |confirmed|text
                 |confirmed]; try discriminate Hop; simpl step.
  - destruct (String.eqb_spec (trim value) "") as [Hblank|Hne].
    { exists l. split; [|constructor]. unfold handleAddTask.
      rewrite Hblank. exact Htasks. }
    destruct (arraySome (sameText (trim value)) l) as [[|]|e|] eqn:Hsome.
    2:{ exists (l ++ [taskRecord now (trim value) createdAt])%list. split.
        - now destruct (handleAddTask_appends value now createdAt st l
                          Htasks Hne Hsome) as (H & _).
        - constructor. now apply arraySome_false_notin. }
    all: exists l; split; [|constructor]; unfold handleAddTask;
      apply String.eqb_neq in Hne; rewrite Hne;
      unfold bind, getTasks, lift; rewrite Htasks; simpl;
      change (fun task : JSValue => _) with (sameText (trim value));
      now rewrite Hsome.
  - unfold toggleTaskCompletion.
    unfold bind at 1, getTasks. rewrite Htasks. unfold bind at 1, lift, asArray.
    unfold bind at 1.
    destruct (arrayFind _ 0 l) as [[[i task]|]|e|] eqn:Hfind;
      try (exists l; split; [exact Htasks|constructor]).
    destruct (arrayFind_split _ _ _ _ _ Hfind) as (pre & post & -> & ->).
    destruct (truthy (Some task));
      [|exists (pre ++ task :: post)%list; split; [exact Htasks|constructor]].
    exists (pre ++ setCompleted task (negb (isCompleted task)) :: post)%list.
    split; [|constructor].
    unfold bind at 1, setTasks. simpl Nat.add. rewrite updateAt_middle.
    now destruct (save_then_view
                    (TaskToggled taskId (negb (truthy (lookupCompleted task))))
                    (withTasks
                       (JArr (pre ++ setCompleted task (negb (isCompleted task))
                                :: post)%list) st)) as (H & _).
  - exists l. split; [|constructor]. destruct found; exact Htasks.
  - destruct (timers st) as [|taskId rest]; [exists l; split; [exact Htasks|constructor]|].
    unfold deleteTaskTimeout.
    unfold bind at 1, getTasks. simpl tasks. rewrite Htasks.
    unfold bind at 1, lift, asArray. unfold bind at 1.
    destruct (arrayFilter _ l) as [kept|e|] eqn:Hkept;
      try (exists l; split; [exact Htasks|constructor]).
    exists kept. split.
    + unfold bind at 1, setTasks.
      now destruct (save_then_view (TaskDeleted taskId)
                      (withTasks (JArr kept) (withTimers rest st))) as (H & _).
    + rewrite (arrayFilter_keeps _ _ _ Hkept). constructor.
Qed.

Lemma setCompleted_text (task : JSValue) (b : bool) :
  textOf (setCompleted task b) = textOf task.
Proof.
  destruct task as [| | | | |props]; try reflexivity. simpl.
  now rewrite lookup_assign_other by discriminate.
Qed.

Lemma setCompleted_id (task : JSValue) (b : bool) :
  idOf (setCompleted task b) = idOf task.
Proof.
  destruct task as [| | | | |props]; try reflexivity. simpl.
  now rewrite lookup_assign_other by discriminate.
Qed.

Lemma setCompleted_isTask (task : JSValue) (b : bool) :
  isTask task = true -> isTask (setCompleted task b) = true.
Proof.
  destruct task as [| | | | |props]; try discriminate. simpl.
  rewrite !lookup_assign_other by discriminate. rewrite lookup_assign_same.
  destruct (lookup "id" props); [|discriminate].
  destruct (lookup "text" props) as [[| | |s| |]|]; try discriminate.
  reflexivity.
Qed.

Lemma NoDup_map_filter {A B : Type} (f : A -> B) (keep : A -> bool)
  (l : list A) :
  NoDup (map f l) -> NoDup (map f (filter keep l)).
Proof.
  induction l as [|x l IH]; simpl; [auto|].
  intros H. inversion H as [|? ? Hin Hrest]; subst.
  destruct (keep x); simpl; [|auto].
  constructor; [|auto].
  intros Hx. apply Hin. apply in_map_iff in Hx as (y & Hy & Hyin).
  apply filter_In in Hyin as [Hyin _]. apply in_map_iff. eauto.
Qed.

Lemma NoDup_map_snoc {A B : Type} (f : A -> B) (l : list A) (x : A) :
  NoDup (map f l) -> ~ In (f x) (map f l) -> NoDup (map f (l ++ [x])%list).
Proof.
  intros Hl Hx. rewrite map_app. simpl.
  induction (map f l) as [|y m IH]; simpl.
  - constructor; [tauto|constructor].
  - inversion Hl as [|? ? Hy Hm]; subst. constructor.
    + rewrite in_app_iff. simpl. intros [H|[H|[]]]; [tauto|].
      apply Hx. left. congruence.
    + apply IH; [exact Hm|]. intros H. apply Hx. now right.
Qed.

Lemma map_toggle {B : Type} (f : JSValue -> B) (pre : list JSValue)
  (task : JSValue) (post : list JSValue) (b : bool) :
  f (setCompleted task b) = f task ->
  map f (pre ++ setCompleted task b :: post)%list
  = map f (pre ++ task :: post)%list.
Proof. intros H. rewrite !map_app. simpl. now rewrite H. Qed.

Lemma change_distinctTexts (op : Op) (l l' : list JSValue) :
  change op l l' -> distinctTexts l -> distinctTexts l'.
Proof.
  intros Hc [Hall Hnd]. destruct Hc as [op l|value now createdAt l Hnew
                                       |taskId pre task post|keep l].
  - now split.
  - split.
    + apply Forall_app. split; [exact Hall|]. repeat constructor.
    + apply NoDup_map_snoc; [exact Hnd|exact Hnew].
  - split.
    + apply Forall_app in Hall as [Hpre Hrest].
      inversion Hrest as [|? ? Htask Hpost]; subst.
      apply Forall_app. split; [exact Hpre|].
      constructor; [now apply setCompleted_isTask|exact Hpost].
    + unfold loweredText in *.
      rewrite (map_toggle (fun v => option_map toLowerCase (textOf v)));
        [exact Hnd|now rewrite setCompleted_text].
  - split.
    + apply Forall_forall. intros v Hv. apply filter_In in Hv as [Hv _].
      rewrite Forall_forall in Hall. auto.
    + now apply NoDup_map_filter.
Qed.

Lemma run_distinctTexts (ops : list Op) (st : State) (l : list JSValue) :
  forallb storeOp ops = true -> tasks st = JArr l -> distinctTexts l ->
  exists l', tasks (run ops st) = JArr l' /\ distinctTexts l'.
Proof.
  revert st l. induction ops as [|op ops IH]; intros st l Hops Htasks Hinv.
  - exists l. now split.
  - simpl in Hops. apply andb_true_iff in Hops as [Hop Hops].
    destruct (step_change op st l Hop Htasks (proj1 Hinv)) as (l1 & H1 & Hc).
    simpl. apply (IH _ l1 Hops H1). now apply (change_distinctTexts op l).
Qed.

(** The text half of C2: after any sequence of add, toggle and delete turns
    on the empty collection, the collection is an array of task records no
    two of which have the same text up to case. *)
Theorem texts_stay_distinct (ops : list Op) (storage : Storage) :
  forallb storeOp ops = true ->
  isCollection (tasks (run ops (fresh storage))) = true
  /\ uniqueTexts (tasks (run ops (fresh storage))).
Proof.
  intros Hops.
  destruct (run_distinctTexts ops (fresh storage) [] Hops eq_refl)
    as (l & Hl & Hall & Hnd).
  { split; constructor. }
  rewrite Hl. split; [|exact Hnd].
  simpl. apply forallb_forall. rewrite Forall_forall in Hall. exact Hall.
Qed.

Lemma distinctIds_later (t t' : Z) (l : list JSValue) :
  (t <= t')%Z -> distinctIds t l -> distinctIds t' l.
Proof.
  intros Ht [Hall Hnd]. split; [|exact Hnd].
  eapply Forall_impl; [|exact Hall]. intros v (n & Hn & Hle).
  exists n. split; [exact Hn|lia].
Qed.

Lemma change_distinctIds (op : Op) (l l' : list JSValue) (t : Z) :
  change op l l' -> distinctIds t l ->
  match op with
  | Add _ now _ => (t < now)%Z -> distinctIds now l'
  | _ => distinctIds t l'
  end.
Proof.
  intros Hc [Hall Hnd]. destruct Hc as [op l|value now createdAt l Hnew
                                       |taskId pre task post|keep l].
  - destruct op; try (now split).
    intros Ht. apply (distinctIds_later t); [lia|now split].
  - intros Ht. split.
    + apply Forall_app. split.
      * eapply Forall_impl; [|exact Hall]. intros v (n & Hn & Hle).
        exists n. split; [exact Hn|lia].
      * repeat constructor. exists now. split; [reflexivity|lia].
    + apply NoDup_map_snoc; [exact Hnd|].
      intros Hin. apply in_map_iff in Hin as (v & Hv & Hvin).
      rewrite Forall_forall in Hall. destruct (Hall v Hvin) as (n & Hn & Hle).
      simpl in Hv. rewrite Hn in Hv. injection Hv as Hv. lia.
  - split.
    + apply Forall_app in Hall as [Hpre Hrest].
      inversion Hrest as [|? ? Htask Hpost]; subst.
      apply Forall_app. split; [exact Hpre|].
      constructor; [now rewrite setCompleted_id|exact Hpost].
    + rewrite (map_toggle idOf); [exact Hnd|apply setCompleted_id].
  - split.
    + apply Forall_forall. intros v Hv. apply filter_In in Hv as [Hv _].
      rewrite Forall_forall in Hall. auto.
    + now apply NoDup_map_filter.
Qed.

Lemma run_distinctIds (ops : list Op) (st : State) (l : list JSValue) (t : Z) :
  forallb storeOp ops = true -> clockAdvances t ops ->
  tasks st = JArr l -> distinctTexts l -> distinctIds t l ->
  exists l', tasks (run ops st) = JArr l' /\ NoDup (map idOf l').
Proof.
  revert st l t. induction ops as [|op ops IH];
    intros st l t Hops Hclock Htasks Htexts Hids.
  - exists l. split; [exact Htasks|exact (proj2 Hids)].
  - simpl in Hops. apply andb_true_iff in Hops as [Hop Hops].
    destruct (step_change op st l Hop Htasks (proj1 Htexts)) as (l1 & H1 & Hc).
    pose proof (change_distinctTexts op l l1 Hc Htexts) as Htexts1.
    pose proof (change_distinctIds op l l1 t Hc Hids) as Hids1.
    simpl run.
    destruct op as [value now createdAt|taskId|taskId found| |confirmed|text
                   |confirmed]; try discriminate Hop; simpl in Hclock.
    + destruct Hclock as [Ht Hclock].
      exact (IH _ l1 now Hops Hclock H1 Htexts1 (Hids1 Ht)).
    + exact (IH _ l1 t Hops Hclock H1 Htexts1 Hids1).
    + exact (IH _ l1 t Hops Hclock H1 Htexts1 Hids1).
    + exact (IH _ l1 t Hops Hclock H1 Htexts1 Hids1).
Qed.

(** The id half of C2 under the assumption the code leaves to the clock:
    when every add reads a [Date.now()] later than the adds before it, no two
    tasks share an id. *)
Theorem ids_distinct_when_clock_advances (ops : list Op) (storage : Storage)
  (t : Z) :
  forallb storeOp ops = true -> clockAdvances t ops ->
  uniqueIds (tasks (run ops (fresh storage))).
Proof.
  intros Hops Hclock.
  destruct (run_distinctIds ops (fresh storage) [] t Hops Hclock eq_refl)
    as (l & Hl & Hnd).
  - split; constructor.
  - split; constructor.
  - rewrite Hl. exact Hnd.
Qed.

End ScriptFacts.

(** ** Facts about the indented serialisation *)

Module JSONIndentFacts.

Import JSON.
#[local] Open Scope outcome_scope.

Lemma skipSpace_idem (s : string) : skipSpace (skipSpace s) = skipSpace s.
Proof.
  induction s as [|c s IH]; simpl; [reflexivity|].
  destruct (isJSONSpace c) eqn:E; [exact IH|]. simpl. now rewrite E.
Qed.

Lemma skipSpace_blank (ws t : string) :
  JSONIndent.blank ws = true -> skipSpace (ws ++ t) = skipSpace t.
Proof.
  induction ws as [|c ws IH]; simpl; [reflexivity|].
  intros H. apply andb_true_iff in H as [Hc Hws]. rewrite Hc. auto.
Qed.

Lemma parseValue_skipSpace (strict : bool) (fuel : nat) (s : string) :
  parseValue strict fuel (skipSpace s) = parseValue strict fuel s.
Proof.
  destruct fuel as [|fuel]; [reflexivity|].
  simpl. now rewrite skipSpace_idem.
Qed.

Lemma parseValue_blank (strict : bool) (fuel : nat) (ws t : string) :
  JSONIndent.blank ws = true ->
  parseValue strict fuel (ws ++ t) = parseValue strict fuel t.
Proof.
  intros H. rewrite <- parseValue_skipSpace, (skipSpace_blank ws t H).
  apply parseValue_skipSpace.
Qed.

Lemma blank_append (a b : string) :
  JSONIndent.blank a = true -> JSONIndent.blank b = true ->
  JSONIndent.blank (a ++ b) = true.
Proof.
  induction a as [|c a IH]; simpl; [auto|].
  intros H Hb. apply andb_true_iff in H as [Hc Ha]. rewrite Hc. auto.
Qed.

Lemma blank_line (indent : string) :
  JSONIndent.blank indent = true ->
  JSONIndent.blank (String JSONIndent.newline indent) = true.
Proof. intros H. simpl. exact H. Qed.

Lemma indented_opens (indent : string) (v : JSValue) (rest : string) :
  opensValue (JSONIndent.stringify indent v ++ rest).
Proof.
  destruct v as [|b|n|s|[|x l]|[|kv m]];
    try (apply (JSONFacts.stringify_opens _ rest));
    unfold opensValue; simpl; eauto 6.
Qed.

Lemma indented_length (indent : string) (v : JSValue) :
  1 <= String.length (JSONIndent.stringify indent v).
Proof.
  destruct (indented_opens indent v "") as (c & t & H & _).
  rewrite append_empty_r in H. rewrite H. simpl. lia.
Qed.

Lemma concat_sep_cons2 (sep a b : string) (l : list string) :
  String.concat sep (a :: b :: l) = a ++ sep ++ String.concat sep (b :: l).
Proof. reflexivity. Qed.

Lemma concat_sep_length_elem {A : Type} (sep : string) (f : A -> string)
  (l : list A) :
  Forall (fun x => String.length (f x)
                   <= String.length (String.concat sep (map f l))) l.
Proof.
  induction l as [|x [|y l] IH]; simpl map in *; constructor.
  - simpl. lia.
  - constructor.
  - rewrite concat_sep_cons2, length_append. lia.
  - rewrite concat_sep_cons2, !length_append.
    eapply Forall_impl; [|exact IH]. simpl. intros; lia.
Qed.

Lemma concat_sep_length_count {A : Type} (sep : string) (f : A -> string)
  (l : list A) :
  (forall x, 1 <= String.length (f x)) ->
  List.length l <= String.length (String.concat sep (map f l)).
Proof.
  intros Hf. induction l as [|x [|y l] IH]; simpl map in *; [simpl; lia| |].
  - simpl. apply Hf.
  - rewrite concat_sep_cons2, !length_append.
    pose proof (Hf x). simpl List.length in *. lia.
Qed.

Lemma endsNumber_blank (ws : string) (c : ascii) (rest : string) :
  JSONIndent.blank ws = true ->
  endsNumber (String c rest) = true ->
  endsNumber (ws ++ String c rest) = true.
Proof.
  destruct ws as [|w ws]; simpl; [auto|].
  intros H _. apply andb_true_iff in H as [Hw _].
  destruct w as [[] [] [] [] [] [] [] []]; try discriminate Hw; reflexivity.
Qed.

Lemma skipSpace_closing (ws : string) (c : ascii) (rest : string) :
  JSONIndent.blank ws = true -> isJSONSpace c = false ->
  skipSpace (ws ++ String c rest) = String c rest.
Proof.
  intros H Hc. rewrite (skipSpace_blank ws _ H). simpl. now rewrite Hc.
Qed.

(** The elements of an indented array: [ws] is the line break before each
    element, [ws'] the one before the closing bracket. *)
Lemma parseElements_indented pv (inner ws ws' : string) (l : list JSValue) :
  Forall (JSONIndent.readsBack pv inner) l -> l <> [] ->
  JSONIndent.blank ws = true -> JSONIndent.blank ws' = true ->
  forall n rest, List.length l <= n ->
  parseElements pv n
    (ws ++ String.concat (String "," ws) (map (JSONIndent.stringify inner) l)
        ++ ws' ++ String "]" rest)
  = Ok (l, rest).
Proof.
  intros Hall Hne Hws Hws'.
  induction Hall as [|x l Hx Hl IH]; [congruence|]. clear Hne.
  intros n rest Hn. destruct n as [|n]; [simpl in Hn; lia|].
  destruct l as [|y l'].
  - simpl map. simpl String.concat. simpl parseElements.
    rewrite (Hx ws _ Hws) by (now apply endsNumber_blank).
    simpl obind. rewrite (skipSpace_closing ws' "]" rest Hws') by reflexivity.
    reflexivity.
  - simpl map. rewrite concat_sep_cons2, !append_assoc.
    simpl parseElements.
    change (String "," ws ++ String.concat (String "," ws)
              (JSONIndent.stringify inner y :: map (JSONIndent.stringify inner) l')
            ++ ws' ++ String "]" rest)
      with (String "," (ws ++ String.concat (String "," ws)
              (map (JSONIndent.stringify inner) (y :: l'))
            ++ ws' ++ String "]" rest)).
    rewrite (Hx ws _ Hws) by reflexivity. simpl obind. simpl skipSpace.
    cbv iota. simpl Ascii.eqb. cbv iota.
    rewrite IH; [reflexivity|congruence|]. simpl in Hn |- *. lia.
Qed.

Lemma parseMembers_indented (strict : bool) pv (inner ws ws' : string)
  (m : list (string * JSValue)) :
  Forall (fun kv => JSONIndent.readsBack pv inner (snd kv)) m -> m <> [] ->
  JSONIndent.blank ws = true -> JSONIndent.blank ws' = true ->
  forall n rest, List.length m <= n ->
  parseMembers strict pv n
    (ws ++ String.concat (String "," ws) (map (JSONIndent.member inner) m)
        ++ ws' ++ String "}" rest)
  = Ok (m, rest).
Proof.
  intros Hall Hne Hws Hws'.
  induction Hall as [|[k v] m Hx Hl IH]; [congruence|]. clear Hne.
  intros n rest Hn. destruct n as [|n]; [simpl in Hn; lia|].
  simpl in Hx.
  assert (Hv : forall rest, endsNumber rest = true ->
               pv (String " " (JSONIndent.stringify inner v ++ rest))
               = Ok (v, rest)).
  { intros rest' Hrest'. exact (Hx " " rest' eq_refl Hrest'). }
  destruct m as [|y m'].
  - simpl map. simpl String.concat. unfold JSONIndent.member.
    simpl fst. simpl snd.
    rewrite !append_assoc, JSONFacts.quote_append.
    simpl parseMembers. rewrite (skipSpace_blank ws _ Hws).
    simpl. rewrite JSONFacts.parseChars_escape. simpl.
    rewrite Hv by (now apply endsNumber_blank).
    simpl obind. rewrite (skipSpace_closing ws' "}" rest Hws') by reflexivity.
    reflexivity.
  - simpl map. rewrite concat_sep_cons2. unfold JSONIndent.member at 1.
    simpl fst. simpl snd.
    rewrite !append_assoc, JSONFacts.quote_append.
    simpl parseMembers. rewrite (skipSpace_blank ws _ Hws).
    simpl. rewrite JSONFacts.parseChars_escape. simpl.
    rewrite Hv by reflexivity. simpl.
    rewrite IH; [reflexivity|congruence|]. simpl in Hn |- *. lia.
Qed.

(** [parseValue] reads back the indented serialisation. *)
Lemma parseValue_indented (strict : bool) (v : JSValue) :
  jsonSafe v = true ->
  forall indent fuel rest,
    JSONIndent.blank indent = true ->
    String.length (JSONIndent.stringify indent v) <= fuel ->
    endsNumber rest = true ->
    parseValue strict fuel (JSONIndent.stringify indent v ++ rest)
    = Ok (v, rest).
Proof.
  induction v as [|b|n|s|l IH|m IH] using JSValue_nested_ind;
    intros Hsafe indent fuel rest Hindent Hfuel Hend;
    try (now apply JSONFacts.parseValue_stringify).
  - destruct l as [|x l'].
    { destruct fuel as [|fuel]; [simpl in Hfuel; lia|reflexivity]. }
    destruct fuel as [|fuel];
      [pose proof (indented_length indent (JArr (x :: l'))); lia|].
    assert (Hinner : JSONIndent.blank (indent ++ JSONIndent.gap) = true)
      by (apply blank_append; [exact Hindent|reflexivity]).
    change (JSONIndent.stringify indent (JArr (x :: l')))
      with (String "["
              (String JSONIndent.newline (indent ++ JSONIndent.gap)
               ++ String.concat
                    (String "," (String JSONIndent.newline
                                   (indent ++ JSONIndent.gap)))
                    (map (JSONIndent.stringify (indent ++ JSONIndent.gap))
                       (x :: l'))
               ++ String JSONIndent.newline indent ++ "]")) in Hfuel |- *.
    remember (indent ++ JSONIndent.gap) as inner eqn:Einner.
    pose proof (blank_line inner Hinner) as Hws.
    pose proof (blank_line indent Hindent) as Hws'.
    remember (String JSONIndent.newline inner) as ws eqn:Ews.
    remember (String JSONIndent.newline indent) as ws' eqn:Ews'.
    assert (Hopen : opensValue
              (String.concat (String "," ws)
                 (map (JSONIndent.stringify inner) (x :: l'))
               ++ ws' ++ String "]" rest)).
    { destruct l' as [|y l'']; simpl map.
      - apply indented_opens.
      - rewrite concat_sep_cons2, append_assoc. apply indented_opens. }
    remember (x :: l') as l eqn:El.
    assert (Hne : l <> []) by (subst l; congruence).
    pose proof (concat_sep_length_count (String "," ws)
                  (JSONIndent.stringify inner) l (indented_length inner))
      as Hcount.
    pose proof (concat_sep_length_elem (String "," ws)
                  (JSONIndent.stringify inner) l) as Helem.
    simpl String.length in Hfuel. rewrite !length_append in Hfuel.
    assert (Hread : Forall (JSONIndent.readsBack (parseValue strict fuel) inner) l).
    { simpl in Hsafe. rewrite forallb_forall in Hsafe.
      rewrite Forall_forall in IH, Helem |- *.
      intros y Hy blanks rest' Hblanks Hrest'.
      rewrite (parseValue_blank strict fuel blanks _ Hblanks).
      apply IH; auto. specialize (Helem y Hy). simpl in Helem. lia. }
    simpl append. rewrite !append_assoc. simpl append.
    remember (String.concat (String "," ws) (map (JSONIndent.stringify inner) l)
              ++ ws' ++ String "]" rest) as body eqn:Eb.
    assert (E : skipSpace (ws ++ body) = body).
    { rewrite (skipSpace_blank ws body Hws).
      now apply JSONFacts.skipSpace_opens. }
    destruct Hopen as (c & t & Hb & _ & Hc).
    simpl parseValue. rewrite E. rewrite Hb at 1. rewrite Hc. subst body.
    rewrite parseElements_indented; auto.
    rewrite !length_append. lia.
  - destruct m as [|x m'].
    { destruct fuel as [|fuel]; [simpl in Hfuel; lia|reflexivity]. }
    destruct fuel as [|fuel];
      [pose proof (indented_length indent (JObj (x :: m'))); lia|].
    assert (Hinner : JSONIndent.blank (indent ++ JSONIndent.gap) = true)
      by (apply blank_append; [exact Hindent|reflexivity]).
    change (JSONIndent.stringify indent (JObj (x :: m')))
      with (String "{"
              (String JSONIndent.newline (indent ++ JSONIndent.gap)
               ++ String.concat
                    (String "," (String JSONIndent.newline
                                   (indent ++ JSONIndent.gap)))
                    (map (JSONIndent.member (indent ++ JSONIndent.gap))
                       (x :: m'))
               ++ String JSONIndent.newline indent ++ "}")) in Hfuel |- *.
    remember (indent ++ JSONIndent.gap) as inner eqn:Einner.
    pose proof (blank_line inner Hinner) as Hws.
    pose proof (blank_line indent Hindent) as Hws'.
    remember (String JSONIndent.newline inner) as ws eqn:Ews.
    remember (String JSONIndent.newline indent) as ws' eqn:Ews'.
    assert (Hopen : exists t,
              String.concat (String "," ws) (map (JSONIndent.member inner) (x :: m'))
              ++ ws' ++ String "}" rest = String dquote t).
    { destruct m' as [|y m'']; simpl map.
      - simpl String.concat. unfold JSONIndent.member.
        rewrite !append_assoc, JSONFacts.quote_append. eauto.
      - rewrite concat_sep_cons2. unfold JSONIndent.member at 1.
        rewrite !append_assoc, JSONFacts.quote_append. eauto. }
    remember (x :: m') as m eqn:Em.
    assert (Hne : m <> []) by (subst m; congruence).
    assert (Hmem : forall kv, 1 <= String.length (JSONIndent.member inner kv)).
    { intros kv. unfold JSONIndent.member, quote. simpl. lia. }
    pose proof (concat_sep_length_count (String "," ws)
                  (JSONIndent.member inner) m Hmem) as Hcount.
    pose proof (concat_sep_length_elem (String "," ws)
                  (JSONIndent.member inner) m) as Helem.
    simpl String.length in Hfuel. rewrite !length_append in Hfuel.
    simpl in Hsafe. apply andb_true_iff in Hsafe as [Hkeys Hsafe].
    assert (Hread : Forall (fun kv => JSONIndent.readsBack (parseValue strict fuel)
                                        inner (snd kv)) m).
    { rewrite forallb_forall in Hsafe.
      rewrite Forall_forall in IH, Helem |- *.
      intros y Hy blanks rest' Hblanks Hrest'.
      rewrite (parseValue_blank strict fuel blanks _ Hblanks).
      apply IH; auto. specialize (Helem y Hy). cbv beta in Helem.
      change (JSONIndent.member inner y)
        with (quote (fst y) ++ ": " ++ JSONIndent.stringify inner (snd y))
        in Helem.
      rewrite !length_append in Helem. lia. }
    simpl append. rewrite !append_assoc. simpl append.
    remember (String.concat (String "," ws) (map (JSONIndent.member inner) m)
              ++ ws' ++ String "}" rest) as body eqn:Eb.
    destruct Hopen as (t & Hb).
    assert (E : skipSpace (ws ++ body) = body).
    { rewrite (skipSpace_blank ws body Hws). rewrite Hb. reflexivity. }
    simpl parseValue. rewrite E. rewrite Hb at 1. simpl. subst body.
    rewrite parseMembers_indented; auto.
    + simpl. now rewrite Hkeys.
    + rewrite !length_append. lia.
Qed.

Lemma parseText_indented (strict : bool) (v : JSValue) :
  jsonSafe v = true -> parseText strict (JSONIndent.stringify "" v) = Ok v.
Proof.
  intros Hsafe. unfold parseText.
  rewrite <- (append_empty_r (JSONIndent.stringify "" v)) at 2.
  rewrite parseValue_indented by (auto; reflexivity).
  reflexivity.
Qed.

(** [JSON.parse (JSON.stringify (v, null, 2))] is [v] on the values of the
    model. *)
Lemma parse_indented (v : JSValue) :
  jsonSafe v = true -> parse (JSONIndent.stringify "" v) = Ok v.
Proof.
  intros Hsafe. unfold parse. now rewrite !parseText_indented.
Qed.

End JSONIndentFacts.

(** ** The rest of script.js *)

Section MoreFacts.

Context {page : View}.

#[local] Open Scope js_scope.

(** *** Callbacks on elements that are not [null] *)

Lemma whenCompleted_isCompleted (task : JSValue) :
  task <> JNull -> whenCompleted task = Ok (isCompleted task).
Proof. destruct task; intros H; try reflexivity. congruence. Qed.

Lemma whenPending_isCompleted (task : JSValue) :
  task <> JNull -> whenPending task = Ok (negb (isCompleted task)).
Proof. destruct task; intros H; try reflexivity. congruence. Qed.

Lemma arrayFilter_whenCompleted (l : list JSValue) :
  Forall (fun v => v <> JNull) l ->
  arrayFilter whenCompleted l = Ok (filter isCompleted l).
Proof.
  intros Hall. apply arrayFilter_pure. eapply Forall_impl; [|exact Hall].
  intros v Hv. now apply whenCompleted_isCompleted.
Qed.

Lemma arrayFilter_whenPending (l : list JSValue) :
  Forall (fun v => v <> JNull) l ->
  arrayFilter whenPending l = Ok (filter (fun v => negb (isCompleted v)) l).
Proof.
  intros Hall. apply arrayFilter_pure. eapply Forall_impl; [|exact Hall].
  intros v Hv. now apply whenPending_isCompleted.
Qed.

Lemma arrayFilter_idIs (taskId : Z) (l : list JSValue) :
  Forall (fun v => v <> JNull) l ->
  arrayFilter
    (fun task =>
       obind (getProp task "id") (fun id => Ok (negb (strictEquals id taskId))))
    l
  = Ok (filter (fun v => negb (hasId taskId v)) l).
Proof.
  intros Hall. apply arrayFilter_pure. eapply Forall_impl; [|exact Hall].
  intros v Hv. destruct v; try reflexivity. congruence.
Qed.

Lemma arraySome_pure (cb : JSValue -> Outcome bool) (f : JSValue -> bool)
  (l : list JSValue) :
  Forall (fun v => cb v = Ok (f v)) l -> arraySome cb l = Ok (existsb f l).
Proof.
  induction 1 as [|x l Hx Hl IH]; simpl; [reflexivity|].
  rewrite Hx. simpl. destruct (f x); [reflexivity|exact IH].
Qed.

Lemma arraySome_whenCompleted (l : list JSValue) :
  Forall (fun v => v <> JNull) l ->
  arraySome whenCompleted l = Ok (existsb isCompleted l).
Proof.
  intros Hall. apply arraySome_pure. eapply Forall_impl; [|exact Hall].
  intros v Hv. now apply whenCompleted_isCompleted.
Qed.

Lemma filter_none (f : JSValue -> bool) (l : list JSValue) :
  existsb f l = false <-> List.length (filter f l) = 0.
Proof.
  induction l as [|x l IH]; simpl; [tauto|].
  destruct (f x); simpl; [split; [discriminate|lia]|exact IH].
Qed.

Lemma filter_filter_none (f : JSValue -> bool) (l : list JSValue) :
  filter f (filter (fun v => negb (f v)) l) = [].
Proof.
  induction l as [|x l IH]; simpl; [reflexivity|].
  destruct (f x) eqn:E; simpl; [exact IH|now rewrite E].
Qed.

Lemma filter_idem (f : JSValue -> bool) (l : list JSValue) :
  filter f (filter f l) = filter f l.
Proof.
  induction l as [|x l IH]; simpl; [reflexivity|].
  destruct (f x) eqn:E; simpl; [now rewrite E, IH|exact IH].
Qed.

Lemma filter_not_null (f : JSValue -> bool) (l : list JSValue) :
  Forall (fun v => v <> JNull) l -> Forall (fun v => v <> JNull) (filter f l).
Proof.
  intros Hall. rewrite Forall_forall in Hall |- *.
  intros v Hv. apply filter_In in Hv. now apply Hall.
Qed.

(** [filter] with a callback that completes on every element it meets. *)
Lemma arrayFilter_idem (cb : JSValue -> Outcome bool) (l kept : list JSValue) :
  arrayFilter cb l = Ok kept -> arrayFilter cb kept = Ok kept.
Proof.
  revert kept. induction l as [|x l IH]; intros kept; simpl.
  - now intros [= <-].
  - destruct (cb x) as [b|e|] eqn:Hx; simpl; try discriminate.
    destruct (arrayFilter cb l) as [kept'|e|]; simpl; try discriminate.
    intros [= <-]. destruct b; [|now apply IH].
    simpl. rewrite Hx. simpl. now rewrite (IH kept' eq_refl).
Qed.

Lemma arrayFilter_complement (l done : list JSValue) :
  arrayFilter whenCompleted l = Ok done ->
  exists todo,
    arrayFilter whenPending l = Ok todo
    /\ List.length done + List.length todo = List.length l
    /\ arrayFilter whenPending done = Ok []
    /\ arrayFilter whenCompleted todo = Ok [].
Proof.
  revert done. induction l as [|x l IH]; intros done; simpl.
  - intros [= <-]. exists []. auto.
  - destruct (getProp x "completed") as [c|e|] eqn:Hx;
      try (unfold whenCompleted at 1; rewrite Hx; discriminate).
    assert (Hc : whenCompleted x = Ok (truthy c))
      by (unfold whenCompleted; now rewrite Hx).
    assert (Hp : whenPending x = Ok (negb (truthy c)))
      by (unfold whenPending; now rewrite Hx).
    rewrite Hc, Hp. simpl.
    destruct (arrayFilter whenCompleted l) as [done'|e|]; simpl;
      try discriminate.
    intros [= <-]. destruct (IH done' eq_refl) as (todo & -> & Hlen & Hd & Ht).
    simpl. destruct (truthy c) eqn:Htruthy; simpl.
    + exists todo. rewrite Hp, Hd. simpl. repeat split; auto.
    + exists (x :: todo). simpl. rewrite Hc, Ht. simpl.
      repeat split; auto. lia.
Qed.

(** *** What a handler leaves in [tasks] after its write *)

Lemma saved_tasks (m : Message) (st : State) :
  tasks (snd ((saveTasksToStorage ;;; callView renderTasks ;;;
               callView updateStatistics ;;; emit (ConsoleLog m)) st))
  = tasks st.
Proof. now destruct (save_then_view m st) as (H & _). Qed.

Lemma handleClearCompleted_cases (confirmed : bool) (st : State)
  (l : list JSValue) :
  tasks st = JArr l ->
  Forall (fun v => v <> JNull) l ->
  let n := List.length (filter isCompleted l) in
  let asked := logged (Confirm (clearPrompt n) confirmed) st in
  handleClearCompleted confirmed st
  = if (n =? 0)%nat then (Ok tt, logged (Alert "No completed tasks to clear!") st)
    else if confirmed then
      (saveTasksToStorage ;;; callView renderTasks ;;;
       callView updateStatistics ;;; emit (ConsoleLog (ClearedCompleted n)))
        (withTasks (JArr (filter (fun v => negb (isCompleted v)) l)) asked)
    else (Ok tt, asked).
Proof.
  intros Htasks Hall n asked. unfold handleClearCompleted.
  unfold bind at 1, getTasks. rewrite Htasks. unfold bind at 1, lift, asArray.
  unfold bind at 1.
  change (fun task : JSValue => obind (getProp task "completed")
                                  (fun c => Ok (truthy c)))
    with whenCompleted.
  rewrite (arrayFilter_whenCompleted l Hall). fold n.
  destruct (n =? 0)%nat; [reflexivity|].
  unfold bind at 1, emit. destruct confirmed; [|reflexivity].
  unfold bind at 1.
  change (fun task : JSValue => obind (getProp task "completed")
                                  (fun c => Ok (negb (truthy c))))
    with whenPending.
  rewrite (arrayFilter_whenPending l Hall).
  unfold bind at 1, setTasks. reflexivity.
Qed.

(** X1. The [switch] of [renderTasks] splits a collection in two: the
    completed view and the pending view are the completed and the other
    tasks, each in the order of the collection; every task is in exactly one
    of them; any other filter value shows the collection itself. *)
Theorem filteredTasks_partitions (l : list JSValue) :
  Forall (fun v => v <> JNull) l ->
  let done := filter isCompleted l in
  let todo := filter (fun v => negb (isCompleted v)) l in
  filteredTasks "completed" (JArr l) = Ok (JArr done)
  /\ filteredTasks "pending" (JArr l) = Ok (JArr todo)
  /\ List.length done + List.length todo = List.length l
  /\ (forall task, In task l -> (In task done <-> ~ In task todo))
  /\ (forall currentFilter ts,
        currentFilter <> "completed" -> currentFilter <> "pending" ->
        filteredTasks currentFilter ts = Ok ts).
Proof.
  intros Hall done todo. split; [|split; [|split; [|split]]].
  - unfold filteredTasks. simpl.
    now rewrite (arrayFilter_whenCompleted l Hall).
  - unfold filteredTasks. simpl.
    now rewrite (arrayFilter_whenPending l Hall).
  - apply filter_length_split.
  - intros task Hin. subst done todo. rewrite !filter_In.
    destruct (isCompleted task); simpl; split.
    + intros _ [_ H]. discriminate.
    + auto.
    + intros [_ H]. discriminate.
    + intros H. exfalso. apply H. auto.
  - intros currentFilter ts Hc Hp. unfold filteredTasks.
    apply String.eqb_neq in Hc, Hp. now rewrite Hc, Hp.
Qed.

(** X2. Filtering what [renderTasks] shows once more, with the same filter,
    shows the same list; the completed view holds nothing for the pending
    view and the other way round.  This holds for every value of [tasks] on
    which the filter completes. *)
Theorem filteredTasks_idempotent (currentFilter : string) (ts shown : JSValue) :
  filteredTasks currentFilter ts = Ok shown ->
  filteredTasks currentFilter shown = Ok shown
  /\ (currentFilter = "completed" ->
      filteredTasks "pending" shown = Ok (JArr []))
  /\ (currentFilter = "pending" ->
      filteredTasks "completed" shown = Ok (JArr [])).
Proof.
  unfold filteredTasks.
  destruct (currentFilter =? "completed")%string eqn:Ec.
  - apply String.eqb_eq in Ec. subst currentFilter. simpl.
    destruct ts as [| | | |l|]; simpl; try discriminate.
    destruct (arrayFilter whenCompleted l) as [done|e|] eqn:Hdone; simpl;
      try discriminate.
    intros [= <-]. simpl. rewrite (arrayFilter_idem _ _ _ Hdone).
    destruct (arrayFilter_complement _ _ Hdone) as (todo & _ & _ & Hd & _).
    rewrite Hd. repeat split; auto. discriminate.
  - destruct (currentFilter =? "pending")%string eqn:Ep.
    + apply String.eqb_eq in Ep. subst currentFilter. simpl.
      destruct ts as [| | | |l|]; simpl; try discriminate.
      destruct (arrayFilter whenPending l) as [todo|e|] eqn:Htodo; simpl;
        try discriminate.
      intros [= <-]. simpl. rewrite (arrayFilter_idem _ _ _ Htodo).
      assert (Hdone : exists done, arrayFilter whenCompleted l = Ok done).
      { clear -Htodo. revert todo Htodo.
        induction l as [|x l IH]; intros todo; simpl; [eauto|].
        unfold whenCompleted at 1, whenPending at 1.
        destruct (getProp x "completed") as [c|e|]; simpl; try discriminate.
        destruct (arrayFilter whenPending l) as [todo'|e|]; simpl;
          try discriminate.
        destruct (IH todo' eq_refl) as (done & ->). simpl. eauto. }
      destruct Hdone as (done & Hdone).
      destruct (arrayFilter_complement _ _ Hdone) as (todo' & Ht & _ & _ & Hn).
      rewrite Htodo in Ht. injection Ht as <-. rewrite Hn.
      repeat split; auto. discriminate.
    + intros [= <-]. repeat split; auto; intros ->; discriminate.
Qed.

(** X3. The numbers of [updateStatistics]: whenever it computes them,
    [tasks] is an array, the total is its length, the completed count is the
    length of the completed view, and the pending count, computed as their
    difference, is the length of the pending view; so completed and pending
    add up to the total.  It computes them for every array without a [null]
    element. *)
Theorem statistics_count_the_views :
  (forall ts s,
      statistics ts = Ok s ->
      exists l done todo,
        ts = JArr l
        /\ filteredTasks "completed" ts = Ok (JArr done)
        /\ filteredTasks "pending" ts = Ok (JArr todo)
        /\ total s = Z.of_nat (List.length l)
        /\ completed s = Z.of_nat (List.length done)
        /\ pending s = Z.of_nat (List.length todo)
        /\ (completed s + pending s = total s)%Z)
  /\ (forall l,
        Forall (fun v => v <> JNull) l -> exists s, statistics (JArr l) = Ok s).
Proof.
  split.
  - intros ts s. unfold statistics.
    destruct ts as [| | | |l|props]; simpl; try discriminate.
    destruct (arrayFilter whenCompleted l) as [done|e|] eqn:Hdone; simpl;
      try discriminate.
    intros [= <-].
    destruct (arrayFilter_complement _ _ Hdone) as (todo & Htodo & Hlen & _).
    exists l, done, todo. unfold filteredTasks. simpl.
    rewrite Hdone, Htodo. simpl. repeat split; lia.
  - intros l Hall. unfold statistics. simpl.
    rewrite (arrayFilter_whenCompleted l Hall). simpl. eauto.
Qed.

(** X4. [updateClearButtonVisibility] agrees with the other two readings of
    the completed tasks: on an array without a [null] element the clear
    button is displayed exactly when the completed view of [renderTasks] is
    not empty, and exactly when the completed count of [updateStatistics] is
    positive. *)
Theorem clear_button_follows_completed_view (l : list JSValue) :
  Forall (fun v => v <> JNull) l ->
  exists shown s,
    hasCompletedTasks (JArr l) = Ok shown
    /\ emptyStateShown "completed" (JArr l) = Ok (negb shown)
    /\ statistics (JArr l) = Ok s
    /\ (0 <? completed s)%Z = shown.
Proof.
  intros Hall. exists (existsb isCompleted l).
  unfold hasCompletedTasks, emptyStateShown, filteredTasks, statistics. simpl.
  rewrite (arraySome_whenCompleted l Hall), (arrayFilter_whenCompleted l Hall).
  simpl. eexists. split; [reflexivity|]. split; [|split; [reflexivity|]].
  - f_equal. simpl.
    destruct (existsb isCompleted l) eqn:E; simpl.
    + apply Z.eqb_neq. intros H.
      assert (List.length (filter isCompleted l) = 0) as H0 by lia.
      apply filter_none in H0. congruence.
    + apply filter_none in E. now rewrite E.
  - simpl. destruct (existsb isCompleted l) eqn:E.
    + apply Z.ltb_lt.
      destruct (List.length (filter isCompleted l)) eqn:En; [|lia].
      apply filter_none in En. congruence.
    + apply filter_none in E. now rewrite E.
Qed.

(** X5. The empty state of [renderTasks] follows the counts of
    [updateStatistics]: on an array without a [null] element it is shown
    under the completed filter exactly when the completed count is zero,
    under the pending filter exactly when the pending count is zero, and
    under any other filter exactly when the total is zero. *)
Theorem empty_state_follows_counts (l : list JSValue) :
  Forall (fun v => v <> JNull) l ->
  exists s,
    statistics (JArr l) = Ok s
    /\ emptyStateShown "completed" (JArr l) = Ok (completed s =? 0)%Z
    /\ emptyStateShown "pending" (JArr l) = Ok (pending s =? 0)%Z
    /\ forall currentFilter,
         currentFilter <> "completed" -> currentFilter <> "pending" ->
         emptyStateShown currentFilter (JArr l) = Ok (total s =? 0)%Z.
Proof.
  intros Hall. unfold statistics, emptyStateShown, filteredTasks. simpl.
  rewrite (arrayFilter_whenCompleted l Hall), (arrayFilter_whenPending l Hall).
  simpl. eexists. split; [reflexivity|]. simpl.
  split; [reflexivity|]. split.
  - do 2 f_equal. pose proof (filter_length_split isCompleted l). lia.
  - intros currentFilter Hc Hp. apply String.eqb_neq in Hc, Hp.
    now rewrite Hc, Hp.
Qed.

(** X6. The clear button and its handler agree: when
    [updateClearButtonVisibility] hides the button, [handleClearCompleted]
    only alerts that there is nothing to clear and leaves the state as it
    was; when it displays the button, the handler asks the user to confirm
    the removal of the completed tasks, naming their number. *)
Theorem clear_button_matches_handler (confirmed : bool) (st : State)
  (l : list JSValue) :
  tasks st = JArr l ->
  Forall (fun v => v <> JNull) l ->
  (hasCompletedTasks (tasks st) = Ok false ->
   handleClearCompleted confirmed st
   = (Ok tt, logged (Alert "No completed tasks to clear!") st))
  /\ (hasCompletedTasks (tasks st) = Ok true ->
      let n := List.length (filter isCompleted l) in
      0 < n
      /\ exists post,
           trace (snd (handleClearCompleted confirmed st))
           = (trace st ++ Confirm (clearPrompt n) confirmed :: post)%list).
Proof.
  intros Htasks Hall. rewrite Htasks.
  change (hasCompletedTasks (JArr l)) with (arraySome whenCompleted l).
  rewrite (arraySome_whenCompleted l Hall).
  rewrite (handleClearCompleted_cases confirmed st l Htasks Hall).
  split; intros [= Hb].
  - apply filter_none in Hb. now rewrite Hb.
  - intros n. fold n.
    assert (Hn : 0 < n).
    { destruct n eqn:En; [|lia]. apply filter_none in En. congruence. }
    split; [exact Hn|].
    destruct (Nat.eqb_spec n 0) as [E|_]; [lia|].
    destruct confirmed.
    + destruct (save_then_view (ClearedCompleted n)
                  (withTasks (JArr (filter (fun v => negb (isCompleted v)) l))
                     (logged (Confirm (clearPrompt n) true) st)))
        as (_ & _ & _ & _ & post & Htrace).
      rewrite Htrace. simpl. rewrite <- List.app_assoc. simpl. eauto.
    + exists []. reflexivity.
Qed.

(** X7. After a confirmed [handleClearCompleted] the collection is the
    pending view of the collection before: no completed task is left, the
    completed view is empty, the clear button is hidden, and a second
    [handleClearCompleted] finds nothing to clear. *)
Theorem confirmed_clear_leaves_pending_view (st : State) (l : list JSValue) :
  tasks st = JArr l ->
  Forall (fun v => v <> JNull) l ->
  hasCompletedTasks (tasks st) = Ok true ->
  let st' := snd (handleClearCompleted true st) in
  filteredTasks "pending" (tasks st) = Ok (tasks st')
  /\ filteredTasks "completed" (tasks st') = Ok (JArr [])
  /\ hasCompletedTasks (tasks st') = Ok false
  /\ forall confirmed,
       handleClearCompleted confirmed st'
       = (Ok tt, logged (Alert "No completed tasks to clear!") st').
Proof.
  intros Htasks Hall Hshown st'.
  set (kept := filter (fun v => negb (isCompleted v)) l).
  assert (Hkept : Forall (fun v => v <> JNull) kept)
    by now apply filter_not_null.
  assert (Hnone : filter isCompleted kept = [])
    by apply filter_filter_none.
  assert (Hst' : tasks st' = JArr kept).
  { subst st'. rewrite (handleClearCompleted_cases true st l Htasks Hall).
    rewrite Htasks in Hshown. unfold hasCompletedTasks in Hshown.
    simpl in Hshown. rewrite (arraySome_whenCompleted l Hall) in Hshown.
    injection Hshown as Hshown.
    destruct (Nat.eqb_spec (List.length (filter isCompleted l)) 0) as [E|_].
    - apply filter_none in E. congruence.
    - now rewrite saved_tasks. }
  rewrite Hst', Htasks. split; [|split; [|split]].
  - unfold filteredTasks. simpl. now rewrite (arrayFilter_whenPending l Hall).
  - unfold filteredTasks. simpl.
    now rewrite (arrayFilter_whenCompleted kept Hkept), Hnone.
  - unfold hasCompletedTasks. simpl.
    rewrite (arraySome_whenCompleted kept Hkept). f_equal.
    apply filter_none. now rewrite Hnone.
  - intros confirmed.
    rewrite (handleClearCompleted_cases confirmed st' kept Hst' Hkept).
    now rewrite Hnone.
Qed.

(** *** Finding, toggling and deleting by id *)

(** Either no element has the id, or there is a first one that has it. *)
Lemma first_with_id (taskId : Z) (l : list JSValue) :
  forallb (fun v => negb (hasId taskId v)) l = true
  \/ exists pre task post,
       l = (pre ++ task :: post)%list
       /\ forallb (fun v => negb (hasId taskId v)) pre = true
       /\ hasId taskId task = true.
Proof.
  induction l as [|x l IH]; simpl; [now left|].
  destruct (hasId taskId x) eqn:Hx; simpl.
  - right. exists [], x, l. auto.
  - destruct IH as [Hnone|(pre & task & post & -> & Hpre & Htask)];
      [now left|].
    right. exists (x :: pre), task, post. simpl. rewrite Hx. auto.
Qed.

Lemma forallb_filter_id (f : JSValue -> bool) (l : list JSValue) :
  forallb f l = true -> filter f l = l.
Proof.
  induction l as [|x l IH]; simpl; [reflexivity|].
  intros H. apply andb_true_iff in H as [Hx Hl]. now rewrite Hx, IH.
Qed.

Lemma forallb_filter (f : JSValue -> bool) (l : list JSValue) :
  forallb f (filter f l) = true.
Proof.
  induction l as [|x l IH]; simpl; [reflexivity|].
  destruct (f x) eqn:E; simpl; [now rewrite E|exact IH].
Qed.

Lemma getTaskById_none (id : Z) (st : State) (l : list JSValue) :
  tasks st = JArr l ->
  Forall (fun v => v <> JNull) l ->
  forallb (fun v => negb (hasId id v)) l = true ->
  getTaskById id st = (Ok None, st).
Proof.
  intros Htasks Hall Hnone. unfold getTaskById.
  unfold bind at 1, getTasks. rewrite Htasks. unfold bind at 1, lift, asArray.
  unfold bind at 1. change (fun task : JSValue => _) with (idIs id).
  now rewrite (arrayFind_none _ _ _ Hall Hnone).
Qed.

Lemma getTaskById_found (id : Z) (st : State) (pre : list JSValue)
  (task : JSValue) (post : list JSValue) :
  tasks st = JArr (pre ++ task :: post) ->
  Forall (fun v => v <> JNull) (pre ++ task :: post) ->
  forallb (fun v => negb (hasId id v)) pre = true ->
  hasId id task = true ->
  getTaskById id st = (Ok (Some task), st).
Proof.
  intros Htasks Hall Hpre Htask. unfold getTaskById.
  unfold bind at 1, getTasks. rewrite Htasks. unfold bind at 1, lift, asArray.
  unfold bind at 1. change (fun task : JSValue => _) with (idIs id).
  now rewrite (arrayFind_first _ _ _ _ _ Hall Hpre Htask).
Qed.

Lemma getTaskById_inv (id : Z) (st : State) (l : list JSValue)
  (task : JSValue) :
  tasks st = JArr l ->
  Forall (fun v => v <> JNull) l ->
  fst (getTaskById id st) = Ok (Some task) ->
  exists pre post,
    l = (pre ++ task :: post)%list
    /\ forallb (fun v => negb (hasId id v)) pre = true
    /\ hasId id task = true.
Proof.
  intros Htasks Hall Hget.
  destruct (first_with_id id l)
    as [Hnone|(pre & task' & post & -> & Hpre & Htask)].
  - rewrite (getTaskById_none id st l Htasks Hall Hnone) in Hget. discriminate.
  - rewrite (getTaskById_found id st pre task' post Htasks Hall Hpre Htask)
      in Hget.
    injection Hget as <-. eauto.
Qed.

Lemma toggleTaskCompletion_none (taskId : Z) (st : State) (l : list JSValue) :
  tasks st = JArr l ->
  Forall (fun v => v <> JNull) l ->
  forallb (fun v => negb (hasId taskId v)) l = true ->
  toggleTaskCompletion taskId st = (Ok tt, st).
Proof.
  intros Htasks Hall Hnone. unfold toggleTaskCompletion.
  unfold bind at 1, getTasks. rewrite Htasks. unfold bind at 1, lift, asArray.
  unfold bind at 1. change (fun task : JSValue => _) with (idIs taskId).
  now rewrite (arrayFind_none _ _ _ Hall Hnone).
Qed.

Lemma toggleTaskCompletion_found (taskId : Z) (st : State)
  (pre : list JSValue) (task : JSValue) (post : list JSValue) :
  tasks st = JArr (pre ++ task :: post) ->
  Forall (fun v => v <> JNull) (pre ++ task :: post) ->
  forallb (fun v => negb (hasId taskId v)) pre = true ->
  hasId taskId task = true ->
  tasks (snd (toggleTaskCompletion taskId st))
  = JArr (pre ++ setCompleted task (negb (isCompleted task)) :: post).
Proof.
  intros Htasks Hall Hpre Htask. unfold toggleTaskCompletion.
  unfold bind at 1, getTasks. rewrite Htasks. unfold bind at 1, lift, asArray.
  unfold bind at 1. change (fun task : JSValue => _) with (idIs taskId).
  rewrite (arrayFind_first _ _ _ _ _ Hall Hpre Htask).
  change (0 + List.length pre) with (List.length pre).
  assert (Htruthy : truthy (Some task) = true)
    by (destruct task; try discriminate Htask; reflexivity).
  rewrite Htruthy. unfold bind at 1, setTasks.
  rewrite updateAt_middle. now rewrite saved_tasks.
Qed.

Lemma deleteTaskTimeout_tasks (taskId : Z) (st : State) (l : list JSValue) :
  tasks st = JArr l ->
  Forall (fun v => v <> JNull) l ->
  tasks (snd (deleteTaskTimeout taskId st))
  = JArr (filter (fun v => negb (hasId taskId v)) l).
Proof.
  intros Htasks Hall. unfold deleteTaskTimeout.
  unfold bind at 1, getTasks. rewrite Htasks. unfold bind at 1, lift, asArray.
  unfold bind at 1. rewrite (arrayFilter_idIs taskId l Hall).
  unfold bind at 1, setTasks. now rewrite saved_tasks.
Qed.

Lemma hasId_setCompleted (taskId : Z) (task : JSValue) (b : bool) :
  hasId taskId (setCompleted task b) = hasId taskId task.
Proof.
  destruct task as [| | | | |props]; try reflexivity. simpl.
  now rewrite lookup_assign_other by discriminate.
Qed.

Lemma isCompleted_setCompleted (taskId : Z) (task : JSValue) (b : bool) :
  hasId taskId task = true -> isCompleted (setCompleted task b) = b.
Proof.
  destruct task as [| | | | |props]; try discriminate. intros _.
  unfold isCompleted. simpl. now rewrite lookup_assign_same.
Qed.

Lemma setCompleted_not_null (task : JSValue) (b : bool) :
  task <> JNull -> setCompleted task b <> JNull.
Proof. destruct task; simpl; congruence. Qed.

Lemma assign_assign (k : string) (v w : JSValue)
  (props : list (string * JSValue)) :
  assign k w (assign k v props) = assign k w props.
Proof.
  induction props as [|[k' v'] props IH]; simpl.
  - now rewrite String.eqb_refl.
  - destruct (k' =? k)%string eqn:E; simpl; rewrite E; [reflexivity|].
    now rewrite IH.
Qed.

Lemma assign_present (k : string) (v : JSValue)
  (props : list (string * JSValue)) :
  lookup k props = Some v -> assign k v props = props.
Proof.
  induction props as [|[k' v'] props IH]; simpl; [discriminate|].
  destruct (k' =? k)%string eqn:E.
  - now intros [= ->].
  - intros H. now rewrite IH.
Qed.

(** Toggling a task record twice gives the record back. *)
Lemma setCompleted_twice (task : JSValue) :
  isTask task = true ->
  let toggled := setCompleted task (negb (isCompleted task)) in
  setCompleted toggled (negb (isCompleted toggled)) = task.
Proof.
  destruct task as [| | | | |props]; try discriminate. simpl. intros H.
  destruct (lookup "id" props); [|discriminate].
  destruct (lookup "text" props) as [[| | |s| |]|]; try discriminate.
  destruct (lookup "completed" props) as [[|b| | | |]|] eqn:Hc;
    try discriminate.
  unfold isCompleted. simpl. rewrite Hc, lookup_assign_same. simpl.
  rewrite negb_involutive, assign_assign. f_equal.
  now apply assign_present.
Qed.

(** X8. [getTaskById] answers the first task of the collection whose [id]
    is the one asked for, and [undefined] exactly when no task has it; it
    leaves the state as it was. *)
Theorem getTaskById_first_match (id : Z) (st : State) (l : list JSValue) :
  tasks st = JArr l ->
  Forall (fun v => v <> JNull) l ->
  snd (getTaskById id st) = st
  /\ (forall task,
        fst (getTaskById id st) = Ok (Some task)
        <-> exists pre post,
              l = (pre ++ task :: post)%list
              /\ forallb (fun v => negb (hasId id v)) pre = true
              /\ hasId id task = true)
  /\ (fst (getTaskById id st) = Ok None
      <-> forallb (fun v => negb (hasId id v)) l = true).
Proof.
  intros Htasks Hall. split; [|split].
  - destruct (first_with_id id l)
      as [Hnone|(pre & task & post & -> & Hpre & Htask)].
    + now rewrite (getTaskById_none id st l Htasks Hall Hnone).
    + now rewrite (getTaskById_found id st pre task post Htasks Hall Hpre Htask).
  - intros task. split.
    + now apply getTaskById_inv.
    + intros (pre & post & -> & Hpre & Htask).
      now rewrite (getTaskById_found id st pre task post Htasks Hall Hpre Htask).
  - split.
    + intros Hget.
      destruct (first_with_id id l)
        as [Hnone|(pre & task & post & -> & Hpre & Htask)]; [exact Hnone|].
      rewrite (getTaskById_found id st pre task post Htasks Hall Hpre Htask)
        in Hget.
      discriminate.
    + intros Hnone. now rewrite (getTaskById_none id st l Htasks Hall Hnone).
Qed.

(** X9. Toggling the same id twice gives back the collection, for a
    collection of task records ([completed] a boolean): the second toggle
    finds the task the first one flipped and flips it back. *)
Theorem toggle_twice_restores (taskId : Z) (st : State) (l : list JSValue) :
  tasks st = JArr l ->
  Forall (fun v => isTask v = true) l ->
  tasks (snd (toggleTaskCompletion taskId
                (snd (toggleTaskCompletion taskId st))))
  = tasks st.
Proof.
  intros Htasks Htask.
  assert (Hall : Forall (fun v => v <> JNull) l).
  { eapply Forall_impl; [|exact Htask]. intros v Hv.
    now destruct (isTask_shape v Hv). }
  destruct (first_with_id taskId l)
    as [Hnone|(pre & task & post & -> & Hpre & Hid)].
  - rewrite (toggleTaskCompletion_none taskId st l Htasks Hall Hnone). simpl.
    now rewrite (toggleTaskCompletion_none taskId st l Htasks Hall Hnone).
  - pose proof (toggleTaskCompletion_found taskId st pre task post
                  Htasks Hall Hpre Hid) as Hfirst.
    set (toggled := setCompleted task (negb (isCompleted task))) in *.
    assert (Hall' : Forall (fun v => v <> JNull) (pre ++ toggled :: post)).
    { apply Forall_app in Hall as [Ha Hb]. apply Forall_app. split; [exact Ha|].
      inversion Hb; subst. constructor; [|assumption].
      now apply setCompleted_not_null. }
    assert (Hid' : hasId taskId toggled = true)
      by (subst toggled; now rewrite hasId_setCompleted).
    rewrite (toggleTaskCompletion_found taskId _ pre toggled post
               Hfirst Hall' Hpre Hid').
    rewrite Htasks. subst toggled. rewrite setCompleted_twice; [reflexivity|].
    apply Forall_app in Htask as [_ Hb]. now inversion Hb.
Qed.

(** X10. Toggling moves one task between the counts of [updateStatistics]:
    when [getTaskById] finds a task for the id, the toggle leaves the total
    as it was and changes the completed count by one, down when the task
    found was completed and up when it was not. *)
Theorem toggle_moves_one_task (taskId : Z) (st : State) (l : list JSValue)
  (task : JSValue) :
  tasks st = JArr l ->
  Forall (fun v => v <> JNull) l ->
  fst (getTaskById taskId st) = Ok (Some task) ->
  exists s s',
    statistics (tasks st) = Ok s
    /\ statistics (tasks (snd (toggleTaskCompletion taskId st))) = Ok s'
    /\ total s' = total s
    /\ completed s'
       = if isCompleted task then (completed s - 1)%Z else (completed s + 1)%Z.
Proof.
  intros Htasks Hall Hget.
  destruct (getTaskById_inv taskId st l task Htasks Hall Hget)
    as (pre & post & -> & Hpre & Hid).
  rewrite (toggleTaskCompletion_found taskId st pre task post
             Htasks Hall Hpre Hid).
  rewrite Htasks.
  set (toggled := setCompleted task (negb (isCompleted task))).
  assert (Hall' : Forall (fun v => v <> JNull) (pre ++ toggled :: post)).
  { apply Forall_app in Hall as [Ha Hb]. apply Forall_app. split; [exact Ha|].
    inversion Hb; subst. constructor; [|assumption].
    now apply setCompleted_not_null. }
  unfold statistics. simpl getLength. simpl asArray. cbv beta iota delta [obind].
  rewrite (arrayFilter_whenCompleted _ Hall), (arrayFilter_whenCompleted _ Hall').
  do 2 eexists. split; [reflexivity|]. split; [reflexivity|]. simpl.
  rewrite !filter_app, !length_app. simpl.
  assert (Ht : isCompleted toggled = negb (isCompleted task))
    by (subst toggled; now apply (isCompleted_setCompleted taskId)).
  rewrite Ht. destruct (isCompleted task); simpl; rewrite ?length_app; simpl;
    split; lia.
Qed.

(** X11. The timer of [deleteTask] removes every task that has the id and
    keeps the others in their order; afterwards [getTaskById] finds no task
    for the id, and a second timer for the same id removes nothing. *)
Theorem deleteTaskTimeout_removes_id (taskId : Z) (st : State)
  (l : list JSValue) :
  tasks st = JArr l ->
  Forall (fun v => v <> JNull) l ->
  let st' := snd (deleteTaskTimeout taskId st) in
  tasks st' = JArr (filter (fun v => negb (hasId taskId v)) l)
  /\ fst (getTaskById taskId st') = Ok None
  /\ tasks (snd (deleteTaskTimeout taskId st')) = tasks st'.
Proof.
  intros Htasks Hall st'.
  set (kept := filter (fun v => negb (hasId taskId v)) l).
  assert (Hkept : Forall (fun v => v <> JNull) kept)
    by now apply filter_not_null.
  assert (Hst' : tasks st' = JArr kept)
    by apply (deleteTaskTimeout_tasks taskId st l Htasks Hall).
  split; [exact Hst'|]. split.
  - rewrite (getTaskById_none taskId st' kept Hst' Hkept); [reflexivity|].
    apply forallb_filter.
  - rewrite (deleteTaskTimeout_tasks taskId st' kept Hst' Hkept), Hst'.
    f_equal. apply forallb_filter_id, forallb_filter.
Qed.

(** X12. The delete gesture as a whole: with no other timer pending,
    [deleteTask] followed by its timer removes the tasks with the id and
    leaves no timer behind; until the timer runs the collection is
    untouched; and when the page holds no element for the task,
    [deleteTask] starts no timer, so nothing is removed. *)
Theorem delete_gesture_removes_after_timeout (taskId : Z) (st : State)
  (l : list JSValue) :
  tasks st = JArr l ->
  Forall (fun v => v <> JNull) l ->
  timers st = [] ->
  tasks (run [Delete taskId true] st) = tasks st
  /\ tasks (run [Delete taskId true; Timeout] st)
     = JArr (filter (fun v => negb (hasId taskId v)) l)
  /\ timers (run [Delete taskId true; Timeout] st) = []
  /\ run [Delete taskId false; Timeout] st = st.
Proof.
  intros Htasks Hall Htimers. split; [reflexivity|]. split; [|split].
  - simpl. rewrite Htimers. simpl.
    now apply deleteTaskTimeout_tasks.
  - simpl. rewrite Htimers. simpl. unfold deleteTaskTimeout.
    unfold bind at 1, getTasks. simpl tasks. rewrite Htasks.
    unfold bind at 1, lift, asArray.
    unfold bind at 1. rewrite (arrayFilter_idIs taskId l Hall).
    unfold bind at 1, setTasks.
    match goal with
    | |- timers (snd (_ ?s)) = _ =>
        destruct (save_then_view (TaskDeleted taskId) s) as (_ & _ & Ht & _)
    end.
    exact Ht.
  - simpl. now rewrite Htimers.
Qed.

(** *** Adding *)

Lemma trimStart_blank_prefix (ws s : string) :
  allWhiteSpace ws = true -> trimStart (ws ++ s) = trimStart s.
Proof.
  induction ws as [|c ws IH]; simpl; [reflexivity|].
  intros H. apply andb_true_iff in H as [Hc Hws]. rewrite Hc. now apply IH.
Qed.

Lemma trimEnd_blank_suffix (s ws : string) :
  allWhiteSpace ws = true -> trimEnd (s ++ ws) = trimEnd s.
Proof.
  intros Hws. induction s as [|c s IH]; simpl.
  - now apply trimEnd_allWhiteSpace.
  - now rewrite IH.
Qed.

Lemma trim_blank_around (before s after : string) :
  allWhiteSpace before = true -> allWhiteSpace after = true ->
  trim (before ++ s ++ after) = trim s.
Proof.
  intros Hb Ha. unfold trim. rewrite (trimStart_blank_prefix _ _ Hb).
  induction s as [|c s IH].
  - simpl. now rewrite (trimStart_allWhiteSpace after Ha).
  - change (String c s ++ after) with (String c (s ++ after)).
    cbn [trimStart]. destruct (isWhiteSpace c); [exact IH|].
    change (String c (s ++ after)) with (String c s ++ after).
    now apply trimEnd_blank_suffix.
Qed.

Lemma trimStart_allWhiteSpace_same (s : string) :
  allWhiteSpace (trimStart s) = allWhiteSpace s.
Proof.
  induction s as [|c s IH]; simpl; [reflexivity|].
  destruct (isWhiteSpace c) eqn:Hc; simpl; [exact IH|now rewrite Hc].
Qed.

Lemma trimEnd_empty (s : string) : trimEnd s = "" -> allWhiteSpace s = true.
Proof.
  induction s as [|c s IH]; simpl; [reflexivity|].
  destruct (isWhiteSpace c); simpl; [|discriminate].
  destruct (trimEnd s) as [|c' r]; simpl; [auto|discriminate].
Qed.

Lemma trim_nonblank (s : string) : allWhiteSpace s = false -> trim s <> "".
Proof.
  intros H Hempty. unfold trim in Hempty. apply trimEnd_empty in Hempty.
  rewrite trimStart_allWhiteSpace_same in Hempty. congruence.
Qed.

Lemma trimStart_head (s : string) (c : ascii) (r : string) :
  trimStart s = String c r -> isWhiteSpace c = false.
Proof.
  induction s as [|a s IH]; simpl; [discriminate|].
  destruct (isWhiteSpace a) eqn:Ha; [exact IH|].
  now intros [= <- _].
Qed.

Lemma trimEnd_last (s : string) (c : ascii) :
  lastChar (trimEnd s) = Some c -> isWhiteSpace c = false.
Proof.
  induction s as [|a s IH]; simpl; [discriminate|].
  destruct (trimEnd s) as [|b r] eqn:Hr.
  - destruct (isWhiteSpace a) eqn:Ha; simpl; [discriminate|].
    now intros [= <-].
  - rewrite andb_false_r. exact IH.
Qed.

Lemma trim_trimmed (s : string) : trimmed (trim s).
Proof.
  split; intros c; [|apply trimEnd_last].
  unfold trim. destruct (trimStart s) as [|a r] eqn:Hs; [discriminate|].
  pose proof (trimStart_head s a r Hs) as Ha.
  simpl. rewrite Ha. simpl. now intros [= <-].
Qed.

Lemma arraySome_sameText_none (taskText : string) (l : list JSValue) :
  Forall (fun v => isTask v = true) l ->
  ~ In (Some (toLowerCase taskText)) (map loweredText l) ->
  arraySome (sameText taskText) l = Ok false.
Proof.
  induction 1 as [|x l Hx Hl IH]; simpl; [reflexivity|].
  intros Hnot. destruct (isTask_shape x Hx) as [_ [s Hs]].
  rewrite (sameText_textOf _ _ _ Hs). simpl.
  destruct (String.eqb_spec (toLowerCase s) (toLowerCase taskText)) as [E|_].
  - exfalso. apply Hnot. left. unfold loweredText. rewrite Hs. simpl.
    now rewrite E.
  - apply IH. tauto.
Qed.

Lemma isTask_not_null (l : list JSValue) :
  Forall (fun v => isTask v = true) l -> Forall (fun v => v <> JNull) l.
Proof.
  intros H. eapply Forall_impl; [|exact H]. intros v Hv.
  now destruct (isTask_shape v Hv).
Qed.

Lemma handleAddTask_tasks (value : string) (now : Z) (createdAt : string)
  (st : State) (l : list JSValue) :
  tasks st = JArr l ->
  Forall (fun v => isTask v = true) l ->
  allWhiteSpace value = false ->
  ~ In (Some (toLowerCase (trim value))) (map loweredText l) ->
  persisted
    (withTasks (JArr (l ++ [taskRecord now (trim value) createdAt])%list) st)
    (snd (handleAddTask value now createdAt st)).
Proof.
  intros Htasks Hall Hvalue Hnew.
  apply handleAddTask_appends; [exact Htasks|now apply trim_nonblank|].
  now apply arraySome_sameText_none.
Qed.

(** X13. A successful add: for an input that is not blank and whose
    trimmed text differs, up to case, from the text of every task,
    [handleAddTask] appends exactly one record and writes the new
    collection.  The record carries the clock reading as [id] and the
    trimmed input as [text], which is not empty and neither starts nor ends
    with white space; it is pending, so the total of [updateStatistics] goes
    up by one and the completed count stays. *)
Theorem handleAddTask_appends_trimmed_record (value : string) (now : Z)
  (createdAt : string) (st : State) (l : list JSValue) :
  tasks st = JArr l ->
  Forall (fun v => isTask v = true) l ->
  allWhiteSpace value = false ->
  ~ In (Some (toLowerCase (trim value))) (map loweredText l) ->
  let st' := snd (handleAddTask value now createdAt st) in
  let task := taskRecord now (trim value) createdAt in
  tasks st' = JArr (l ++ [task])
  /\ written st st'
  /\ trim value <> "" /\ trimmed (trim value)
  /\ isTask task = true /\ isCompleted task = false
  /\ exists s s',
       statistics (tasks st) = Ok s /\ statistics (tasks st') = Ok s'
       /\ total s' = (total s + 1)%Z /\ completed s' = completed s
       /\ pending s' = (pending s + 1)%Z.
Proof.
  intros Htasks Hall Hvalue Hnew st' task.
  pose proof (handleAddTask_tasks value now createdAt st l
                Htasks Hall Hvalue Hnew) as Hp.
  assert (Hst' : tasks st' = JArr (l ++ [task])) by now destruct Hp as (H & _).
  split; [exact Hst'|]. split.
  { eapply persisted_written with (pre := []); [exact Hp|reflexivity|].
    simpl. now rewrite List.app_nil_r. }
  split; [now apply trim_nonblank|]. split; [apply trim_trimmed|].
  split; [reflexivity|]. split; [reflexivity|].
  pose proof (isTask_not_null l Hall) as Hnn.
  assert (Hnn' : Forall (fun v => v <> JNull) (l ++ [task])).
  { apply Forall_app. split; [exact Hnn|]. constructor; [discriminate|constructor]. }
  rewrite Hst', Htasks. unfold statistics. simpl getLength. simpl asArray.
  cbv beta iota delta [obind].
  rewrite (arrayFilter_whenCompleted _ Hnn), (arrayFilter_whenCompleted _ Hnn').
  do 2 eexists. split; [reflexivity|]. split; [reflexivity|]. simpl.
  rewrite filter_app, !length_app. simpl. repeat split; lia.
Qed.

(** X14. White space around the input makes no difference to
    [handleAddTask]: the outcome and the state it leaves are those for the
    input without it. *)
Theorem handleAddTask_ignores_surrounding_space (before value after : string)
  (now : Z) (createdAt : string) (st : State) :
  allWhiteSpace before = true -> allWhiteSpace after = true ->
  handleAddTask (before ++ value ++ after) now createdAt st
  = handleAddTask value now createdAt st.
Proof.
  intros Hb Ha. unfold handleAddTask.
  now rewrite (trim_blank_around before value after Hb Ha).
Qed.

(** X15. Adding a task and then deleting it by the id it was given restores
    the collection, provided no task had that id before. *)
Theorem add_then_delete_restores (value : string) (now : Z)
  (createdAt : string) (st : State) (l : list JSValue) :
  tasks st = JArr l ->
  Forall (fun v => isTask v = true) l ->
  allWhiteSpace value = false ->
  ~ In (Some (toLowerCase (trim value))) (map loweredText l) ->
  forallb (fun v => negb (hasId now v)) l = true ->
  let added := snd (handleAddTask value now createdAt st) in
  tasks added <> tasks st
  /\ tasks (snd (deleteTaskTimeout now added)) = tasks st.
Proof.
  intros Htasks Hall Hvalue Hnew Hfresh added.
  pose proof (handleAddTask_tasks value now createdAt st l
                Htasks Hall Hvalue Hnew) as (Hadded & _).
  fold added in Hadded. simpl in Hadded. split.
  - rewrite Hadded, Htasks. intros [= H].
    apply (f_equal (@List.length JSValue)) in H. rewrite length_app in H.
    simpl in H. lia.
  - rewrite (deleteTaskTimeout_tasks now added _ Hadded).
    + rewrite Htasks, filter_app, (forallb_filter_id _ l Hfresh). simpl.
      rewrite Z.eqb_refl. simpl. now rewrite List.app_nil_r.
    + apply Forall_app. split; [now apply isTask_not_null|].
      constructor; [discriminate|constructor].
Qed.

(** *** Values of [tasks] that the handlers cannot work on *)

Lemma arrayFilter_null (cb : JSValue -> Outcome bool) (l : list JSValue) :
  cb JNull = Throw TypeError ->
  (forall v, v <> JNull -> exists b, cb v = Ok b) ->
  In JNull l -> arrayFilter cb l = Throw TypeError.
Proof.
  intros Hnull Hok. induction l as [|x l IH]; simpl; [contradiction|].
  intros Hin. destruct x as [|b|n|s|elems|props];
    try (destruct Hin as [Hx|Hin]; [discriminate Hx|];
         match goal with
         | |- context [cb ?v] =>
             destruct (Hok v) as [b' ->]; [discriminate|]
         end;
         simpl; now rewrite (IH Hin)).
  now rewrite Hnull.
Qed.

(** X16. When [tasks] is not an array (as after a load of a stored text
    such as [5]), the handlers that work on the collection throw a
    TypeError before they change anything: adding a text that is not blank,
    toggling, the timer of a delete, clearing the completed tasks, and
    [getTaskById]; [updateStatistics] and [updateClearButtonVisibility]
    throw as well. *)
Theorem handlers_need_an_array (st : State) :
  (forall l, tasks st <> JArr l) ->
  (forall value now createdAt,
      allWhiteSpace value = false ->
      handleAddTask value now createdAt st = (Throw TypeError, st))
  /\ (forall taskId, toggleTaskCompletion taskId st = (Throw TypeError, st))
  /\ (forall taskId, deleteTaskTimeout taskId st = (Throw TypeError, st))
  /\ (forall confirmed,
        handleClearCompleted confirmed st = (Throw TypeError, st))
  /\ (forall id, getTaskById id st = (Throw TypeError, st))
  /\ statistics (tasks st) = Throw TypeError
  /\ hasCompletedTasks (tasks st) = Throw TypeError.
Proof.
  intros Hno.
  assert (Harr : asArray (tasks st) = Throw TypeError).
  { destruct (tasks st) as [| | | |l|]; try reflexivity. now destruct (Hno l). }
  split; [|split; [|split; [|split; [|split; [|split]]]]].
  - intros value now createdAt Hvalue. unfold handleAddTask.
    pose proof (trim_nonblank value Hvalue) as Hne.
    apply String.eqb_neq in Hne. rewrite Hne.
    unfold bind, getTasks, lift. now rewrite Harr.
  - intros taskId. unfold toggleTaskCompletion, bind, getTasks, lift.
    now rewrite Harr.
  - intros taskId. unfold deleteTaskTimeout, bind, getTasks, lift.
    now rewrite Harr.
  - intros confirmed. unfold handleClearCompleted, bind, getTasks, lift.
    now rewrite Harr.
  - intros id. unfold getTaskById, bind, getTasks, lift. now rewrite Harr.
  - unfold statistics. rewrite Harr.
    destruct (tasks st) as [| | | |l|props]; reflexivity.
  - unfold hasCompletedTasks. now rewrite Harr.
Qed.

(** X17. A [null] element in the collection (as an import of [[null]]
    leaves it) makes every filter over [task.completed] or [task.id] throw a
    TypeError: clearing the completed tasks and the timer of a delete fail
    without changing the state, and neither [updateStatistics] nor the
    completed and pending views of [renderTasks] can be computed. *)
Theorem null_element_blocks_filters (st : State) (l : list JSValue) :
  tasks st = JArr l ->
  In JNull l ->
  (forall confirmed,
      handleClearCompleted confirmed st = (Throw TypeError, st))
  /\ (forall taskId, deleteTaskTimeout taskId st = (Throw TypeError, st))
  /\ statistics (tasks st) = Throw TypeError
  /\ filteredTasks "completed" (tasks st) = Throw TypeError
  /\ filteredTasks "pending" (tasks st) = Throw TypeError.
Proof.
  intros Htasks Hin.
  assert (Hdone : arrayFilter whenCompleted l = Throw TypeError).
  { apply arrayFilter_null; [reflexivity| |exact Hin].
    intros v Hv. rewrite (whenCompleted_isCompleted v Hv). eauto. }
  assert (Htodo : arrayFilter whenPending l = Throw TypeError).
  { apply arrayFilter_null; [reflexivity| |exact Hin].
    intros v Hv. rewrite (whenPending_isCompleted v Hv). eauto. }
  split; [|split; [|split; [|split]]].
  - intros confirmed. unfold handleClearCompleted.
    unfold bind at 1, getTasks. rewrite Htasks.
    unfold bind at 1, lift, asArray. unfold bind at 1.
    change (fun task : JSValue => obind (getProp task "completed")
                                    (fun c => Ok (truthy c)))
      with whenCompleted.
    now rewrite Hdone.
  - intros taskId. unfold deleteTaskTimeout.
    unfold bind at 1, getTasks. rewrite Htasks.
    unfold bind at 1, lift, asArray. unfold bind at 1.
    rewrite arrayFilter_null; [reflexivity|reflexivity| |exact Hin].
    intros v Hv. destruct v; try (simpl; eauto). congruence.
  - rewrite Htasks. unfold statistics. simpl. now rewrite Hdone.
  - rewrite Htasks. unfold filteredTasks. simpl. now rewrite Hdone.
  - rewrite Htasks. unfold filteredTasks. simpl. now rewrite Htodo.
Qed.

(** *** What a turn can do to [tasks] and to the storage *)

Lemma persisted_effect (st mid st' : State) (pre : list Event)
  (l : list JSValue) :
  persisted mid st' ->
  tasks mid = JArr l ->
  localStorage mid = localStorage st ->
  trace mid = (trace st ++ pre)%list ->
  effect st st'.
Proof.
  intros Hp Hl Hs Ht. right. exists l. split.
  - destruct Hp as (H & _). congruence.
  - eapply persisted_written; eauto.
Qed.

Lemma handleAddTask_effect (value : string) (now : Z) (createdAt : string)
  (st : State) :
  effect st (snd (handleAddTask value now createdAt st)).
Proof.
  destruct (String.eqb_spec (trim value) "") as [Hblank|Hne].
  { left. unfold handleAddTask. rewrite Hblank. split; reflexivity. }
  destruct (asArray (tasks st)) as [l|e|] eqn:Harr.
  - apply asArray_inv in Harr.
    destruct (arraySome (sameText (trim value)) l) as [[|]|e|] eqn:Hsome.
    2:{ eapply persisted_effect with (pre := []).
        - now apply (handleAddTask_appends value now createdAt st l).
        - reflexivity.
        - reflexivity.
        - simpl. now rewrite List.app_nil_r. }
    all: left; unfold handleAddTask; apply String.eqb_neq in Hne; rewrite Hne;
      unfold bind, getTasks, lift; rewrite Harr; simpl;
      change (fun task : JSValue => _) with (sameText (trim value));
      rewrite Hsome; split; simpl; auto.
  - left. unfold handleAddTask. apply String.eqb_neq in Hne. rewrite Hne.
    unfold bind, getTasks, lift. rewrite Harr. split; reflexivity.
  - left. unfold handleAddTask. apply String.eqb_neq in Hne. rewrite Hne.
    unfold bind, getTasks, lift. rewrite Harr. split; reflexivity.
Qed.

Lemma toggleTaskCompletion_effect (taskId : Z) (st : State) :
  effect st (snd (toggleTaskCompletion taskId st)).
Proof.
  unfold toggleTaskCompletion.
  unfold bind at 1, getTasks. unfold bind at 1, lift.
  destruct (asArray (tasks st)) as [l|e|]; [|left; split; reflexivity..].
  unfold bind at 1.
  destruct (arrayFind _ 0 l) as [[[i task]|]|e|];
    [|left; split; reflexivity..].
  destruct (truthy (Some task)); [|left; split; reflexivity].
  unfold bind at 1, setTasks.
  eapply persisted_effect with (pre := []).
  - apply save_then_view.
  - reflexivity.
  - reflexivity.
  - simpl. now rewrite List.app_nil_r.
Qed.

Lemma deleteTaskTimeout_effect (taskId : Z) (st : State) :
  effect st (snd (deleteTaskTimeout taskId st)).
Proof.
  unfold deleteTaskTimeout.
  unfold bind at 1, getTasks. unfold bind at 1, lift.
  destruct (asArray (tasks st)) as [l|e|]; [|left; split; reflexivity..].
  unfold bind at 1.
  destruct (arrayFilter _ l) as [kept|e|]; [|left; split; reflexivity..].
  unfold bind at 1, setTasks.
  eapply persisted_effect with (pre := []).
  - apply save_then_view.
  - reflexivity.
  - reflexivity.
  - simpl. now rewrite List.app_nil_r.
Qed.

Lemma handleClearCompleted_effect (confirmed : bool) (st : State) :
  effect st (snd (handleClearCompleted confirmed st)).
Proof.
  unfold handleClearCompleted.
  unfold bind at 1, getTasks. unfold bind at 1, lift.
  destruct (asArray (tasks st)) as [l|e|]; [|left; split; reflexivity..].
  unfold bind at 1.
  destruct (arrayFilter _ l) as [done|e|]; [|left; split; reflexivity..].
  destruct (List.length done =? 0)%nat; [left; split; reflexivity|].
  unfold bind at 1, emit.
  destruct confirmed; [|left; split; reflexivity].
  unfold bind at 1.
  destruct (arrayFilter _ l) as [kept|e|]; [|left; split; reflexivity..].
  unfold bind at 1, setTasks.
  eapply persisted_effect with (pre := [_]).
  - apply save_then_view.
  - reflexivity.
  - reflexivity.
  - reflexivity.
Qed.

Lemma readerOnload_effect (text : string) (confirmed : bool) (st : State) :
  effect st (snd (readerOnload text confirmed st)).
Proof.
  destruct (JSON.parse text) as [v|e|] eqn:Hparse.
  - destruct v as [| | | |elems|];
      try (left; rewrite (readerOnload_not_array _ _ _ _ Hparse);
           [split; reflexivity|discriminate]).
    destruct confirmed.
    + eapply persisted_effect with (pre := [_]).
      * exact (readerOnload_confirmed _ _ _ Hparse).
      * reflexivity.
      * reflexivity.
      * reflexivity.
    + left. rewrite (readerOnload_declined _ _ _ Hparse). split; reflexivity.
  - left. rewrite (readerOnload_failed _ _ _ _ Hparse). split; reflexivity.
  - left. unfold readerOnload, tryCatch, bind, lift. rewrite Hparse.
    split; reflexivity.
Qed.

Lemma effect_from (st st0 st' : State) :
  tasks st0 = tasks st -> localStorage st0 = localStorage st ->
  trace st0 = trace st ->
  effect st0 st' -> effect st st'.
Proof.
  intros Htasks Hstore Htrace [[Hsame Hkeep]|(l & Hl & (pre & post & Hw) & Hs)].
  - left. split; congruence.
  - right. exists l. split; [exact Hl|]. split.
    + exists pre, post. now rewrite <- Htrace.
    + rewrite Hs, !saveTasksToStorage_storage. unfold fits. simpl.
      now rewrite Hstore.
Qed.

Lemma step_effect (op : Op) (st : State) : effect st (snd (step op st)).
Proof.
  destruct op as [value now createdAt|taskId|taskId found| |confirmed|text
                 |confirmed]; simpl.
  - apply handleAddTask_effect.
  - apply toggleTaskCompletion_effect.
  - left. destruct found; split; reflexivity.
  - destruct (timers st) as [|taskId rest]; [left; split; reflexivity|].
    apply (effect_from st (withTimers rest st)); try reflexivity.
    apply deleteTaskTimeout_effect.
  - apply handleClearCompleted_effect.
  - left. split; reflexivity.
  - destruct (readers st) as [|text rest]; [left; split; reflexivity|].
    apply (effect_from st (withReaders rest st)); try reflexivity.
    apply readerOnload_effect.
Qed.

Lemma step_capacity (op : Op) (st : State) :
  capacity (localStorage (snd (step op st))) = capacity (localStorage st).
Proof.
  destruct (step_effect op st) as [[_ ->]|(l & _ & _ & ->)]; [reflexivity|].
  rewrite saveTasksToStorage_storage. simpl.
  destruct (fits _); reflexivity.
Qed.

(** X18. No handler ever assigns anything but an array to [tasks]: in
    every turn either [tasks] and the storage stay as they were, or [tasks]
    becomes an array that the turn writes to the storage.  So once [tasks]
    holds an array it holds one after every sequence of turns, whatever the
    user answers and whatever files are imported, and the room the storage
    has never changes. *)
Theorem tasks_stay_an_array (ops : list Op) (st : State) (l : list JSValue) :
  tasks st = JArr l ->
  (exists l', tasks (run ops st) = JArr l')
  /\ capacity (localStorage (run ops st)) = capacity (localStorage st)
  /\ forall op, effect (run ops st) (snd (step op (run ops st))).
Proof.
  intros Htasks. split; [|split].
  - revert st l Htasks. induction ops as [|op ops IH]; intros st l Htasks;
      simpl; [eauto|].
    destruct (step_effect op st) as [[Hsame _]|(l' & Hl' & _)].
    + apply (IH _ l). congruence.
    + now apply (IH _ l').
  - clear Htasks. revert st. induction ops as [|op ops IH]; intros st; simpl;
      [reflexivity|].
    now rewrite IH, step_capacity.
  - intros op. apply step_effect.
Qed.

(** *** Reloading the page *)

Lemma existsb_keys_assign (k k' : string) (v : JSValue)
  (props : list (string * JSValue)) :
  (k' =? k)%string = false ->
  existsb (String.eqb k') (map fst (assign k v props))
  = existsb (String.eqb k') (map fst props).
Proof.
  intros Hne. induction props as [|[k0 v0] props IH]; simpl.
  - now rewrite Hne.
  - destruct (k0 =? k)%string; simpl; [reflexivity|now rewrite IH].
Qed.

Lemma plainKeys_assign (k : string) (v : JSValue)
  (props : list (string * JSValue)) :
  JSON.indexLike k = false ->
  JSON.plainKeys (map fst props) = true ->
  JSON.plainKeys (map fst (assign k v props)) = true.
Proof.
  intros Hk. unfold JSON.plainKeys.
  induction props as [|[k0 v0] props IH]; simpl.
  - now rewrite Hk.
  - intros H. apply andb_true_iff in H as [Hd Hf].
    apply andb_true_iff in Hd as [Hfresh Hd].
    apply andb_true_iff in Hf as [Hk0 Hf].
    destruct (k0 =? k)%string eqn:E; simpl.
    + now rewrite Hfresh, Hd, Hk0, Hf.
    + rewrite (existsb_keys_assign k k0 v props E), Hfresh, Hk0. simpl.
      apply IH. now rewrite Hd, Hf.
Qed.

Lemma jsonSafe_assign (k : string) (v : JSValue)
  (props : list (string * JSValue)) :
  jsonSafe v = true ->
  forallb (fun kv => jsonSafe (snd kv)) props = true ->
  forallb (fun kv => jsonSafe (snd kv)) (assign k v props) = true.
Proof.
  intros Hv. induction props as [|[k0 v0] props IH]; simpl.
  - now rewrite Hv.
  - intros H. apply andb_true_iff in H as [H0 Hrest].
    destruct (k0 =? k)%string; simpl.
    + now rewrite Hv, Hrest.
    + now rewrite H0, IH.
Qed.

Lemma jsonSafe_setCompleted (task : JSValue) (b : bool) :
  jsonSafe task = true -> jsonSafe (setCompleted task b) = true.
Proof.
  destruct task as [| | | | |props]; try (intros; assumption).
  cbn [setCompleted jsonSafe]. intros H. apply andb_true_iff in H as [Hk Hv].
  rewrite plainKeys_assign, jsonSafe_assign; auto.
Qed.

Lemma change_isTask (op : Op) (l l' : list JSValue) :
  change op l l' ->
  Forall (fun v => isTask v = true) l -> Forall (fun v => isTask v = true) l'.
Proof.
  intros Hch Hall. destruct Hch as [op l|value now createdAt l Hnew
                                   |taskId pre task post|keep l].
  - exact Hall.
  - apply Forall_app. split; [exact Hall|]. constructor; [reflexivity|constructor].
  - apply Forall_app in Hall as [Ha Hb]. apply Forall_app. split; [exact Ha|].
    inversion Hb; subst. constructor; [|assumption].
    now apply setCompleted_isTask.
  - rewrite Forall_forall in Hall |- *. intros v Hv.
    apply filter_In in Hv. now apply Hall.
Qed.

Lemma change_jsonSafe (op : Op) (l l' : list JSValue) :
  change op l l' -> exactClock [op] ->
  forallb jsonSafe l = true -> forallb jsonSafe l' = true.
Proof.
  intros Hch Hclock Hsafe.
  destruct Hch as [op l|value now createdAt l Hnew
                  |taskId pre task post|keep l].
  - exact Hsafe.
  - rewrite forallb_app, Hsafe. simpl in Hclock. destruct Hclock as [Hnow _].
    cbn [forallb taskRecord jsonSafe map fst snd].
    apply Z.leb_le in Hnow. rewrite Hnow. reflexivity.
  - rewrite forallb_app in Hsafe |- *. simpl in Hsafe |- *.
    apply andb_true_iff in Hsafe as [Ha Hb].
    apply andb_true_iff in Hb as [Ht Hb].
    now rewrite Ha, Hb, jsonSafe_setCompleted.
  - rewrite forallb_forall in Hsafe |- *. intros v Hv.
    apply filter_In in Hv. now apply Hsafe.
Qed.

(** A load in a fresh page reads back what an accepted write left. *)
Lemma reloads_written (st st' : State) (l : list JSValue) :
  tasks st' = JArr l ->
  forallb jsonSafe l = true ->
  written st st' ->
  capacity (localStorage st') = capacity (localStorage st) ->
  fits st' = true ->
  reloads st'.
Proof.
  intros Hl Hsafe [_ Hstore] Hcap Hfits. unfold reloads.
  rewrite saveTasksToStorage_storage in Hstore.
  assert (Hfits' : fits (withTasks (tasks st') st) = true).
  { unfold fits in Hfits |- *. simpl. now rewrite <- Hcap. }
  rewrite Hfits' in Hstore. simpl in Hstore.
  rewrite (loadTasksFromStorage_parsed _ (JSON.stringify (tasks st'))
             (tasks st') (Some (JNum (Z.of_nat (List.length l))))).
  - reflexivity.
  - simpl. now rewrite Hstore.
  - apply JSONFacts.stringify_nonempty.
  - apply JSONFacts.parse_stringify. now rewrite Hl.
  - now rewrite Hl.
  - reflexivity.
Qed.

Lemma step_reloads (op : Op) (st : State) (l : list JSValue) :
  storeOp op = true -> exactClock [op] ->
  tasks st = JArr l ->
  Forall (fun v => isTask v = true) l ->
  forallb jsonSafe l = true ->
  reloads st ->
  fits (snd (step op st)) = true ->
  reloads (snd (step op st))
  /\ exists l',
       tasks (snd (step op st)) = JArr l'
       /\ Forall (fun v => isTask v = true) l'
       /\ forallb jsonSafe l' = true.
Proof.
  intros Hop Hclock Htasks Hall Hsafe Hre Hfits.
  destruct (step_change op st l Hop Htasks Hall) as (l' & Hl' & Hch).
  pose proof (change_isTask _ _ _ Hch Hall) as Hall'.
  pose proof (change_jsonSafe _ _ _ Hch Hclock Hsafe) as Hsafe'.
  split; [|eauto].
  destruct (step_effect op st) as [[Hsame Hkeep]|(l0 & _ & Hw)].
  - unfold reloads in Hre |- *. now rewrite Hkeep, Hsame.
  - apply (reloads_written st _ l' Hl' Hsafe' Hw); [|exact Hfits].
    apply step_capacity.
Qed.

(** X19. Reloading the page loses nothing: start from a page whose
    collection of task records is what a load of its storage yields (a
    freshly started page over an empty storage is one), and let the user add,
    toggle and delete in any order, the clock readings being exact and the
    storage accepting each write; then [loadTasksFromStorage] in a fresh page
    over the storage left behind yields the very collection the page ends
    with. *)
Theorem reload_restores_collection (ops : list Op) (st : State)
  (l : list JSValue) :
  tasks st = JArr l ->
  Forall (fun v => isTask v = true) l ->
  jsonSafe (tasks st) = true ->
  reloads st ->
  forallb storeOp ops = true ->
  exactClock ops ->
  (forall k, fits (run (firstn k ops) st) = true) ->
  reloads (run ops st).
Proof.
  intros Htasks Hall Hsafe. rewrite Htasks in Hsafe. simpl in Hsafe.
  revert st l Htasks Hall Hsafe.
  induction ops as [|op ops IH]; intros st l Htasks Hall Hsafe Hre Hops Hclock
                                        Hfits; simpl; [exact Hre|].
  simpl in Hops. apply andb_true_iff in Hops as [Hop Hops].
  assert (Hclock1 : exactClock [op] /\ exactClock ops).
  { destruct op; simpl in Hclock |- *; tauto. }
  destruct Hclock1 as [Hc1 Hcs].
  destruct (step_reloads op st l Hop Hc1 Htasks Hall Hsafe Hre (Hfits 1))
    as (Hre' & l' & Hl' & Hall' & Hsafe').
  apply (IH _ l' Hl' Hall' Hsafe' Hre' Hops Hcs).
  intros k. exact (Hfits (S k)).
Qed.

(** *** clearAllData *)

(** X20. A confirmed [clearAllData] empties the collection and removes the
    storage key, whether or not the view functions it then calls complete:
    a reload finds no tasks, [updateStatistics] counts none and
    [renderTasks] shows the empty state under every filter.  A declined one
    leaves the state as it was. *)
Theorem clearAllData_empties (st : State) :
  let st' := snd (clearAllData true st) in
  tasks st' = JArr []
  /\ slot (localStorage st') = None
  /\ capacity (localStorage st') = capacity (localStorage st)
  /\ reloads st'
  /\ statistics (tasks st') = Ok (mkStatistics 0 0 0)
  /\ (forall currentFilter, emptyStateShown currentFilter (tasks st') = Ok true)
  /\ clearAllData false st = (Ok tt, st).
Proof.
  intros st'.
  assert (Hst' : st' = withTasks (JArr [])
                         (withStorage
                            (mkStorage None (capacity (localStorage st))) st)).
  { subst st'. unfold clearAllData, bind, removeItem, setTasks, callView.
    destruct (renderTasks _) as [[]|e|]; [|reflexivity..].
    destruct (updateStatistics _) as [[]|e|]; reflexivity. }
  rewrite Hst'. repeat split.
  intros currentFilter. unfold emptyStateShown, filteredTasks. simpl.
  destruct (currentFilter =? "completed")%string; [reflexivity|].
  destruct (currentFilter =? "pending")%string; reflexivity.
Qed.

(** *** Export and import *)

(** X21. The backup file restores the collection: the text that
    [exportTasks] offers for download parses to the collection it was made
    from, so importing it into any page, with the confirmation given,
    installs that collection and writes it to the storage of that page; the
    indented text and the compact text of [saveTasksToStorage] read back as
    the same value. *)
Theorem export_then_import_restores (st : State) (l : list JSValue) :
  tasks st = JArr l ->
  jsonSafe (tasks st) = true ->
  JSON.parse (exportTasks st) = Ok (tasks st)
  /\ JSON.parse (exportTasks st) = JSON.parse (JSON.stringify (tasks st))
  /\ forall other,
       readers other = [] ->
       let restored := run [Import (exportTasks st); Loaded true] other in
       tasks restored = tasks st
       /\ written other restored
       /\ tasks (run [Import (exportTasks st); Loaded false] other)
          = tasks other.
Proof.
  intros Htasks Hsafe.
  assert (Hparse : JSON.parse (exportTasks st) = Ok (tasks st))
    by now apply JSONIndentFacts.parse_indented.
  split; [exact Hparse|]. split.
  { rewrite Hparse. symmetry. now apply JSONFacts.parse_stringify. }
  intros other Hreaders restored. rewrite Htasks in Hparse.
  assert (Hstep : restored
                  = snd (readerOnload (exportTasks st) true
                           (withReaders [] (withReaders [exportTasks st] other)))).
  { subst restored. simpl. unfold importTasks. simpl. rewrite Hreaders.
    reflexivity. }
  pose proof (readerOnload_confirmed (exportTasks st)
                (withReaders [] (withReaders [exportTasks st] other)) l Hparse)
    as Hp.
  rewrite <- Hstep in Hp. split; [|split].
  - destruct Hp as (H & _). rewrite H, Htasks. reflexivity.
  - eapply persisted_written with (pre := [_]); [exact Hp|reflexivity..].
  - simpl. unfold importTasks. simpl. rewrite Hreaders. simpl.
    now rewrite (readerOnload_declined _ _ _ Hparse).
Qed.

(** *** Tasks that share an id, records without a text, a stored [null] *)

Lemma sameText_textless (taskText : string) (task : JSValue) :
  textOf task = None -> sameText taskText task = Throw TypeError.
Proof.
  unfold textOf, sameText. destruct task as [| | | | |props]; try reflexivity.
  simpl. destruct (lookup "text" props) as [[| | |t| |]|]; try reflexivity.
  discriminate.
Qed.

(** X22. Two tasks with the same [id] (two adds within one millisecond
    leave such a pair) cannot be told apart by the handlers:
    [toggleTaskCompletion] flips the first of them and leaves the second as
    it was, whichever of the two the user clicked, and the timer of
    [deleteTask] removes both. *)
Theorem shared_id_toggles_first_deletes_both (taskId : Z) (st : State)
  (pre : list JSValue) (first : JSValue) (between : list JSValue)
  (second : JSValue) (post : list JSValue) :
  tasks st = JArr (pre ++ first :: between ++ second :: post) ->
  Forall (fun v => v <> JNull) (pre ++ first :: between ++ second :: post) ->
  forallb (fun v => negb (hasId taskId v)) pre = true ->
  hasId taskId first = true -> hasId taskId second = true ->
  tasks (snd (toggleTaskCompletion taskId st))
  = JArr (pre ++ setCompleted first (negb (isCompleted first))
            :: between ++ second :: post)
  /\ exists kept,
       tasks (snd (deleteTaskTimeout taskId st)) = JArr kept
       /\ ~ In first kept /\ ~ In second kept
       /\ List.length kept + 2 <= List.length (pre ++ first :: between ++ second :: post).
Proof.
  intros Htasks Hall Hpre Hfirst Hsecond. split.
  - now apply toggleTaskCompletion_found.
  - eexists. split; [exact (deleteTaskTimeout_tasks taskId st _ Htasks Hall)|].
    split; [|split].
    + rewrite filter_In, Hfirst. intros [_ H]. discriminate.
    + rewrite filter_In, Hsecond. intros [_ H]. discriminate.
    + rewrite !filter_app, !length_app. simpl. rewrite Hfirst. simpl.
      rewrite filter_app, !length_app. simpl. rewrite Hsecond. simpl.
      pose proof (filter_length_le (fun v => negb (hasId taskId v)) pre).
      pose proof (filter_length_le (fun v => negb (hasId taskId v)) between).
      pose proof (filter_length_le (fun v => negb (hasId taskId v)) post).
      lia.
Qed.

(** X23. One record without a string [text] (an import can bring one in)
    stops every further add: when the duplicate check reaches such a record
    before it finds a task with the same text, [handleAddTask] throws a
    TypeError and leaves the state as it was. *)
Theorem handleAddTask_throws_on_textless_task (value : string) (now : Z)
  (createdAt : string) (st : State) (pre : list JSValue) (bad : JSValue)
  (post : list JSValue) :
  tasks st = JArr (pre ++ bad :: post) ->
  Forall (fun v => isTask v = true) pre ->
  ~ In (Some (toLowerCase (trim value))) (map loweredText pre) ->
  textOf bad = None ->
  allWhiteSpace value = false ->
  handleAddTask value now createdAt st = (Throw TypeError, st).
Proof.
  intros Htasks Hpre Hnew Hbad Hvalue. unfold handleAddTask.
  pose proof (trim_nonblank value Hvalue) as Hne.
  apply String.eqb_neq in Hne. rewrite Hne.
  unfold bind at 1, getTasks. rewrite Htasks. unfold bind at 1, lift, asArray.
  unfold bind at 1.
  change (fun task : JSValue => _) with (sameText (trim value)).
  assert (Hsome : arraySome (sameText (trim value)) (pre ++ bad :: post)
                  = Throw TypeError).
  { clear Htasks. induction Hpre as [|x pre Hx Hrest IH]; simpl.
    - now rewrite (sameText_textless _ _ Hbad).
    - destruct (isTask_shape x Hx) as [_ [s Hs]].
      rewrite (sameText_textOf _ _ _ Hs). simpl.
      destruct (String.eqb_spec (toLowerCase s) (toLowerCase (trim value)))
        as [E|_].
      + exfalso. apply Hnew. left. unfold loweredText. rewrite Hs. simpl.
        now rewrite E.
      + apply IH. intros Hin. apply Hnew. now right. }
  now rewrite Hsome.
Qed.

(** X24. A stored text that parses to [null] is treated like a malformed
    one: [loadTasksFromStorage] assigns it, fails on reading its [length],
    and the [catch] block reports the TypeError and resets [tasks] to the
    empty array.  So a load never leaves [null] in [tasks]. *)
Theorem loadTasksFromStorage_never_null (st : State) :
  (forall text,
      slot (localStorage st) = Some text ->
      JSON.parse text = Ok JNull ->
      fst (loadTasksFromStorage st) = Ok tt
      /\ tasks (snd (loadTasksFromStorage st)) = JArr []
      /\ localStorage (snd (loadTasksFromStorage st)) = localStorage st
      /\ trace (snd (loadTasksFromStorage st))
         = (trace st ++ [ConsoleError (LoadFailed TypeError)])%list)
  /\ (tasks st <> JNull -> tasks (snd (loadTasksFromStorage st)) <> JNull).
Proof.
  split.
  - intros text Hslot Hparse.
    unfold loadTasksFromStorage, tryCatch, bind, getItem. rewrite Hslot.
    destruct text as [|c s]; [discriminate Hparse|].
    unfold lift. rewrite Hparse. simpl. auto.
  - intros Hst. unfold loadTasksFromStorage, tryCatch, bind, getItem.
    destruct (slot (localStorage st)) as [[|c s]|]; try exact Hst.
    unfold lift. destruct (JSON.parse (String c s)) as [v|e|];
      [|simpl; discriminate|exact Hst].
    destruct v as [| | | | |props]; simpl; try discriminate.
    unfold interpolate.
    destruct (lookup "length" props) as [w|]; [destruct (stringable w)|];
      simpl; discriminate.
Qed.

(** *** A view layer that throws *)

Lemma save_then_failing_view (m : Message) (st : State) :
  viewThrows page ->
  exists e,
    fst ((saveTasksToStorage ;;; callView renderTasks ;;;
          callView updateStatistics ;;; emit (ConsoleLog m)) st)
    = Throw e
    /\ draw (snd ((saveTasksToStorage ;;; callView renderTasks ;;;
                   callView updateStatistics ;;; emit (ConsoleLog m)) st))
       = Throw e.
Proof.
  intros Hview. pose proof (saveTasksToStorage_returns st) as Hret.
  unfold bind, callView, emit.
  destruct (saveTasksToStorage st) as [o st1]. simpl in *. subst o.
  destruct (Hview st1) as [e He]. exists e.
  pose proof He as Hd. unfold draw in Hd.
  destruct (renderTasks st1) as [[]|e'|]; simpl in Hd; try discriminate.
  - rewrite Hd. split; [reflexivity|exact He].
  - injection Hd as ->. split; [reflexivity|exact He].
Qed.

Lemma handleAddTask_view_throws (value : string) (now : Z)
  (createdAt : string) (st : State) :
  viewThrows page ->
  unchangedOrThrows st (handleAddTask value now createdAt st).
Proof.
  intros Hview. unfold handleAddTask.
  destruct (trim value =? "")%string; [now left|].
  unfold bind at 1, getTasks. unfold bind at 1, lift.
  destruct (asArray (tasks st)) as [l|e'|]; [|now left..].
  unfold bind at 1.
  destruct (arraySome _ l) as [[|]|e'|]; try now left.
  right. unfold bind at 1, setTasks.
  now apply save_then_failing_view.
Qed.

Lemma toggleTaskCompletion_view_throws (taskId : Z) (st : State) :
  viewThrows page ->
  unchangedOrThrows st (toggleTaskCompletion taskId st).
Proof.
  intros Hview. unfold toggleTaskCompletion.
  unfold bind at 1, getTasks. unfold bind at 1, lift.
  destruct (asArray (tasks st)) as [l|e'|]; [|now left..].
  unfold bind at 1.
  destruct (arrayFind _ 0 l) as [[[i task]|]|e'|]; [|now left..].
  destruct (truthy (Some task)); [|now left].
  right. unfold bind at 1, setTasks.
  now apply save_then_failing_view.
Qed.

Lemma deleteTaskTimeout_view_throws (taskId : Z) (st : State) :
  viewThrows page ->
  unchangedOrThrows st (deleteTaskTimeout taskId st).
Proof.
  intros Hview. unfold deleteTaskTimeout.
  unfold bind at 1, getTasks. unfold bind at 1, lift.
  destruct (asArray (tasks st)) as [l|e'|]; [|now left..].
  unfold bind at 1.
  destruct (arrayFilter _ l) as [kept|e'|]; [|now left..].
  right. unfold bind at 1, setTasks.
  now apply save_then_failing_view.
Qed.

Lemma handleClearCompleted_view_throws (confirmed : bool) (st : State) :
  viewThrows page ->
  unchangedOrThrows st (handleClearCompleted confirmed st).
Proof.
  intros Hview. unfold handleClearCompleted.
  unfold bind at 1, getTasks. unfold bind at 1, lift.
  destruct (asArray (tasks st)) as [l|e'|]; [|now left..].
  unfold bind at 1.
  destruct (arrayFilter _ l) as [done|e'|]; [|now left..].
  destruct (List.length done =? 0)%nat; [now left|].
  unfold bind at 1, emit.
  destruct confirmed; [|now left].
  unfold bind at 1.
  destruct (arrayFilter _ l) as [kept|e'|]; [|now left..].
  right. unfold bind at 1, setTasks.
  now apply save_then_failing_view.
Qed.

Lemma step_view_throws (op : Op) (st : State) :
  viewThrows page ->
  (forall confirmed, op <> Loaded confirmed) ->
  unchangedOrThrows st (step op st).
Proof.
  intros Hview Hop.
  destruct op as [value now createdAt|taskId|taskId found| |confirmed|text
                 |confirmed]; simpl.
  - now apply handleAddTask_view_throws.
  - now apply toggleTaskCompletion_view_throws.
  - left. now destruct found.
  - destruct (timers st) as [|taskId rest]; [now left|].
    exact (deleteTaskTimeout_view_throws taskId (withTimers rest st) Hview).
  - now apply handleClearCompleted_view_throws.
  - now left.
  - now destruct (Hop confirmed).
Qed.

(** X25. The write comes before the view: on a page whose view layer
    throws whenever it is called (the exception may differ from state to
    state: in script.js [updateStatistics] refers to [completedTask], which
    it does not declare, and [renderTasks] throws a TypeError on a [null]
    element), every add, toggle, delete timer and clear that changes
    [tasks] has written the new collection to the storage by the time the
    exception leaves the handler; the exception is the one the view throws
    in the state the handler leaves.  Start-up throws as well, once
    [loadTasksFromStorage] has returned and left its collection in
    [tasks]. *)
Theorem view_failure_comes_after_the_write (op : Op) (st : State) :
  viewThrows page ->
  (forall confirmed, op <> Loaded confirmed) ->
  (tasks (snd (step op st)) <> tasks st ->
   written st (snd (step op st))
   /\ exists e,
        fst (step op st) = Throw e /\ draw (snd (step op st)) = Throw e)
  /\ (fst (loadTasksFromStorage st) = Ok tt ->
      tasks (snd (initializeApp st)) = tasks (snd (loadTasksFromStorage st))
      /\ exists e,
           fst (initializeApp st) = Throw e
           /\ draw (snd (initializeApp st)) = Throw e).
Proof.
  intros Hview Hop. split.
  - intros Hchanged. split.
    + destruct (step_turn op st) as [Hsame|Hw]; [now destruct Hchanged|exact Hw].
    + destruct (step_view_throws op st Hview Hop) as [Hsame|Hthrow];
        [now destruct Hchanged|exact Hthrow].
  - intros Hload. split; [apply initializeApp_tasks|].
    unfold initializeApp, bind, callView.
    destruct (loadTasksFromStorage st) as [o st1]. simpl in Hload. subst o.
    destruct (Hview st1) as [e He]. exists e.
    pose proof He as Hd. unfold draw in Hd.
    destruct (renderTasks st1) as [[]|e'|]; simpl in Hd; try discriminate.
    + rewrite Hd. split; [reflexivity|exact He].
    + injection Hd as ->. split; [reflexivity|exact He].
Qed.

(** X26. An exception of the view layer during an import is reported as a
    format error: on a page whose view layer throws whenever it is called,
    a confirmed import of a text that parses to an array replaces [tasks]
    and writes the new collection, and then, the call of the view being
    inside the [try] block of [reader.onload], alerts that the file could
    not be imported and logs the exception that the view threw as the import
    error; the callback itself returns normally. *)
Theorem view_failure_in_import_is_reported_as_format_error
  (text : string) (elems : list JSValue) (st : State) :
  viewThrows page ->
  JSON.parse text = Ok (JArr elems) ->
  let saved :=
    snd (saveTasksToStorage
           (withTasks (JArr elems)
              (logged (Confirm (importPrompt (List.length elems)) true) st))) in
  let st' := snd (readerOnload text true st) in
  fst (readerOnload text true st) = Ok tt
  /\ tasks st' = JArr elems
  /\ written st st'
  /\ exists e,
       draw saved = Throw e
       /\ trace st'
          = (trace saved
             ++ [Alert importAlert; ConsoleError (ImportFailed e)])%list.
Proof.
  intros Hview Hparse saved st'.
  pose proof (readerOnload_confirmed text st elems Hparse) as Hp.
  fold st' in Hp.
  assert (Hw : written st st').
  { eapply persisted_written with (pre := [_]); [exact Hp|reflexivity..]. }
  assert (Hrun : exists e,
             draw saved = Throw e
             /\ readerOnload text true st
                = (Ok tt,
                   logged (ConsoleError (ImportFailed e))
                     (logged (Alert importAlert) saved))).
  { subst saved. unfold readerOnload, tryCatch.
    unfold bind at 1, lift. rewrite Hparse.
    unfold bind at 1, emit. unfold bind at 1, setTasks.
    set (st0 := withTasks (JArr elems) (logged _ st)).
    pose proof (saveTasksToStorage_returns st0) as Hret.
    unfold bind, callView, emit, getTasks, lift.
    destruct (saveTasksToStorage st0) as [o st1]. simpl in *. subst o.
    destruct (Hview st1) as [e He]. exists e. split; [exact He|].
    unfold draw in He.
    destruct (renderTasks st1) as [[]|e'|]; simpl in He; try discriminate.
    - now rewrite He.
    - now injection He as ->. }
  destruct Hrun as (e & Hdraw & Hrun).
  split; [now rewrite Hrun|]. split; [now destruct Hp as (H & _)|].
  split; [exact Hw|].
  exists e. split; [exact Hdraw|].
  subst st'. rewrite Hrun. simpl.
  rewrite <- List.app_assoc. reflexivity.
Qed.

(** X27. What is stored is never lost by a turn: once the storage slot
    holds a text, it holds a text after every sequence of turns, and that
    text is either the one it held or the serialisation of an array; no
    turn removes the key, and a write that the storage rejects leaves the
    older text in place. *)
Theorem stored_text_is_never_lost (ops : list Op) (st : State)
  (text : string) :
  slot (localStorage st) = Some text ->
  exists text',
    slot (localStorage (run ops st)) = Some text'
    /\ (text' = text \/ exists l, text' = JSON.stringify (JArr l)).
Proof.
  revert st text. induction ops as [|op ops IH]; intros st text Hslot; simpl.
  - eauto.
  - destruct (step_effect op st) as [[_ Hkeep]|(l & Hl & _ & Hstore)].
    + apply (IH _ text). now rewrite Hkeep.
    + rewrite saveTasksToStorage_storage in Hstore.
      destruct (fits _).
      * destruct (IH (snd (step op st)) (JSON.stringify (JArr l)))
          as (text' & Hs & Hor).
        { rewrite Hstore. simpl. now rewrite Hl. }
        exists text'. split; [exact Hs|]. right.
        destruct Hor as [->|Hor]; [exists l; reflexivity|exact Hor].
      * apply (IH _ text). rewrite Hstore. exact Hslot.
Qed.

End MoreFacts.

(** ** animateNumber *)

Lemma animationTicks_last (k : nat) (a : Animation) :
  animationTicks (S k) a = animationTick (animationTicks k a).
Proof.
  revert a. induction k as [|k IH]; intros a; [reflexivity|].
  change (animationTicks (S (S k)) a)
    with (animationTicks (S k) (animationTick a)).
  now rewrite IH.
Qed.

Lemma animationTicks_cleared (k : nat) (a : Animation) :
  cleared a = true -> animationTicks k a = a.
Proof.
  intros Ha. induction k as [|k IH]; [reflexivity|].
  rewrite animationTicks_last, IH. unfold animationTick. now rewrite Ha.
Qed.

Lemma animationTicks_add (j k : nat) (a : Animation) :
  animationTicks (j + k) a = animationTicks k (animationTicks j a).
Proof.
  revert a. induction j as [|j IH]; intros a; [reflexivity|].
  simpl. apply IH.
Qed.

(** The interval after [k] runs of its callback, up to the run that reaches
    the target. *)
Lemma animationTicks_closed_form (c t : Z) (k : nat) :
  c <> t ->
  let inc := if (t >? c)%Z then 1%Z else (-1)%Z in
  let n := Z.to_nat (Z.abs (t - c)) in
  k <= n ->
  animationTicks k (mkAnimation c inc t c false)
  = mkAnimation (c + inc * Z.of_nat k) inc t (c + inc * Z.of_nat k)
      (k =? n)%nat.
Proof.
  intros Hne inc n. induction k as [|k IH]; intros Hk.
  - cbn [animationTicks Z.of_nat]. replace (c + inc * 0)%Z with c by lia.
    destruct (Nat.eqb_spec 0 n) as [E|_]; [|reflexivity].
    subst n. lia.
  - rewrite animationTicks_last, IH by lia. unfold animationTick.
    cbn [cleared current increment targetNumber].
    destruct (Nat.eqb_spec k n) as [E|_]; [lia|].
    replace (c + inc * Z.of_nat k + inc)%Z with (c + inc * Z.of_nat (S k))%Z
      by lia.
    f_equal.
    destruct (Nat.eqb_spec (S k) n) as [E|E];
      [apply Z.eqb_eq|apply Z.eqb_neq]; subst inc n;
      rewrite Z.gtb_ltb in *; destruct (Z.ltb_spec c t); lia.
Qed.

(** X28. [animateNumber] counts the display to its target and then stops:
    it starts no interval when the element already shows the target;
    otherwise every run of the interval callback brings the number shown one
    step nearer, the interval is cleared by the run that reaches the target
    and by no earlier one, and the display shows the target from then on. *)
Theorem animateNumber_reaches_target (currentNumber target : Z) :
  (animateNumber currentNumber target = None <-> currentNumber = target)
  /\ forall a,
       animateNumber currentNumber target = Some a ->
       let n := Z.to_nat (Z.abs (target - currentNumber)) in
       0 < n
       /\ (forall k, k <= n ->
             Z.abs (target - textContent (animationTicks k a))
             = Z.of_nat (n - k))
       /\ (forall k, k < n -> cleared (animationTicks k a) = false)
       /\ (forall k, n <= k ->
             cleared (animationTicks k a) = true
             /\ textContent (animationTicks k a) = target).
Proof.
  unfold animateNumber. cbv zeta. split.
  - destruct (Z.eqb_spec (Z.abs (target - currentNumber)) 0) as [E|E];
      split; intros H; try discriminate; try reflexivity; lia.
  - intros a.
    destruct (Z.eqb_spec (Z.abs (target - currentNumber)) 0) as [E|E];
      [discriminate|].
    intros Ha. injection Ha as <-.
    set (n := Z.to_nat (Z.abs (target - currentNumber))).
    assert (Hne : currentNumber <> target) by lia.
    pose proof (animationTicks_closed_form currentNumber target) as Hform.
    cbv zeta in Hform. fold n in Hform.
    assert (Hn : 0 < n) by (subst n; lia).
    split; [exact Hn|]. split; [|split].
    + intros k Hk. rewrite (Hform k Hne Hk). simpl. subst n.
      rewrite Z.gtb_ltb. destruct (Z.ltb_spec currentNumber target); lia.
    + intros k Hk. rewrite (Hform k Hne) by lia. simpl.
      apply Nat.eqb_neq. lia.
    + intros k Hk. replace k with (n + (k - n)) by lia.
      rewrite animationTicks_add, (Hform n Hne) by lia.
      rewrite animationTicks_cleared by (simpl; apply Nat.eqb_refl).
      simpl. split; [apply Nat.eqb_refl|]. subst n.
      rewrite Z.gtb_ltb. destruct (Z.ltb_spec currentNumber target); lia.
Qed.


(** ** Worked examples *)

(** The examples run over [quietView] wherever no view is named. *)
#[local] Existing Instance quietView.
#[local] Open Scope Z_scope.

Example trim_example : trim "  Buy milk  " = "Buy milk".
Proof. reflexivity. Qed.

Example toLowerCase_example : toLowerCase "Buy MILK" = "buy milk".
Proof. reflexivity. Qed.

Example parse_spaced :
  JSON.parse " [ 17 , [ ] , { } , true , null , -0 ] "
  = Ok (JArr [JNum 17; JArr []; JObj []; JBool true; JNull; JNum 0]).
Proof. reflexivity. Qed.

Example parse_trailing_comma : JSON.parse "[1,]" = Throw SyntaxError.
Proof. reflexivity. Qed.

Example parse_leading_zero : JSON.parse "[01]" = Throw SyntaxError.
Proof. reflexivity. Qed.

Example parse_fraction : JSON.parse "1.5" = Unmodelled.
Proof. reflexivity. Qed.

(** A number cut short is not JSON, also behind a fraction that is. *)
Example parse_malformed_number :
  JSON.parse "1." = Throw SyntaxError
  /\ JSON.parse "1e" = Throw SyntaxError
  /\ JSON.parse "[1.5," = Throw SyntaxError.
Proof. repeat split. Qed.

Example parse_exponent : JSON.parse "[1e3]" = Unmodelled.
Proof. reflexivity. Qed.

Example parse_stored_tasks :
  JSON.parse (JSON.stringify (JArr [milk; report])) = Ok (JArr [milk; report]).
Proof. reflexivity. Qed.

(** The scenario of the specification: two adds, then a toggle of the
    first task. *)
Example add_add_toggle :
  tasks (run [Add "Write report" 10 "a"; Add "Call dentist" 20 "b"; Toggle 10]
           (fresh (mkStorage None 4096%nat)))
  = JArr [setCompleted (taskRecord 10 "Write report" "a") true;
          taskRecord 20 "Call dentist" "b"].
Proof. reflexivity. Qed.

Lemma twoTasks_not_null : Forall (fun v => v <> JNull) [milk; report].
Proof. repeat constructor; discriminate. Qed.

Lemma handleAddTask_rejects_blank_witness :
  allWhiteSpace "   " = true
  /\ handleAddTask "   " 3 "" twoTasks
     = (Ok tt, logged EmptyInputFeedback twoTasks).
Proof.
  split; [reflexivity|].
  exact (proj1 (handleAddTask_rejects_blank "   " 3 ""
                  twoTasks eq_refl)).
Defined.

Lemma handleAddTask_rejects_duplicate_witness :
  toLowerCase "Buy milk" = toLowerCase (trim "  BUY MILK ")
  /\ handleAddTask "  BUY MILK " 3 "" twoTasks
     = (Ok tt, logged (Alert "This task already exists!") twoTasks).
Proof.
  split; [reflexivity|].
  refine (proj1 handleAddTask_rejects_duplicate
            "  BUY MILK " 3 "" twoTasks [milk; report] milk "Buy milk"
            eq_refl _ _ _ eq_refl eq_refl).
  - repeat constructor; discriminate.
  - discriminate.
  - left. reflexivity.
Defined.

Lemma toggleTaskCompletion_flips_witness :
  hasId 2 report = true
  /\ tasks (snd (toggleTaskCompletion 2 twoTasks))
     = JArr [milk; setCompleted report false]
  /\ toggleTaskCompletion 5 twoTasks = (Ok tt, twoTasks)
  /\ getProp milk "completed" = Ok (Some (JBool false))
  /\ tasks (snd (toggleTaskCompletion 1 twoTasks))
     = JArr [JObj [("id", JNum 1); ("text", JStr "Buy milk");
                   ("completed", JBool true);
                   ("createdAt", JStr "2024-01-01T09:00:00.000Z")];
             report]
  /\ getProp (setCompleted milk (negb (isCompleted milk))) "completed"
     = Ok (Some (JBool true))
  /\ getProp (setCompleted report (negb (isCompleted report))) "completed"
     = Ok (Some (JBool false)).
Proof.
  destruct (toggleTaskCompletion_flips 2 twoTasks
              [milk; report] eq_refl twoTasks_not_null) as [_ Hflip].
  destruct (toggleTaskCompletion_flips 1 twoTasks
              [milk; report] eq_refl twoTasks_not_null) as [_ Hfirst].
  destruct (toggleTaskCompletion_flips 5 twoTasks
              [milk; report] eq_refl twoTasks_not_null) as [Hnone _].
  pose proof (Hflip [milk] report [] eq_refl eq_refl eq_refl) as H2.
  pose proof (Hfirst [] milk [report] eq_refl eq_refl eq_refl) as H1.
  cbv zeta in H1, H2.
  destruct H2 as (Htasks2 & _ & _ & _ & _ & Hdown).
  destruct H1 as (Htasks1 & _ & _ & _ & Hup & _).
  split; [reflexivity|]. split; [exact Htasks2|].
  split; [exact (Hnone eq_refl)|]. split; [reflexivity|].
  split; [exact Htasks1|]. split; [exact (Hup eq_refl)|exact (Hdown eq_refl)].
Defined.

Lemma handleClearCompleted_removes_on_confirm_witness :
  List.length (filter isCompleted [milk; report]) = 1%nat
  /\ tasks (snd (handleClearCompleted true twoTasks))
     = JArr [milk]
  /\ fst (handleClearCompleted (page := quietView) true twoTasks) = Ok tt
  /\ trace (snd (handleClearCompleted (page := quietView) true twoTasks))
     = [Confirm (clearPrompt 1%nat) true;
        SetItem (JSON.stringify (JArr [milk]));
        ConsoleLog TasksSaved;
        ConsoleLog (ClearedCompleted 1%nat)]
  /\ fst (handleClearCompleted (page := staleView) true twoTasks)
     = Throw ReferenceError
  /\ trace (snd (handleClearCompleted (page := staleView) true twoTasks))
     = [Confirm (clearPrompt 1%nat) true;
        SetItem (JSON.stringify (JArr [milk]));
        ConsoleLog TasksSaved].
Proof.
  split; [reflexivity|].
  destruct (handleClearCompleted_removes_on_confirm (page := quietView) true
              twoTasks [milk; report] eq_refl twoTasks_not_null)
    as (_ & _ & Hyes & _ & _ & Hquiet).
  destruct (handleClearCompleted_removes_on_confirm (page := staleView) true
              twoTasks [milk; report] eq_refl twoTasks_not_null)
    as (_ & _ & _ & _ & _ & Hstale).
  destruct (Hyes (Nat.lt_0_succ 0%nat) eq_refl) as [(Htasks & _) _].
  pose proof (Hquiet (Nat.lt_0_succ 0%nat) eq_refl) as Hq.
  pose proof (Hstale (Nat.lt_0_succ 0%nat) eq_refl) as Hs.
  cbv zeta in Hq, Hs.
  destruct Hq as (_ & _ & Hlogged & _).
  destruct Hs as (_ & _ & _ & Hthrown).
  destruct (Hlogged eq_refl eq_refl) as [Hret Htrace].
  destruct (Hthrown ReferenceError (or_intror (conj eq_refl eq_refl)))
    as [Hthrow Hshort].
  split; [exact Htasks|]. split; [exact Hret|]. split; [exact Htrace|].
  split; [exact Hthrow|exact Hshort].
Defined.

Lemma loadTasksFromStorage_absent_or_malformed_witness :
  JSON.parse "[{" = Throw SyntaxError
  /\ tasks (snd (loadTasksFromStorage (fresh (mkStorage None 4096%nat)))) = JArr []
  /\ loadTasksFromStorage
       (withStorage (mkStorage (Some "[{") 4096%nat) twoTasks)
     = (Ok tt,
        withTasks (JArr [])
          (logged (ConsoleError (LoadFailed SyntaxError))
             (withStorage (mkStorage (Some "[{") 4096%nat) twoTasks)))
  /\ trace (snd (loadTasksFromStorage (fresh (mkStorage None 4096%nat))))
     = [ConsoleLog NoSavedTasks]
  /\ JSON.parse "1." = Throw SyntaxError
  /\ tasks (snd (loadTasksFromStorage
                   (withStorage (mkStorage (Some "1.") 4096%nat) twoTasks)))
     = JArr []
  /\ trace (snd (loadTasksFromStorage
                   (withStorage (mkStorage (Some "1.") 4096%nat) twoTasks)))
     = [ConsoleError (LoadFailed SyntaxError)].
Proof.
  destruct loadTasksFromStorage_absent_or_malformed
    as (Habsent & _ & Hbad & _).
  destruct (Habsent (mkStorage None 4096%nat) eq_refl)
    as (_ & Hempty & Hquiet & _).
  assert (Hne : "1." <> "") by discriminate.
  destruct (Hbad (withStorage (mkStorage (Some "1.") 4096%nat) twoTasks)
              "1." SyntaxError eq_refl Hne eq_refl)
    as (_ & _ & Hreset & Hreported & _).
  split; [reflexivity|]. split; [exact Hempty|]. split.
  - refine (proj1 (Hbad (withStorage (mkStorage (Some "[{") 4096%nat) twoTasks)
                     "[{" SyntaxError eq_refl _ eq_refl)).
    discriminate.
  - split; [exact Hquiet|]. split; [reflexivity|].
    split; [exact Hreset|exact Hreported].
Defined.

Lemma loadTasksFromStorage_installs_unvalidated_witness :
  tasks (snd (loadTasksFromStorage
                (withStorage (mkStorage (Some "5") 4096%nat) twoTasks)))
  = JNum 5
  /\ tasks (snd (loadTasksFromStorage
                   (withStorage (mkStorage (Some "[{}]") 4096%nat) twoTasks)))
     = JArr [JObj []]
  /\ trace (snd (loadTasksFromStorage
                   (withStorage (mkStorage (Some "[{}]") 4096%nat) twoTasks)))
     = [ConsoleLog (TasksLoaded (Some (JNum 1)))]
  /\ tasks (snd (loadTasksFromStorage
                   (withStorage (mkStorage (Some "{}") 4096%nat) twoTasks)))
     = JObj [].
Proof.
  destruct (loadTasksFromStorage_installs_unvalidated 4096%nat twoTasks)
    as (_ & _ & Hfive & Hbare & _).
  destruct (loadTasksFromStorage_installs_unvalidated 4096%nat
              (withStorage (mkStorage (Some "{}") 4096%nat) twoTasks))
    as (_ & _ & _ & _ & Hany).
  assert (Hne : "{}" <> "") by discriminate.
  destruct (Hany "{}" (JObj []) None eq_refl Hne eq_refl eq_refl eq_refl)
    as (_ & Hobj & _).
  destruct Hfive as (_ & Hfive & _). destruct Hbare as (_ & Hbare & Hlog & _).
  split; [exact Hfive|]. split; [exact Hbare|]. split; [exact Hlog|exact Hobj].
Defined.

Lemma load_after_accepted_save_witness :
  fits twoTasks = true
  /\ tasks (snd (loadTasksFromStorage
                   (fresh (localStorage (snd (saveTasksToStorage twoTasks))))))
     = JArr [milk; report]
  /\ fits fullStorage = false
  /\ slot (localStorage (snd (saveTasksToStorage fullStorage))) = Some "[]"
  /\ trace (snd (saveTasksToStorage fullStorage))
     = [SetItem (JSON.stringify (JArr [milk; report]));
        ConsoleError (SaveFailed QuotaExceededError)].
Proof.
  destruct load_after_accepted_save as [Haccepted Hrejected].
  destruct (Hrejected fullStorage eq_refl) as (_ & _ & Hslot & Htrace & _).
  split; [reflexivity|]. split.
  - exact (proj2 (Haccepted twoTasks [milk; report]
                    eq_refl eq_refl eq_refl
                    (fresh (localStorage (snd (saveTasksToStorage twoTasks))))
                    eq_refl)).
  - split; [reflexivity|]. split; [now rewrite Hslot|exact Htrace].
Defined.

Lemma readerOnload_checks_array_only_witness :
  JSON.parse "[1,2]" = Ok (JArr [JNum 1; JNum 2])
  /\ tasks (snd (readerOnload "[1,2]" true twoTasks))
     = JArr [JNum 1; JNum 2]
  /\ readerOnload "{}" true twoTasks
     = (Ok tt,
        logged (ConsoleError (ImportFailed (GenericError "Invalid file format")))
          (logged (Alert importAlert) twoTasks)).
Proof.
  destruct (readerOnload_checks_array_only "[1,2]" true
              twoTasks) as (_ & _ & _ & Hyes).
  destruct (readerOnload_checks_array_only "{}" true
              twoTasks) as (_ & Hother & _).
  split; [reflexivity|split].
  - exact (proj1 (Hyes [JNum 1; JNum 2] eq_refl eq_refl)).
  - refine (Hother (JObj []) eq_refl _). discriminate.
Defined.

Lemma mutation_written_in_its_turn_witness :
  tasks (snd (step (Toggle 1) twoTasks)) <> tasks twoTasks
  /\ written twoTasks (snd (step (Toggle 1) twoTasks)).
Proof.
  assert (H : tasks (snd (step (Toggle 1) twoTasks))
              <> tasks twoTasks) by discriminate.
  split; [exact H|].
  exact (proj1 (mutation_written_in_its_turn (Toggle 1)
                  twoTasks) H).
Defined.

(** C1 as stated fails: the text [[{}]] holds a record without [id], [text]
    or [completed], and the import, once confirmed, replaces the collection
    by it and writes it to the storage, whether the view layer completes or
    throws. *)
Lemma malformed_import_replaces_collection :
  JSON.parse "[{}]" = Ok (JArr [JObj []])
  /\ isTask (JObj []) = false
  /\ tasks twoTasks = JArr [milk; report]
  /\ tasks (run (page := quietView) [Import "[{}]"; Loaded true] twoTasks)
     = JArr [JObj []]
  /\ slot (localStorage
             (run (page := quietView) [Import "[{}]"; Loaded true] twoTasks))
     = Some "[{}]"
  /\ tasks (run (page := staleView) [Import "[{}]"; Loaded true] twoTasks)
     = JArr [JObj []]
  /\ slot (localStorage
             (run (page := staleView) [Import "[{}]"; Loaded true] twoTasks))
     = Some "[{}]".
Proof. repeat split; reflexivity. Qed.

(** C3 as stated fails for [deleteTask]: it returns with the task still in
    [tasks], nothing written and a timer pending; the removal and the write
    happen when the timer fires. *)
Lemma deleteTask_returns_before_write :
  deleteTask 1 true twoTasks
  = (Ok tt,
     withTimers [1] (logged (RemovingAnimation 1) twoTasks))
  /\ tasks (snd (deleteTask 1 true twoTasks)) = JArr [milk; report]
  /\ slot (localStorage (snd (deleteTask 1 true twoTasks))) = None
  /\ tasks (run (page := quietView) [Delete 1 true; Timeout] twoTasks)
     = JArr [report]
  /\ slot (localStorage
             (run (page := quietView) [Delete 1 true; Timeout] twoTasks))
     = Some (JSON.stringify (JArr [report])).
Proof. repeat split; reflexivity. Qed.

(** C4 as stated fails when the user declines: one task is completed, and
    [handleClearCompleted] removes nothing and returns no count. *)
Lemma declined_clear_removes_nothing :
  List.length (filter isCompleted [milk; report]) = 1%nat
  /\ handleClearCompleted false twoTasks
     = (Ok tt, logged (Confirm (clearPrompt 1%nat) false) twoTasks)
  /\ tasks (snd (handleClearCompleted false twoTasks))
     = JArr [milk; report].
Proof. repeat split; reflexivity. Qed.

(** C5 as stated fails when the storage rejects the write: the slot keeps
    the older text and a load, in a fresh page or in the same one, yields the
    older collection. *)
Lemma rejected_save_is_not_read_back :
  tasks fullStorage = JArr [milk; report]
  /\ slot (localStorage (snd (saveTasksToStorage fullStorage))) = Some "[]"
  /\ tasks (snd (loadTasksFromStorage
                   (fresh (localStorage (snd (saveTasksToStorage fullStorage))))))
     = JArr []
  /\ tasks (snd (loadTasksFromStorage (snd (saveTasksToStorage fullStorage))))
     = JArr [].
Proof. repeat split; reflexivity. Qed.

(** *** The further statements at work *)

Lemma twoTasks_are_tasks : Forall (fun v => isTask v = true) [milk; report].
Proof. repeat constructor. Qed.

Lemma dentist_is_new :
  ~ In (Some (toLowerCase (trim "  Call dentist ")))
      (map loweredText [milk; report]).
Proof. simpl. intros [H|[H|[]]]; discriminate. Qed.

Lemma filteredTasks_partitions_witness :
  filteredTasks "completed" (JArr [milk; report]) = Ok (JArr [report])
  /\ filteredTasks "pending" (JArr [milk; report]) = Ok (JArr [milk])
  /\ filteredTasks "all" (JArr [milk; report]) = Ok (JArr [milk; report]).
Proof.
  pose proof (filteredTasks_partitions [milk; report] twoTasks_not_null) as H.
  cbv zeta in H. destruct H as (Hdone & Htodo & _ & _ & Hall).
  split; [exact Hdone|]. split; [exact Htodo|].
  apply Hall; discriminate.
Defined.

Lemma filteredTasks_idempotent_witness :
  filteredTasks "completed" (JArr [report]) = Ok (JArr [report])
  /\ filteredTasks "pending" (JArr [report]) = Ok (JArr []).
Proof.
  destruct (filteredTasks_idempotent "completed" (JArr [milk; report])
              (JArr [report]) eq_refl) as (Hsame & Hother & _).
  split; [exact Hsame|exact (Hother eq_refl)].
Defined.

Lemma statistics_count_the_views_witness :
  statistics (JArr [milk; report]) = Ok (mkStatistics 2 1 1)
  /\ completed (mkStatistics 2 1 1) + pending (mkStatistics 2 1 1)
     = total (mkStatistics 2 1 1).
Proof.
  split; [reflexivity|].
  destruct (proj1 statistics_count_the_views (JArr [milk; report])
              (mkStatistics 2 1 1) eq_refl)
    as (l & done & todo & _ & _ & _ & _ & _ & _ & Hsum).
  exact Hsum.
Defined.

Lemma clear_button_follows_completed_view_witness :
  exists shown s,
    hasCompletedTasks (JArr [milk; report]) = Ok shown
    /\ emptyStateShown "completed" (JArr [milk; report]) = Ok (negb shown)
    /\ statistics (JArr [milk; report]) = Ok s
    /\ (0 <? completed s) = shown.
Proof.
  exact (clear_button_follows_completed_view [milk; report] twoTasks_not_null).
Defined.

Lemma empty_state_follows_counts_witness :
  exists s,
    statistics (JArr [milk; report]) = Ok s
    /\ emptyStateShown "completed" (JArr [milk; report])
       = Ok (completed s =? 0)
    /\ emptyStateShown "pending" (JArr [milk; report]) = Ok (pending s =? 0)
    /\ emptyStateShown "all" (JArr [milk; report]) = Ok (total s =? 0).
Proof.
  destruct (empty_state_follows_counts [milk; report] twoTasks_not_null)
    as (s & Hs & Hdone & Htodo & Hall).
  exists s. repeat split; try assumption.
  apply Hall; discriminate.
Defined.

Lemma clear_button_matches_handler_witness :
  hasCompletedTasks (tasks twoTasks) = Ok true
  /\ exists post,
       trace (snd (handleClearCompleted false twoTasks))
       = (trace twoTasks ++ Confirm (clearPrompt 1%nat) false :: post)%list.
Proof.
  split; [reflexivity|].
  pose proof (proj2 (clear_button_matches_handler false twoTasks [milk; report]
                       eq_refl twoTasks_not_null) eq_refl) as H.
  cbv zeta in H. exact (proj2 H).
Defined.

Lemma confirmed_clear_leaves_pending_view_witness :
  filteredTasks "pending" (tasks twoTasks)
  = Ok (tasks (snd (handleClearCompleted true twoTasks)))
  /\ hasCompletedTasks (tasks (snd (handleClearCompleted true twoTasks)))
     = Ok false.
Proof.
  pose proof (confirmed_clear_leaves_pending_view twoTasks [milk; report]
                eq_refl twoTasks_not_null eq_refl) as H.
  cbv zeta in H. destruct H as (Hview & _ & Hnone & _).
  split; [exact Hview|exact Hnone].
Defined.

Lemma getTaskById_first_match_witness :
  fst (getTaskById 2 twoTasks) = Ok (Some report)
  /\ fst (getTaskById 5 twoTasks) = Ok None.
Proof.
  destruct (getTaskById_first_match 2 twoTasks [milk; report]
              eq_refl twoTasks_not_null) as (_ & Hfound & _).
  destruct (getTaskById_first_match 5 twoTasks [milk; report]
              eq_refl twoTasks_not_null) as (_ & _ & Hnone).
  split.
  - apply Hfound. exists [milk], []. repeat split.
  - apply Hnone. reflexivity.
Defined.

Lemma toggle_twice_restores_witness :
  tasks (snd (toggleTaskCompletion 2 (snd (toggleTaskCompletion 2 twoTasks))))
  = JArr [milk; report].
Proof.
  exact (toggle_twice_restores 2 twoTasks [milk; report] eq_refl
           twoTasks_are_tasks).
Defined.

Lemma toggle_moves_one_task_witness :
  exists s s',
    statistics (tasks twoTasks) = Ok s
    /\ statistics (tasks (snd (toggleTaskCompletion 2 twoTasks))) = Ok s'
    /\ total s' = total s
    /\ completed s' = completed s - 1.
Proof.
  exact (toggle_moves_one_task 2 twoTasks [milk; report] report eq_refl
           twoTasks_not_null eq_refl).
Defined.

Lemma deleteTaskTimeout_removes_id_witness :
  tasks (snd (deleteTaskTimeout 1 twoTasks)) = JArr [report]
  /\ fst (getTaskById 1 (snd (deleteTaskTimeout 1 twoTasks))) = Ok None.
Proof.
  pose proof (deleteTaskTimeout_removes_id 1 twoTasks [milk; report]
                eq_refl twoTasks_not_null) as H.
  cbv zeta in H. destruct H as (Htasks & Hgone & _).
  split; [exact Htasks|exact Hgone].
Defined.

Lemma delete_gesture_removes_after_timeout_witness :
  tasks (run [Delete 1 true; Timeout] twoTasks) = JArr [report]
  /\ run [Delete 1 false; Timeout] twoTasks = twoTasks.
Proof.
  destruct (delete_gesture_removes_after_timeout 1 twoTasks [milk; report]
              eq_refl twoTasks_not_null eq_refl) as (_ & Hgone & _ & Hnone).
  split; [exact Hgone|exact Hnone].
Defined.

Lemma handleAddTask_appends_trimmed_record_witness :
  allWhiteSpace "  Call dentist " = false
  /\ tasks (snd (handleAddTask "  Call dentist " 3 "c" twoTasks))
     = JArr [milk; report; taskRecord 3 "Call dentist" "c"]
  /\ trimmed (trim "  Call dentist ").
Proof.
  pose proof (handleAddTask_appends_trimmed_record "  Call dentist " 3 "c"
                twoTasks [milk; report] eq_refl twoTasks_are_tasks eq_refl
                dentist_is_new) as H.
  cbv zeta in H. destruct H as (Htasks & _ & _ & Htrimmed & _).
  split; [reflexivity|]. split; [exact Htasks|exact Htrimmed].
Defined.

Lemma handleAddTask_ignores_surrounding_space_witness :
  handleAddTask ("  " ++ "Call dentist" ++ " ") 3 "c" twoTasks
  = handleAddTask "Call dentist" 3 "c" twoTasks.
Proof.
  exact (handleAddTask_ignores_surrounding_space "  " "Call dentist" " " 3 "c"
           twoTasks eq_refl eq_refl).
Defined.

Lemma add_then_delete_restores_witness :
  tasks (snd (handleAddTask "  Call dentist " 3 "c" twoTasks))
  <> tasks twoTasks
  /\ tasks (snd (deleteTaskTimeout 3
                   (snd (handleAddTask "  Call dentist " 3 "c" twoTasks))))
     = tasks twoTasks.
Proof.
  exact (add_then_delete_restores "  Call dentist " 3 "c" twoTasks
           [milk; report] eq_refl twoTasks_are_tasks eq_refl dentist_is_new
           eq_refl).
Defined.

Lemma handlers_need_an_array_witness :
  tasks (snd (loadTasksFromStorage (fresh (mkStorage (Some "5") 4096%nat))))
  = tasks storedFive
  /\ handleAddTask "Buy milk" 3 "c" storedFive = (Throw TypeError, storedFive)
  /\ toggleTaskCompletion 1 storedFive = (Throw TypeError, storedFive).
Proof.
  assert (Hno : forall l, tasks storedFive <> JArr l) by discriminate.
  destruct (handlers_need_an_array storedFive Hno) as (Hadd & Htoggle & _).
  split; [reflexivity|]. split; [exact (Hadd "Buy milk" 3 "c" eq_refl)|].
  exact (Htoggle 1).
Defined.

Lemma null_element_blocks_filters_witness :
  In JNull [milk; JNull]
  /\ handleClearCompleted true importedNull = (Throw TypeError, importedNull)
  /\ statistics (tasks importedNull) = Throw TypeError.
Proof.
  assert (Hin : In JNull [milk; JNull]) by (right; left; reflexivity).
  destruct (null_element_blocks_filters importedNull [milk; JNull]
              eq_refl Hin) as (Hclear & _ & Hstats & _).
  split; [exact Hin|]. split; [exact (Hclear true)|exact Hstats].
Defined.

Lemma tasks_stay_an_array_witness :
  exists l,
    tasks (run [Import "5"; Loaded true; Add "Call dentist" 3 "c";
                ClearCompleted true] twoTasks)
    = JArr l.
Proof.
  exact (proj1 (tasks_stay_an_array
                  [Import "5"; Loaded true; Add "Call dentist" 3 "c";
                   ClearCompleted true] twoTasks [milk; report] eq_refl)).
Defined.

Lemma reload_restores_collection_witness :
  reloads (run [Add "Call dentist" 3 "c"; Toggle 3; Add "Buy milk" 4 "d";
                Delete 3 true; Timeout]
             (fresh (mkStorage None 4096%nat))).
Proof.
  refine (reload_restores_collection
            [Add "Call dentist" 3 "c"; Toggle 3; Add "Buy milk" 4 "d";
             Delete 3 true; Timeout]
            (fresh (mkStorage None 4096%nat)) [] eq_refl (Forall_nil _)
            eq_refl eq_refl eq_refl _ _).
  - simpl. repeat split; discriminate.
  - intros k. do 6 (destruct k as [|k]; [reflexivity|]). reflexivity.
Defined.

Lemma export_then_import_restores_witness :
  JSON.parse (exportTasks twoTasks) = Ok (JArr [milk; report])
  /\ tasks (run [Import (exportTasks twoTasks); Loaded true]
              (fresh (mkStorage None 4096%nat)))
     = JArr [milk; report].
Proof.
  destruct (export_then_import_restores twoTasks [milk; report]
              eq_refl eq_refl) as (Hparse & _ & Himport).
  split; [exact Hparse|].
  pose proof (Himport (fresh (mkStorage None 4096%nat)) eq_refl) as H.
  cbv zeta in H. exact (proj1 H).
Defined.

Lemma shared_id_toggles_first_deletes_both_witness :
  tasks (snd (toggleTaskCompletion 7 sameMillisecond))
  = JArr [setCompleted (taskRecord 7 "Write report" "2024-01-01T09:00:00.007Z")
            true;
          taskRecord 7 "Call dentist" "2024-01-01T09:00:00.007Z"].
Proof.
  refine (proj1 (shared_id_toggles_first_deletes_both 7 sameMillisecond
                   [] (taskRecord 7 "Write report" "2024-01-01T09:00:00.007Z")
                   [] (taskRecord 7 "Call dentist" "2024-01-01T09:00:00.007Z")
                   [] eq_refl _ eq_refl eq_refl eq_refl)).
  repeat constructor; discriminate.
Defined.

Lemma handleAddTask_throws_on_textless_task_witness :
  textOf (JObj []) = None
  /\ handleAddTask "Buy milk" 3 "c" importedBare
     = (Throw TypeError, importedBare).
Proof.
  split; [reflexivity|].
  refine (handleAddTask_throws_on_textless_task "Buy milk" 3 "c" importedBare
            [] (JObj []) [] eq_refl (Forall_nil _) _ eq_refl eq_refl).
  simpl. tauto.
Defined.

Lemma loadTasksFromStorage_never_null_witness :
  JSON.parse " null " = Ok JNull
  /\ tasks (snd (loadTasksFromStorage
                   (withStorage (mkStorage (Some " null ") 4096%nat) twoTasks)))
     = JArr [].
Proof.
  split; [reflexivity|].
  destruct (loadTasksFromStorage_never_null
              (withStorage (mkStorage (Some " null ") 4096%nat) twoTasks))
    as (Hnull & _).
  exact (proj1 (proj2 (Hnull " null " eq_refl eq_refl))).
Defined.

Lemma staleView_throws : viewThrows staleView.
Proof. intros st. exists ReferenceError. reflexivity. Qed.

Lemma view_failure_comes_after_the_write_witness :
  tasks (snd (step (page := staleView) (Toggle 1) twoTasks)) <> tasks twoTasks
  /\ written twoTasks (snd (step (page := staleView) (Toggle 1) twoTasks))
  /\ exists e,
       fst (step (page := staleView) (Toggle 1) twoTasks) = Throw e
       /\ draw (page := staleView)
            (snd (step (page := staleView) (Toggle 1) twoTasks))
          = Throw e.
Proof.
  assert (Hop : forall confirmed, Toggle 1 <> Loaded confirmed) by discriminate.
  assert (Hchanged : tasks (snd (step (page := staleView) (Toggle 1) twoTasks))
                     <> tasks twoTasks) by discriminate.
  split; [exact Hchanged|].
  exact (proj1 (view_failure_comes_after_the_write (page := staleView)
                  (Toggle 1) twoTasks staleView_throws Hop)
           Hchanged).
Defined.

Lemma view_failure_in_import_is_reported_as_format_error_witness :
  fst (readerOnload (page := staleView) "[1,2]" true twoTasks) = Ok tt
  /\ tasks (snd (readerOnload (page := staleView) "[1,2]" true twoTasks))
     = JArr [JNum 1; JNum 2]
  /\ exists e,
       trace (snd (readerOnload (page := staleView) "[1,2]" true twoTasks))
       = [Confirm (importPrompt 2%nat) true;
          SetItem "[1,2]";
          ConsoleLog TasksSaved;
          Alert importAlert;
          ConsoleError (ImportFailed e)].
Proof.
  pose proof (view_failure_in_import_is_reported_as_format_error
                (page := staleView) "[1,2]" [JNum 1; JNum 2]
                twoTasks staleView_throws eq_refl) as H.
  cbv zeta in H. destruct H as (Hret & Htasks & _ & e & _ & Htrace).
  split; [exact Hret|]. split; [exact Htasks|].
  exists e. exact Htrace.
Defined.

Lemma stored_text_is_never_lost_witness :
  fits (snd (step (Toggle 1) fullStorage)) = false
  /\ exists text',
       slot (localStorage (run [Toggle 1] fullStorage)) = Some text'
       /\ (text' = "[]" \/ exists l, text' = JSON.stringify (JArr l)).
Proof.
  split; [reflexivity|].
  exact (stored_text_is_never_lost [Toggle 1] fullStorage "[]" eq_refl).
Defined.

Lemma animateNumber_reaches_target_witness :
  animateNumber 5 2 = Some (mkAnimation 5 (-1) 2 5 false)
  /\ textContent (animationTicks 3 (mkAnimation 5 (-1) 2 5 false)) = 2
  /\ cleared (animationTicks 3 (mkAnimation 5 (-1) 2 5 false)) = true
  /\ cleared (animationTicks 2 (mkAnimation 5 (-1) 2 5 false)) = false.
Proof.
  pose proof (proj2 (animateNumber_reaches_target 5 2)
                (mkAnimation 5 (-1) 2 5 false) eq_refl) as H.
  cbv zeta in H. destruct H as (_ & _ & Hbefore & Hafter).
  split; [reflexivity|].
  destruct (Hafter 3%nat (Nat.le_refl 3)) as [Hcleared Htext].
  split; [exact Htext|]. split; [exact Hcleared|].
  apply (Hbefore 2%nat). apply Nat.lt_succ_diag_r.
Defined.
